(** * The Binding of Sigma: the simulation core of [App.tsx]

    A shallow embedding of the game's geometry helpers, dungeon generator,
    item pickup and per-frame [update], together with the properties the
    specification states about them.  The joystick, the key handlers, the
    heart row of the HUD and the coordinate map of the 3D view are embedded
    as well, with properties read off the code.

    Numbers.  A JavaScript [number] is modelled as a real number: [+], [-],
    [*], [/], [Math.sqrt], [Math.pow], [Math.abs], [Math.cos], [Math.sin]
    are the exact operations of [R].  Rounding, [NaN] and the infinities of
    IEEE doubles are outside the model (in [R] a quotient by zero is [0]).
    Integer-valued data (grid coordinates, clock readings, indices) is [Z]
    or [nat].

    Objects.  Entities, rooms and projectiles are records; a spread
    [{...e, f: v}] is a record copy with one field replaced.  Where the
    source mutates an object that the stored state still references, the
    embedding threads the mutated object to every place that sees it. *)

From Stdlib Require Import Reals Lra Lia ZArith String List DecimalString.
From stdpp Require Import base decidable option list gmap strings.

Open Scope R_scope.

(* ------------------------------------------------------------------ *)
(** ** JavaScript numbers and the built-ins the source calls *)

Definition number : Type := R.

#[global] Instance Rlt_decision (a b : R) : Decision (a < b) := Rlt_dec a b.
#[global] Instance Rle_decision (a b : R) : Decision (a <= b) := Rle_dec a b.
#[global] Instance Rgt_decision (a b : R) : Decision (a > b) := Rgt_dec a b.

(** [Math.floor]. *)
Definition Math_floor (r : number) : Z := Int_part r.

(** Truncation toward zero, as used by the [%] operator. *)
Definition Math_trunc (r : number) : Z :=
  if bool_decide (0 <= r) then Int_part r else (- Int_part (- r))%Z.

(** [a % b] on numbers: the remainder has the sign of the dividend. *)
Definition js_rem (a b : number) : number := a - b * IZR (Math_trunc (a / b)).

(** [Math.atan2(y, x)]: the angle of the point [(x, y)], in (-PI, PI]. *)
Definition Math_atan2 (vy vx : number) : number :=
  if bool_decide (0 < vx) then atan (vy / vx)
  else if bool_decide (vx < 0) then
    (if bool_decide (0 <= vy) then atan (vy / vx) + PI else atan (vy / vx) - PI)
  else if bool_decide (0 < vy) then PI / 2
  else if bool_decide (vy < 0) then - (PI / 2)
  else 0.

(** Template literals print integers in decimal. *)
Definition showZ (z : Z) : string := NilZero.string_of_int (Z.to_int z).

(* ------------------------------------------------------------------ *)
(** ** constants.ts *)

Definition CANVAS_WIDTH : number := 800.
Definition CANVAS_HEIGHT : number := 600.
Definition PLAYER_SIZE : number := 30.
Definition PROJECTILE_SIZE : number := 10.
Definition ENEMY_SIZE : number := 35.
Definition ITEM_SIZE : number := 25.
Definition PLAYER_BASE_SPEED : number := 3.5.
Definition PROJECTILE_SPEED : number := 7.
Definition ENEMY_SPEED : number := 1.5.

(* ------------------------------------------------------------------ *)
(** ** The entity model *)

(** Modelled from the spec: the declarations of types.ts ([Vector2],
    [Entity], [Projectile], [Item], [Room], [Direction], [GameState]) are
    not among the sources.  The types below follow section 3 of the
    specification and carry exactly the fields and tags that App.tsx
    reads and writes. *)
Record Vector2 := mkVector2 { x : number; y : number }.

Inductive EntityType := PLAYER | ENEMY | BOSS | PROJECTILE | ITEM.
Inductive EnemyVariant := BASIC | SHOOTER | DASHER | TANK.
Inductive ItemType := HEALTH | DAMAGE | SPEED | TRIPLE_SHOT | PIERCING | BIG_TEARS.
Inductive Owner := ByPlayer | ByEnemy.
Inductive Direction := UP | DOWN | LEFT | RIGHT.
Inductive GameState := MENU | PLAYING | ITEM_PICKUP_ANIMATION | VICTORY | GAME_OVER.

#[global] Instance EntityType_eq_dec : EqDecision EntityType.
Proof. solve_decision. Defined.
#[global] Instance EnemyVariant_eq_dec : EqDecision EnemyVariant.
Proof. solve_decision. Defined.
#[global] Instance ItemType_eq_dec : EqDecision ItemType.
Proof. solve_decision. Defined.
#[global] Instance Owner_eq_dec : EqDecision Owner.
Proof. solve_decision. Defined.
#[global] Instance Direction_eq_dec : EqDecision Direction.
Proof. solve_decision. Defined.
#[global] Instance GameState_eq_dec : EqDecision GameState.
Proof. solve_decision. Defined.

(** [ITEM_TYPES] of constants.ts. *)
Definition ITEM_TYPES : list ItemType :=
  [HEALTH; DAMAGE; SPEED; TRIPLE_SHOT; PIERCING; BIG_TEARS].

(** Modelled from the spec: [Entity] of types.ts.  The optional fields
    ([facing], [variant], [attackCooldown]) are [None] when the object
    literal leaves them out. *)
Record Entity := mkEntity {
  id : string;
  type : EntityType;
  position : Vector2;
  velocity : Vector2;
  size : number;
  color : string;
  health : number;
  maxHealth : number;
  damage : number;
  speed : number;
  isActive : bool;
  modifiers : list ItemType;
  facing : option number;
  variant : option EnemyVariant;
  attackCooldown : option number
}.

Record Projectile := mkProjectile {
  projectileEntity :> Entity;
  owner : Owner;
  piercing : bool;
  hitIds : list string
}.

Record Item := mkItem {
  itemEntity :> Entity;
  itemType : ItemType;
  name : string;
  description : string;
  statDescription : string
}.

(** Record copies with one field replaced: [{...e, position: p}] etc. *)
Definition with_position (e : Entity) (p : Vector2) : Entity :=
  mkEntity (id e) (type e) p (velocity e) (size e) (color e) (health e)
    (maxHealth e) (damage e) (speed e) (isActive e) (modifiers e) (facing e)
    (variant e) (attackCooldown e).
Definition with_health (e : Entity) (h : number) : Entity :=
  mkEntity (id e) (type e) (position e) (velocity e) (size e) (color e) h
    (maxHealth e) (damage e) (speed e) (isActive e) (modifiers e) (facing e)
    (variant e) (attackCooldown e).
Definition with_maxHealth (e : Entity) (h : number) : Entity :=
  mkEntity (id e) (type e) (position e) (velocity e) (size e) (color e)
    (health e) h (damage e) (speed e) (isActive e) (modifiers e) (facing e)
    (variant e) (attackCooldown e).
Definition with_damage (e : Entity) (d : number) : Entity :=
  mkEntity (id e) (type e) (position e) (velocity e) (size e) (color e)
    (health e) (maxHealth e) d (speed e) (isActive e) (modifiers e) (facing e)
    (variant e) (attackCooldown e).
Definition with_speed (e : Entity) (s : number) : Entity :=
  mkEntity (id e) (type e) (position e) (velocity e) (size e) (color e)
    (health e) (maxHealth e) (damage e) s (isActive e) (modifiers e) (facing e)
    (variant e) (attackCooldown e).
Definition with_isActive (e : Entity) (b : bool) : Entity :=
  mkEntity (id e) (type e) (position e) (velocity e) (size e) (color e)
    (health e) (maxHealth e) (damage e) (speed e) b (modifiers e) (facing e)
    (variant e) (attackCooldown e).
Definition with_modifiers (e : Entity) (m : list ItemType) : Entity :=
  mkEntity (id e) (type e) (position e) (velocity e) (size e) (color e)
    (health e) (maxHealth e) (damage e) (speed e) (isActive e) m (facing e)
    (variant e) (attackCooldown e).
Definition with_facing (e : Entity) (f : option number) : Entity :=
  mkEntity (id e) (type e) (position e) (velocity e) (size e) (color e)
    (health e) (maxHealth e) (damage e) (speed e) (isActive e) (modifiers e) f
    (variant e) (attackCooldown e).
Definition with_attackCooldown (e : Entity) (c : option number) : Entity :=
  mkEntity (id e) (type e) (position e) (velocity e) (size e) (color e)
    (health e) (maxHealth e) (damage e) (speed e) (isActive e) (modifiers e)
    (facing e) (variant e) c.

(* ------------------------------------------------------------------ *)
(** ** Utilities *)

(** [getDistance]: [Math.sqrt(Math.pow(b.x - a.x, 2) + Math.pow(b.y - a.y, 2))]. *)
Definition getDistance (a b : Vector2) : number :=
  sqrt ((x b - x a) ^ 2 + (y b - y a) ^ 2).

(** [checkCollision]: circle overlap, strict. *)
Definition checkCollision (a b : Entity) : bool :=
  let dist := getDistance (position a) (position b) in
  bool_decide (dist < size a / 2 + size b / 2).

(** [getFacingFromVelocity].  [currentFacing] is handed back untouched on
    the idle path, so it is whatever the caller stored ([undefined] for an
    entity created without the field). *)
Definition getFacingFromVelocity (vx vy : number) (currentFacing : option number)
  : option number :=
  if bool_decide (Rabs vx < 0.1) && bool_decide (Rabs vy < 0.1) then currentFacing
  else
    let angle := Math_atan2 vy vx in
    let deg := angle * (180 / PI) in
    let deg := if bool_decide (deg < 0) then deg + 360 else deg in
    let index := Math_floor (js_rem (deg + 22.5) 360 / 45) in
    Some (IZR (Z.rem (index - 2 + 8) 8)).

(** [createPlayer]. *)
Definition createPlayer : Entity :=
  {| id := "player"; type := PLAYER;
     position := mkVector2 (CANVAS_WIDTH / 2) (CANVAS_HEIGHT / 2);
     velocity := mkVector2 0 0;
     size := PLAYER_SIZE; color := "pink";
     health := 6; maxHealth := 6; damage := 3.5; speed := PLAYER_BASE_SPEED;
     isActive := true; modifiers := []; facing := Some 0;
     variant := None; attackCooldown := None |}.

(* ------------------------------------------------------------------ *)
(** ** Rooms *)

#[global] Instance Direction_countable : Countable Direction.
Proof.
  refine (inj_countable'
    (fun d => match d with UP => 0 | DOWN => 1 | LEFT => 2 | RIGHT => 3 end)%nat
    (fun n => match n with 0 => UP | 1 => DOWN | 2 => LEFT | _ => RIGHT end)%nat _).
  by intros [].
Defined.

(** Modelled from the spec: [Room] of types.ts; [doors] is the object used
    as a map from direction to boolean. *)
Record Room := mkRoom {
  room_id : string;
  gridX : Z;
  gridY : Z;
  cleared : bool;
  enemies : list Entity;
  items : list Item;
  doors : gmap Direction bool;
  isBossRoom : bool;
  isItemRoom : bool
}.

(** The truth value of [room.doors[d]]: a missing key is [undefined]. *)
Definition hasDoor (r : Room) (d : Direction) : bool := default false (doors r !! d).

Definition with_cleared (r : Room) (c : bool) : Room :=
  mkRoom (room_id r) (gridX r) (gridY r) c (enemies r) (items r) (doors r)
    (isBossRoom r) (isItemRoom r).
Definition with_enemies (r : Room) (es : list Entity) : Room :=
  mkRoom (room_id r) (gridX r) (gridY r) (cleared r) es (items r) (doors r)
    (isBossRoom r) (isItemRoom r).
Definition with_items (r : Room) (its : list Item) : Room :=
  mkRoom (room_id r) (gridX r) (gridY r) (cleared r) (enemies r) its (doors r)
    (isBossRoom r) (isItemRoom r).
Definition with_doors (r : Room) (ds : gmap Direction bool) : Room :=
  mkRoom (room_id r) (gridX r) (gridY r) (cleared r) (enemies r) (items r) ds
    (isBossRoom r) (isItemRoom r).

(** The grid step of a direction (y grows downwards). *)
Definition dirDelta (d : Direction) : Z * Z :=
  match d with
  | UP => (0, -1) | DOWN => (0, 1) | LEFT => (-1, 0) | RIGHT => (1, 0)
  end%Z.

Definition opposite (d : Direction) : Direction :=
  match d with UP => DOWN | DOWN => UP | LEFT => RIGHT | RIGHT => LEFT end.

(* ------------------------------------------------------------------ *)
(** ** Items *)

(** [ITEM_TYPES[Math.floor(Math.random() * ITEM_TYPES.length)]].
    [Math.random()] lies in [0, 1), so the index is in range; the default
    is there only to keep the function total. *)
Definition randomItemType (r : number) : ItemType :=
  default HEALTH (ITEM_TYPES !! Z.to_nat (Math_floor (r * 6))).

(** The chain of [if (randomType === ...)] that names an item, started
    from the given defaults. *)
Definition itemLabels (name0 stat0 : string) (t : ItemType) : string * string :=
  let r := (name0, stat0) in
  let r := if decide (t = DAMAGE) then ("Grimace Shake", "Damage +1.5") else r in
  let r := if decide (t = SPEED) then ("Energy Drink", "Speed +0.5") else r in
  let r := if decide (t = TRIPLE_SHOT) then ("The Squad", "Shoots 3 tears at once") else r in
  let r := if decide (t = PIERCING) then ("Fanum's Fork", "Shots pass through enemies") else r in
  let r := if decide (t = BIG_TEARS) then ("Mogger Mode", "Massive Tears + Damage Up") else r in
  let r := if decide (t = HEALTH) then ("Lunchly Meal", "Health Up + Full Heal") else r in
  r.

Definition makeItem (itemId : string) (t : ItemType) (px py : number)
    (labels : string * string) (desc : string) : Item :=
  {| itemEntity :=
       {| id := itemId; type := ITEM; position := mkVector2 px py;
          velocity := mkVector2 0 0; size := ITEM_SIZE; color := "gold";
          health := 1; maxHealth := 1; damage := 0; speed := 0;
          isActive := true; modifiers := []; facing := None;
          variant := None; attackCooldown := None |};
     itemType := t; name := fst labels; description := desc;
     statDescription := snd labels |}.

Definition item_deactivate (it : Item) : Item :=
  mkItem (with_isActive it false) (itemType it) (name it) (description it)
    (statDescription it).

(** [handleItemPickup]: the updater it hands to [setPlayer].  (Its call of
    [setGameState(ITEM_PICKUP_ANIMATION)] is accounted for in [update]; the
    part after the [await] only touches the modal text and a timer.) *)
Definition handleItemPickup (item : Item) (p : Entity) : Entity :=
  let newP := p in
  let newP :=
    if decide (itemType item = HEALTH) then
      let newP := with_maxHealth newP (maxHealth newP + 2) in
      with_health newP (maxHealth newP)
    else newP in
  let newP :=
    if decide (itemType item = DAMAGE) then with_damage newP (damage newP + 1.5)
    else newP in
  let newP :=
    if decide (itemType item = SPEED) then with_speed newP (speed newP + 0.5)
    else newP in
  let newP :=
    if decide (itemType item = TRIPLE_SHOT)
    then with_modifiers newP (modifiers newP ++ [TRIPLE_SHOT]) else newP in
  let newP :=
    if decide (itemType item = PIERCING)
    then with_modifiers newP (modifiers newP ++ [PIERCING]) else newP in
  let newP :=
    if decide (itemType item = BIG_TEARS) then
      let newP := with_damage newP (damage newP + 2) in
      with_modifiers newP (modifiers newP ++ [BIG_TEARS])
    else newP in
  newP.

(* ------------------------------------------------------------------ *)
(** ** generateDungeon *)

(** The random choices of one run of the generator: [dr_random k] is the
    result of the [k]-th call of [Math.random()] made outside the sort
    comparator; [dr_shuffle i] selects the order in which
    [dirs.sort(() => Math.random() - 0.5)] leaves the four directions in
    the [i]-th growth attempt (some permutation, engine dependent). *)
Record DungeonRandom := mkDungeonRandom {
  dr_random : nat -> number;
  dr_shuffle : nat -> nat
}.

Definition dirs : list (Z * Z) := [(0, -1); (0, 1); (-1, 0); (1, 0)]%Z.

Definition shuffledDirs (choice : nat) : list (Z * Z) :=
  default dirs (permutations dirs !! (choice mod 24)%nat).

(** The key [`${x},${y}`] of the [visited] map. *)
Definition coordKey (gx gy : Z) : string := showZ gx +:+ "," +:+ showZ gy.

(** [arr[i]] for an index computed as a number: [undefined] out of range. *)
Definition zlookup {A} (l : list A) (i : Z) : option A :=
  if bool_decide (0 <= i)%Z then l !! Z.to_nat i else None.

(** [Math.floor(Math.random() * n)]. *)
Definition randomIndex (r : number) (n : nat) : Z := Math_floor (r * INR n).

(** [visited] is a [Map]: keys in insertion order. *)
Definition Visited : Type := list (string * (Z * Z)).

Definition visited_has (v : Visited) (key : string) : bool :=
  bool_decide (key ∈ v.*1).

(** The [for (const dir of dirs)] loop: the first neighbour of [parent]
    that is not yet visited. *)
Fixpoint firstFree (parent : Z * Z) (ds : list (Z * Z)) (v : Visited)
  : option (Z * Z) :=
  match ds with
  | [] => None
  | d :: ds' =>
      let nx := (parent.1 + d.1)%Z in
      let ny := (parent.2 + d.2)%Z in
      if negb (visited_has v (coordKey nx ny)) then Some (nx, ny)
      else firstFree parent ds' v
  end.

(** The [while (visited.size < targetCount)] loop.  It need not end (a
    parent whose four neighbours are taken can be drawn for ever), hence
    the fuel; [None] is "no result".  The second component counts the
    calls of [Math.random()]. *)
Fixpoint grow (fuel : nat) (rnd : DungeonRandom) (targetCount : Z) (k : nat)
    (v : Visited) (candidates : list (Z * Z)) : option (Visited * nat) :=
  if bool_decide (Z.of_nat (length v) < targetCount)%Z then
    match fuel with
    | O => None
    | S fuel' =>
        if bool_decide (length candidates = 0%nat) then Some (v, k)
        else
          match zlookup candidates (randomIndex (dr_random rnd k) (length candidates)) with
          | None => None
          | Some parent =>
              match firstFree parent (shuffledDirs (dr_shuffle rnd k)) v with
              | Some (nx, ny) =>
                  grow fuel' rnd targetCount (S k)
                    (v ++ [(coordKey nx ny, (nx, ny))]) (candidates ++ [(nx, ny)])
              | None => grow fuel' rnd targetCount (S k) v candidates
              end
          end
    end
  else Some (v, k).

(** Boss room: the first key of maximal Manhattan distance, origin excluded. *)
Definition pickBoss (v : Visited) : string :=
  snd (fold_left
    (fun (acc : Z * string) (kv : string * (Z * Z)) =>
       let dist := (Z.abs kv.2.1 + Z.abs kv.2.2)%Z in
       if bool_decide (dist > acc.1)%Z && negb (bool_decide (kv.1 = "0,0"))
       then (dist, kv.1) else acc)
    v ((-1)%Z, "")).

(** One enemy of a normal room; [rand], [rx], [ry], [rcd] are the four
    calls of [Math.random()] of one loop round, in source order. *)
Definition makeEnemy (roomKey : string) (distFactor : Z) (j : nat)
    (rand rx ry rcd : number) : Entity :=
  let hp := 10 + IZR distFactor * 2 in
  let '(v, hp, spd, sz, col) :=
    if bool_decide (rand > 0.85) then (TANK, hp * 2, ENEMY_SPEED * 0.6, ENEMY_SIZE * 1.3, "green")
    else if bool_decide (rand > 0.65) then (SHOOTER, hp * 0.7, ENEMY_SPEED * 0.8, ENEMY_SIZE, "purple")
    else if bool_decide (rand > 0.5) then (DASHER, hp * 0.8, ENEMY_SPEED * 1.2, ENEMY_SIZE, "yellow")
    else (BASIC, hp, ENEMY_SPEED, ENEMY_SIZE, "red") in
  {| id := "enemy-" +:+ roomKey +:+ "-" +:+ showZ (Z.of_nat j); type := ENEMY;
     position := mkVector2 (100 + rx * (CANVAS_WIDTH - 200)) (100 + ry * (CANVAS_HEIGHT - 200));
     velocity := mkVector2 0 0; size := sz; color := col;
     health := hp; maxHealth := 10; damage := 1; speed := spd;
     isActive := true; modifiers := []; facing := Some 0;
     variant := Some v; attackCooldown := Some (rcd * 2000) |}.

(** [for (let j = 0; j < count; j++)], [n] rounds left, from draw [k]. *)
Fixpoint makeEnemies (rnd : DungeonRandom) (roomKey : string) (distFactor : Z)
    (n j k : nat) : list Entity :=
  match n with
  | O => []
  | S n' =>
      makeEnemy roomKey distFactor j (dr_random rnd k) (dr_random rnd (k + 1))
        (dr_random rnd (k + 2)) (dr_random rnd (k + 3))
      :: makeEnemies rnd roomKey distFactor n' (S j) (k + 4)
  end.

Definition makeBoss (roomKey : string) : Entity :=
  {| id := "boss-" +:+ roomKey; type := BOSS;
     position := mkVector2 (CANVAS_WIDTH / 2) 150; velocity := mkVector2 0 0;
     size := ENEMY_SIZE * 2.5; color := "darkred";
     health := 150; maxHealth := 150; damage := 2; speed := ENEMY_SPEED * 1.5;
     isActive := true; modifiers := []; facing := None;
     variant := None; attackCooldown := Some 0 |}.

(** The body of the second [visited.forEach]: the room of one key, doors
    still empty, and the number of draws afterwards. *)
Definition buildRoom (rnd : DungeonRandom) (bossId itemRoomId : string) (k : nat)
    (kv : string * (Z * Z)) : Room * nat :=
  let key := kv.1 in
  let isBoss := bool_decide (key = bossId) in
  let isItemRoom := bool_decide (key = itemRoomId) in
  let isStart := bool_decide (key = "0,0") in
  let '(es, its, k') :=
    if isItemRoom then
      let t := randomItemType (dr_random rnd k) in
      ([], [makeItem ("item-" +:+ key) t (CANVAS_WIDTH / 2) (CANVAS_HEIGHT / 2)
              (itemLabels "Mewing Manual" "Health Up" t) "Free loot"], S k)
    else if isBoss then ([makeBoss key], [], k)
    else if negb isStart then
      let distFactor := (Z.abs kv.2.1 + Z.abs kv.2.2)%Z in
      let count := (Math_floor (dr_random rnd k * 3)%R + 1 + distFactor / 4)%Z in
      (makeEnemies rnd key distFactor (Z.to_nat count) 0 (S k), [],
       (S k + 4 * Z.to_nat count)%nat)
    else ([], [], k) in
  ({| room_id := key; gridX := kv.2.1; gridY := kv.2.2;
      cleared := isStart || isItemRoom; enemies := es; items := its;
      doors := ∅; isBossRoom := isBoss; isItemRoom := isItemRoom |}, k').

Fixpoint buildRooms (rnd : DungeonRandom) (bossId itemRoomId : string) (k : nat)
    (v : Visited) : list Room :=
  match v with
  | [] => []
  | kv :: v' =>
      let '(r, k') := buildRoom rnd bossId itemRoomId k kv in
      r :: buildRooms rnd bossId itemRoomId k' v'
  end.

(** [rooms.find(n => n.gridX === gx && n.gridY === gy)]. *)
Definition findRoom (rs : list Room) (gx gy : Z) : option Room :=
  find (fun n => bool_decide (gridX n = gx) && bool_decide (gridY n = gy)) rs.

(** [if (o)] on the result of a lookup: [undefined] is false. *)
Definition truthy {A} (o : option A) : bool :=
  match o with Some _ => true | None => false end.

(** The body of the "Link doors" [forEach] for one room. *)
Definition linkRoom (rs : list Room) (r : Room) : Room :=
  let up := findRoom rs (gridX r) (gridY r - 1) in
  let down := findRoom rs (gridX r) (gridY r + 1) in
  let left := findRoom rs (gridX r - 1) (gridY r) in
  let right := findRoom rs (gridX r + 1) (gridY r) in
  let ds := doors r in
  let ds := if truthy up then <[UP := true]> ds else ds in
  let ds := if truthy down then <[DOWN := true]> ds else ds in
  let ds := if truthy left then <[LEFT := true]> ds else ds in
  let ds := if truthy right then <[RIGHT := true]> ds else ds in
  with_doors r ds.

Definition linkDoors (rs : list Room) : list Room := map (linkRoom rs) rs.

Definition generateDungeon (fuel : nat) (rnd : DungeonRandom) (targetCount : Z)
  : option (list Room) :=
  match grow fuel rnd targetCount 0 [("0,0", (0, 0)%Z)] [(0, 0)%Z] with
  | None => None
  | Some (v, k) =>
      let bossId := pickBoss v in
      let possibleItemRooms :=
        filter (fun key : string => key <> "0,0" /\ key <> bossId) v.*1 in
      let '(itemRoomId, k) :=
        if bool_decide (0 < length possibleItemRooms)%nat
        then (default "" (zlookup possibleItemRooms
                (randomIndex (dr_random rnd k) (length possibleItemRooms))), S k)
        else ("", k) in
      Some (linkDoors (buildRooms rnd bossId itemRoomId k v))
  end.

(* ------------------------------------------------------------------ *)
(** ** The session state and one animation frame *)

(** What the component keeps between frames: the [useState] values, which
    the refs read by the loop mirror at the start of every frame, and
    [lastShotTimeRef]. *)
Record Session := mkSession {
  gameState : GameState;
  player : Entity;
  rooms : list Room;
  currentRoomIndex : nat;
  projectiles : list Projectile;
  lastShotTime : Z
}.

(** What one call of [update] reads from outside: the elapsed time, the
    clock (the readings of [Date.now()] within one frame are taken to be
    equal; they feed the shot timer and fresh ids only), the keys held,
    the two joystick vectors, the successive results of [Math.random()],
    and the host's printing of a number inside a template literal. *)
Record Frame := mkFrame {
  dt : number;
  now : Z;
  keysPressed : gset string;
  moveInput : Vector2;
  shootInput : Vector2;
  random : nat -> number;
  numberToString : number -> string
}.

Definition keyDown (f : Frame) (k : string) : bool := bool_decide (k ∈ keysPressed f).

(** *** 1. Player movement *)

(** Joystick vector plus WASD, before normalisation. *)
Definition combinedInput (f : Frame) : number * number :=
  let dx := x (moveInput f) in
  let dy := y (moveInput f) in
  let dy := if keyDown f "KeyW" then dy - 1 else dy in
  let dy := if keyDown f "KeyS" then dy + 1 else dy in
  let dx := if keyDown f "KeyA" then dx - 1 else dx in
  let dx := if keyDown f "KeyD" then dx + 1 else dx in
  (dx, dy).

Definition moveVector (f : Frame) : number * number :=
  let '(dx, dy) := combinedInput f in
  let len := sqrt (dx * dx + dy * dy) in
  if bool_decide (len > 1) then (dx / len, dy / len)
  else if bool_decide (len < 0.1) then (0, 0)
  else (dx, dy).

Definition wallThickness : number := 50.
Definition doorHalfWidth : number := 60.

Definition isRoomCleared (r : Room) : bool :=
  cleared r || forallb (fun e : Entity => negb (isActive e)) (enemies r).

(** "Clamp Player unless entering door". *)
Definition clampPlayer (playerState : Entity) (currentRoom : Room)
    (nextX nextY : number) : number * number :=
  let minSafe := wallThickness + size playerState / 2 in
  let maxSafeX := CANVAS_WIDTH - minSafe in
  let maxSafeY := CANVAS_HEIGHT - minSafe in
  let roomCleared := isRoomCleared currentRoom in
  let inVerticalDoorZone := bool_decide (Rabs (nextX - CANVAS_WIDTH / 2) < doorHalfWidth) in
  let inHorizontalDoorZone := bool_decide (Rabs (nextY - CANVAS_HEIGHT / 2) < doorHalfWidth) in
  let nextY :=
    if bool_decide (nextY < minSafe)
       && (negb roomCleared || negb (hasDoor currentRoom UP) || negb inVerticalDoorZone)
    then minSafe else nextY in
  let nextY :=
    if bool_decide (nextY > maxSafeY)
       && (negb roomCleared || negb (hasDoor currentRoom DOWN) || negb inVerticalDoorZone)
    then maxSafeY else nextY in
  let nextX :=
    if bool_decide (nextX < minSafe)
       && (negb roomCleared || negb (hasDoor currentRoom LEFT) || negb inHorizontalDoorZone)
    then minSafe else nextX in
  let nextX :=
    if bool_decide (nextX > maxSafeX)
       && (negb roomCleared || negb (hasDoor currentRoom RIGHT) || negb inHorizontalDoorZone)
    then maxSafeX else nextX in
  (nextX, nextY).

(** *** 2. Shooting *)

Definition fireRate : Z := 400.

Definition playerShot (playerState : Entity) (t : Z) (px py : number)
    (idx : nat) (angle : number) : Projectile :=
  let hasPiercing := bool_decide (PIERCING ∈ modifiers playerState) in
  let hasBigTears := bool_decide (BIG_TEARS ∈ modifiers playerState) in
  {| projectileEntity :=
       {| id := "p-" +:+ showZ t +:+ "-" +:+ showZ (Z.of_nat idx);
          type := PROJECTILE; position := mkVector2 px py;
          velocity := mkVector2 (cos angle * PROJECTILE_SPEED) (sin angle * PROJECTILE_SPEED);
          size := if hasBigTears then PROJECTILE_SIZE * 2.2 else PROJECTILE_SIZE;
          color := "blue"; health := 1; maxHealth := 1;
          damage := damage playerState; speed := PROJECTILE_SPEED;
          isActive := true; modifiers := []; facing := None;
          variant := None; attackCooldown := None |};
     owner := ByPlayer; piercing := hasPiercing; hitIds := [] |}.

(** Arrow keys override one component of the shoot joystick. *)
Definition aim (f : Frame) : number * number :=
  let sx := x (shootInput f) in
  let sy := y (shootInput f) in
  if keyDown f "ArrowUp" then (sx, -1)
  else if keyDown f "ArrowDown" then (sx, 1)
  else if keyDown f "ArrowLeft" then (-1, sy)
  else if keyDown f "ArrowRight" then (1, sy)
  else (sx, sy).

(** The projectiles pushed this frame and the new [lastShotTimeRef]. *)
Definition shoot (f : Frame) (playerState : Entity) (lastShot : Z)
    (nextX nextY : number) : list Projectile * Z :=
  if bool_decide (now f - lastShot > fireRate)%Z then
    let '(sx, sy) := aim f in
    let shotMag := sqrt (sx * sx + sy * sy) in
    if bool_decide (shotMag > 0.4) then
      let baseAngle := Math_atan2 sy sx in
      let hasTriple := bool_decide (TRIPLE_SHOT ∈ modifiers playerState) in
      let angles :=
        if hasTriple then [baseAngle - 0.25; baseAngle; baseAngle + 0.25]
        else [baseAngle] in
      (imap (playerShot playerState (now f) nextX nextY) angles, now f)
    else ([], lastShot)
  else ([], lastShot).

(** *** 3. Enemies *)

(** The locals of the [map] callback that the projectile loop updates:
    [enemy.health], [eX], [eY]. *)
Record HitState := mkHitState {
  hs_health : number;
  hs_eX : number;
  hs_eY : number
}.

Definition proj_pushHitId (p : Projectile) (enemyId : string) : Projectile :=
  mkProjectile p (owner p) (piercing p) (hitIds p ++ [enemyId]).
Definition proj_deactivate (p : Projectile) : Projectile :=
  mkProjectile (with_isActive p false) (owner p) (piercing p) (hitIds p).

(** The body of [nextProjectiles.forEach(proj => ...)] for one projectile.
    The boolean is bookkeeping of the embedding: [true] exactly when the
    branch that damages the enemy ran. *)
Definition strike (enemy : Entity) (vx vy : number) (hs : HitState)
    (proj : Projectile) : HitState * Projectile * bool :=
  if isActive proj && bool_decide (owner proj = ByPlayer) then
    if piercing proj && bool_decide (id enemy ∈ hitIds proj) then (hs, proj, false)
    else if checkCollision proj
              (with_position enemy (mkVector2 (hs_eX hs) (hs_eY hs))) then
      let h := hs_health hs - damage proj in
      let proj' :=
        if piercing proj then proj_pushHitId proj (id enemy)
        else proj_deactivate proj in
      let hs' :=
        if negb (bool_decide (variant enemy = Some TANK))
           && negb (bool_decide (type enemy = BOSS))
        then mkHitState h (hs_eX hs - vx * 6) (hs_eY hs - vy * 6)
        else mkHitState h (hs_eX hs) (hs_eY hs) in
      (hs', proj', true)
    else (hs, proj, false)
  else (hs, proj, false).

Fixpoint hitLoop (enemy : Entity) (vx vy : number) (hs : HitState)
    (ps : list Projectile) : HitState * list Projectile * list bool :=
  match ps with
  | [] => (hs, [], [])
  | p :: ps' =>
      let '(hs1, p1, b) := strike enemy vx vy hs p in
      let '(hs2, ps2, bs) := hitLoop enemy vx vy hs1 ps' in
      (hs2, p1 :: ps2, b :: bs)
  end.

(** What the loop over the enemies carries from one enemy to the next:
    the projectile objects, the [playerHit] flag, the number of
    [Math.random()] calls so far, the [spawnItem] calls, whether
    [setGameState(VICTORY)] was called; and, as bookkeeping, one row of
    [strike] flags per enemy visited. *)
Record LoopState := mkLoopState {
  nextProjectiles : list Projectile;
  playerHit : bool;
  draws : nat;
  spawned : list Item;
  victory : bool;
  hitLog : list (list bool)
}.

(** What the AI branch decides for one enemy. *)
Record Behaviour := mkBehaviour {
  b_vx : number;
  b_vy : number;
  b_cooldown : number;
  b_shots : list Projectile;
  b_draws : nat
}.

Section EnemyLoop.
Variable f : Frame.
Variable playerState : Entity.
Variable currentRoom : Room.
Variables nextX nextY : number.

(** [spawnItem(roomIndex, px, py)]: the item it builds, [k] being the
    index of its [Math.random()] call. *)
Definition spawnItem (k : nat) (px py : number) : Item :=
  let t := randomItemType (random f k) in
  makeItem ("item-" +:+ showZ (now f)) t px py
    (itemLabels "Mystery Loot" "" t) "Loading rizz...".

Definition enemyShot (enemy : Entity) (angle : number) (k : nat) : Projectile :=
  {| projectileEntity :=
       {| id := "ep-" +:+ showZ (now f) +:+ "-" +:+ numberToString f (random f k);
          type := PROJECTILE;
          position := mkVector2 (x (position enemy)) (y (position enemy));
          velocity := mkVector2 (cos angle * 4) (sin angle * 4);
          size := PROJECTILE_SIZE; color := "red"; health := 1; maxHealth := 1;
          damage := 1; speed := 4; isActive := true; modifiers := [];
          facing := None; variant := None; attackCooldown := None |};
     owner := ByEnemy; piercing := false; hitIds := [] |}.

(** "AI BEHAVIOR": [cd] is the cooldown after the decay by [dt], [k] the
    number of [Math.random()] calls so far. *)
Definition enemyBehaviour (enemy : Entity) (cd : number) (k : nat) : Behaviour :=
  let dx := nextX - x (position enemy) in
  let dy := nextY - y (position enemy) in
  let dist := sqrt (dx * dx + dy * dy) in
  let moveSpeed := speed enemy in
  if bool_decide (variant enemy = Some SHOOTER) then
    let '(vx, vy) :=
      if bool_decide (dist > 250) then (dx / dist * moveSpeed, dy / dist * moveSpeed)
      else if bool_decide (dist < 150)
      then (- (dx / dist) * moveSpeed, - (dy / dist) * moveSpeed)
      else (0, 0) in
    if bool_decide (cd <= 0)
    then mkBehaviour vx vy 2000 [enemyShot enemy (Math_atan2 dy dx) k] (S k)
    else mkBehaviour vx vy cd [] k
  else if bool_decide (variant enemy = Some DASHER) then
    let cd := if bool_decide (cd <= 0) then 2500 else cd in
    let '(vx, vy) :=
      if bool_decide (cd > 600) then (dx / dist * moveSpeed, dy / dist * moveSpeed)
      else if bool_decide (cd > 200) then (0, 0)
      else (dx / dist * (moveSpeed * 4), dy / dist * (moveSpeed * 4)) in
    mkBehaviour vx vy cd [] k
  else
    let '(vx, vy) :=
      if bool_decide (dist > 5) then (dx / dist * moveSpeed, dy / dist * moveSpeed)
      else (0, 0) in
    mkBehaviour vx vy cd [] k.

(** "Wall collisions for enemies (keep them in bounds)". *)
Definition clampEnemy (eX eY : number) : number * number :=
  let eX := if bool_decide (eX < 50) then 50 else eX in
  let eX := if bool_decide (eX > CANVAS_WIDTH - 50) then CANVAS_WIDTH - 50 else eX in
  let eY := if bool_decide (eY < 50) then 50 else eY in
  let eY := if bool_decide (eY > CANVAS_HEIGHT - 50) then CANVAS_HEIGHT - 50 else eY in
  (eX, eY).

(** The callback of [roomEnemies.map] for one enemy.  It yields the
    loop state, the enemy object as the writes to [attackCooldown],
    [health] and [isActive] leave it (the room still references that
    object), and the value returned to [map]. *)
Definition stepEnemy (st : LoopState) (enemy : Entity)
  : LoopState * Entity * Entity :=
  if negb (isActive enemy) then
    (mkLoopState (nextProjectiles st) (playerHit st) (draws st) (spawned st)
       (victory st) (hitLog st ++ [[]]), enemy, enemy)
  else
    let cd := default 0 (attackCooldown enemy) - dt f in
    let b := enemyBehaviour enemy cd (draws st) in
    let vx := b_vx b in
    let vy := b_vy b in
    let enemyFacing := getFacingFromVelocity vx vy (facing enemy) in
    let '(eX, eY) :=
      clampEnemy (x (position enemy) + vx) (y (position enemy) + vy) in
    let contact :=
      checkCollision (with_position playerState (mkVector2 nextX nextY))
        (with_position enemy (mkVector2 eX eY)) in
    let '(hs, projs, row) :=
      hitLoop enemy vx vy (mkHitState (health enemy) eX eY)
        (nextProjectiles st ++ b_shots b) in
    let dead := bool_decide (hs_health hs <= 0) in
    let k := b_draws b in
    let rolled := dead && negb (isBossRoom currentRoom) && negb (isItemRoom currentRoom) in
    let drop := rolled && bool_decide (random f k > 0.75) in
    let k := if rolled then S k else k in
    let drops := if drop then [spawnItem k (hs_eX hs) (hs_eY hs)] else [] in
    let k := if drop then S k else k in
    let bossDown := dead && isBossRoom currentRoom in
    let reward :=
      if bossDown then [spawnItem k (CANVAS_WIDTH / 2) (CANVAS_HEIGHT / 2)] else [] in
    let k := if bossDown then S k else k in
    let written :=
      with_isActive
        (with_health (with_attackCooldown enemy (Some (b_cooldown b))) (hs_health hs))
        (if dead then false else isActive enemy) in
    let returned :=
      with_facing (with_position written (mkVector2 (hs_eX hs) (hs_eY hs)))
        enemyFacing in
    (mkLoopState projs (playerHit st || contact) k
       (spawned st ++ drops ++ reward) (victory st || bossDown)
       (hitLog st ++ [row]), written, returned).

(** [roomEnemies.map(...)]: the final loop state, the enemy objects
    after the writes, and the mapped array. *)
Fixpoint enemiesLoop (st : LoopState) (es : list Entity)
  : LoopState * list Entity * list Entity :=
  match es with
  | [] => (st, [], [])
  | e :: es' =>
      let '(st1, w, r) := stepEnemy st e in
      let '(st2, ws, rs) := enemiesLoop st1 es' in
      (st2, w :: ws, r :: rs)
  end.

End EnemyLoop.

(** *** Projectiles, pickups, damage, room switching, commit *)

(** [{...p, position: p.position + p.velocity}]. *)
Definition advance (p : Projectile) : Projectile :=
  mkProjectile
    (with_position p (mkVector2 (x (position p) + x (velocity p))
                                (y (position p) + y (velocity p))))
    (owner p) (piercing p) (hitIds p).

Definition inBounds (p : Projectile) : bool :=
  isActive p
  && bool_decide (x (position p) > 0) && bool_decide (x (position p) < CANVAS_WIDTH)
  && bool_decide (y (position p) > 0) && bool_decide (y (position p) < CANVAS_HEIGHT).

(** An in-bounds enemy projectile that overlaps the player. *)
Definition hitsPlayer (playerAt : Entity) (p : Projectile) : bool :=
  inBounds p && bool_decide (owner p = ByEnemy) && checkCollision p playerAt.

(** The [filter] callback: keep what is in bounds and did not hit the player. *)
Definition keepProjectile (playerAt : Entity) (p : Projectile) : bool :=
  inBounds p && negb (bool_decide (owner p = ByEnemy) && checkCollision p playerAt).

Definition pickedUp (playerAt : Entity) (it : Item) : bool :=
  isActive it && checkCollision playerAt it.

(** "4. Room Switching": target grid cell and entry point, when a door
    edge is crossed. *)
Definition roomSwitch (currentRoom : Room) (nextX nextY : number)
  : option (Z * Z * number * number) :=
  if bool_decide (nextY < 20) && hasDoor currentRoom UP then
    Some (gridX currentRoom, (gridY currentRoom - 1)%Z, CANVAS_WIDTH / 2, CANVAS_HEIGHT - 80)
  else if bool_decide (nextY > CANVAS_HEIGHT - 20) && hasDoor currentRoom DOWN then
    Some (gridX currentRoom, (gridY currentRoom + 1)%Z, CANVAS_WIDTH / 2, 80)
  else if bool_decide (nextX < 20) && hasDoor currentRoom LEFT then
    Some ((gridX currentRoom - 1)%Z, gridY currentRoom, CANVAS_WIDTH - 80, CANVAS_HEIGHT / 2)
  else if bool_decide (nextX > CANVAS_WIDTH - 20) && hasDoor currentRoom RIGHT then
    Some ((gridX currentRoom + 1)%Z, gridY currentRoom, 80, CANVAS_HEIGHT / 2)
  else None.

(** [newRooms.findIndex(r => r.gridX === gx && r.gridY === gy)]; [None] is -1. *)
Definition findRoomIndex (rs : list Room) (gx gy : Z) : option nat :=
  fst <$> list_find (fun r : Room => gridX r = gx /\ gridY r = gy) rs.

(** The part of [update] after the loop over the enemies: projectiles
    advance, items are picked up, damage is applied, the room is switched
    and the new state is written.

    State setters are applied the way React queues them: updater
    functions run in call order on the latest value, a plain value
    replaces it; so the item pushes of [spawnItem] land in the items array
    the room holds when the frame ends, the pickups of [handleItemPickup]
    are applied to the player before the position written at the end, and
    of several [setGameState] calls the last one stands.  A write to a
    field of a room, enemy, item or projectile object is visible in the
    next frame whether or not a setter was called, since the stored arrays
    hold those very objects. *)
Definition commit (f : Frame) (s : Session) (currentRoom : Room)
    (nextFacing : option number) (nextX nextY : number) (lastShot : Z)
    (st : LoopState) (written roomEnemies : list Entity) : Session :=
  let playerState := player s in
  let roomCleared := isRoomCleared currentRoom in
  let playerAt := with_position playerState (mkVector2 nextX nextY) in
  (* Move Projectiles & Check Enemy Projectiles vs Player *)
  let moved := map advance (nextProjectiles st) in
  let nextProjs := filter (fun p => keepProjectile playerAt p) moved in
  let hit := playerHit st || existsb (hitsPlayer playerAt) moved in
  (* Item Pickup *)
  let picked := filter (fun it => pickedUp playerAt it) (items currentRoom) in
  let roomItems :=
    map (fun it => if pickedUp playerAt it then item_deactivate it else it)
      (items currentRoom) in
  (* Apply Player Damage *)
  let damaged := hit && bool_decide (random f (draws st) < 0.05) in
  let nextPlayerHealth :=
    if damaged then health playerState - 1 else health playerState in
  let gameOver := damaged && bool_decide (nextPlayerHealth <= 0) in
  let gs :=
    if gameOver then GAME_OVER
    else if negb (bool_decide (picked = [])) then ITEM_PICKUP_ANIMATION
    else if victory st then VICTORY
    else gameState s in
  let pickedPlayer := fold_left (fun p it => handleItemPickup it p) picked (player s) in
  (* the stored projectile objects, as the writes of the hit loop left them *)
  let stored := take (length (projectiles s)) (nextProjectiles st) in
  let cur := currentRoomIndex s in
  (* 4. Room Switching, 5. Sync State *)
  match roomSwitch currentRoom nextX nextY with
  | Some (nextGridX, nextGridY, spawnX, spawnY) =>
      if roomCleared then
        let room' :=
          with_cleared
            (with_items (with_enemies currentRoom written) (roomItems ++ spawned st))
            true in
        let newRooms := <[cur := room']> (rooms s) in
        match findRoomIndex newRooms nextGridX nextGridY with
        | Some nextRoomIndex =>
            mkSession gs (with_position pickedPlayer (mkVector2 spawnX spawnY))
              newRooms nextRoomIndex [] lastShot
        | None => mkSession gs pickedPlayer newRooms cur stored lastShot
        end
      else
        let room' :=
          with_items (with_enemies currentRoom written) (roomItems ++ spawned st) in
        mkSession gs
          (with_health (with_position pickedPlayer (mkVector2 nextX nextY))
             nextPlayerHealth)
          (<[cur := room']> (rooms s)) cur stored lastShot
  | None =>
      let room' :=
        with_cleared
          (with_items (with_enemies currentRoom roomEnemies) (roomItems ++ spawned st))
          (if forallb (fun e : Entity => negb (isActive e)) roomEnemies
           then true else cleared currentRoom) in
      mkSession gs
        (with_facing
           (with_health (with_position pickedPlayer (mkVector2 nextX nextY))
              nextPlayerHealth)
           nextFacing)
        (<[cur := room']> (rooms s)) cur nextProjs lastShot
  end.

(** [update(dt)]. *)
Definition update (f : Frame) (s : Session) : Session :=
  if negb (bool_decide (gameState s = PLAYING)) then s else
  match rooms s !! currentRoomIndex s with
  | None => s
  | Some currentRoom =>
      let playerState := player s in
      (* 1. Player Movement & Collision *)
      let '(dx, dy) := moveVector f in
      let nextFacing := getFacingFromVelocity dx dy (facing playerState) in
      let '(nextX, nextY) :=
        clampPlayer playerState currentRoom
          (x (position playerState) + dx * speed playerState)
          (y (position playerState) + dy * speed playerState) in
      (* 2. Shooting Logic *)
      let '(shots, lastShot) := shoot f playerState (lastShotTime s) nextX nextY in
      (* 3. Entity Logic (Enemies) *)
      let '(st, written, roomEnemies) :=
        enemiesLoop f playerState currentRoom nextX nextY
          (mkLoopState (projectiles s ++ shots) false 0 [] false [])
          (enemies currentRoom) in
      commit f s currentRoom nextFacing nextX nextY lastShot st written roomEnemies
  end.

(** What can happen to a session during a run: an animation frame, or the
    timer armed by [handleItemPickup] firing ([setGameState(PLAYING)]). *)
Inductive Event :=
  | Tick (f : Frame)
  | PickupTimeout.

Definition handle (s : Session) (ev : Event) : Session :=
  match ev with
  | Tick f => update f s
  | PickupTimeout =>
      mkSession PLAYING (player s) (rooms s) (currentRoomIndex s)
        (projectiles s) (lastShotTime s)
  end.

Definition run (s : Session) (evs : list Event) : Session := fold_left handle evs s.

(* ------------------------------------------------------------------ *)
(** ** Vocabulary of the properties, and sample inputs *)

(** The Euclidean distance, stated without the square root: the
    non-negative number whose square is the sum of the squared
    coordinate differences. *)
Definition isEuclideanDistance (p q : Vector2) (d : R) : Prop :=
  0 <= d /\ d * d = (x p - x q) * (x p - x q) + (y p - y q) * (y p - y q).

(** Some room of [rs] sits at grid cell [(gx, gy)]. *)
Definition roomAt (rs : list Room) (gx gy : Z) : Prop :=
  exists n, n ∈ rs /\ gridX n = gx /\ gridY n = gy.

(** The grid cell next to [r] in direction [d]. *)
Definition neighbourX (r : Room) (d : Direction) : Z := (gridX r + (dirDelta d).1)%Z.
Definition neighbourY (r : Room) (d : Direction) : Z := (gridY r + (dirDelta d).2)%Z.

(** A run of the generator in which every [Math.random()] returns 0 and
    every sort leaves the directions in their first order. *)
Definition zeroRandom : DungeonRandom := mkDungeonRandom (fun _ => 0) (fun _ => 0%nat).

(** A frame with nothing pressed and the move stick at [(mx, my)]. *)
Definition stickFrame (mx my : number) : Frame :=
  {| dt := 16; now := 0; keysPressed := ∅;
     moveInput := mkVector2 mx my; shootInput := mkVector2 0 0;
     random := fun _ => 0.5; numberToString := fun _ => "0.5" |}.

(** The start room of a dungeon of one room. *)
Definition startRoom : Room :=
  {| room_id := "0,0"; gridX := 0; gridY := 0; cleared := true;
     enemies := []; items := []; doors := ∅;
     isBossRoom := false; isItemRoom := false |}.

(** A session as [startGame] leaves it, on a one-room dungeon. *)
Definition freshSession : Session :=
  {| gameState := PLAYING; player := createPlayer; rooms := [startRoom];
     currentRoomIndex := 0; projectiles := []; lastShotTime := 0 |}.

(** A basic enemy with the stats [generateDungeon] gives at distance 0,
    placed at [(px, py)]. *)
Definition gruntNamed (enemyId : string) (px py : number) : Entity :=
  {| id := enemyId; type := ENEMY; position := mkVector2 px py;
     velocity := mkVector2 0 0; size := ENEMY_SIZE; color := "red";
     health := 10; maxHealth := 10; damage := 1; speed := ENEMY_SPEED;
     isActive := true; modifiers := []; facing := Some 0;
     variant := Some BASIC; attackCooldown := Some 0 |}.

Definition grunt (px py : number) : Entity := gruntNamed "enemy-1,0-0" px py.

(** A room whose only enemy is dead, not yet flagged cleared, with a door
    upwards that leads nowhere: no room sits at grid cell (0, -1). *)
Definition deadEndRoom : Room :=
  {| room_id := "0,0"; gridX := 0; gridY := 0; cleared := false;
     enemies := [with_isActive (grunt 300 300) false]; items := [];
     doors := {[ UP := true ]};
     isBossRoom := false; isItemRoom := false |}.

(** The player inside the upper door zone, one step from the edge. *)
Definition atTopDoor : Session :=
  {| gameState := PLAYING;
     player := with_position createPlayer (mkVector2 400 22);
     rooms := [deadEndRoom]; currentRoomIndex := 0;
     projectiles := []; lastShotTime := 0 |}.

(** A tear of the starting player (damage 3.5, not piercing) at [(px, py)],
    flying left. *)
Definition tear (px py : number) : Projectile :=
  {| projectileEntity :=
       {| id := "p-0-0"; type := PROJECTILE; position := mkVector2 px py;
          velocity := mkVector2 (-7) 0; size := PROJECTILE_SIZE; color := "blue";
          health := 1; maxHealth := 1; damage := 3.5; speed := PROJECTILE_SPEED;
          isActive := true; modifiers := []; facing := None;
          variant := None; attackCooldown := None |};
     owner := ByPlayer; piercing := false; hitIds := [] |}.

(** The same tear with the PIERCING modifier. *)
Definition piercingTear (px py : number) : Projectile :=
  mkProjectile (tear px py) ByPlayer true [].

(** Two basic enemies on top of the player at the room centre, close
    enough to stand still, and a piercing tear overlapping both. *)
Definition crowd : list Entity :=
  [gruntNamed "enemy-1,0-0" 400 300; gruntNamed "enemy-1,0-1" 403 300].

(** A room with one basic enemy two pixels from the left bound, walking
    toward the player at the room centre, and a tear about to hit it. *)
Definition fightRoom : Room :=
  {| room_id := "1,0"; gridX := 1; gridY := 0; cleared := false;
     enemies := [grunt 52 300]; items := []; doors := ∅;
     isBossRoom := false; isItemRoom := false |}.

Definition wallFight : Session :=
  {| gameState := PLAYING; player := createPlayer; rooms := [fightRoom];
     currentRoomIndex := 0; projectiles := [tear 53.5 300]; lastShotTime := 0 |}.

(** Reading the bookkeeping of the enemy loop.  [struckIds k es log]: the
    ids of the enemies of [es], in loop order, whose row of [log] has the
    flag of projectile slot [k] set, i.e. the enemies that projectile
    damaged.  [damageDealt row ps]: the summed damage of the projectiles
    of [ps] whose flag is set in [row], i.e. what one enemy received. *)
Fixpoint struckIds (k : nat) (es : list Entity) (log : list (list bool)) : list string :=
  match es, log with
  | e :: es', row :: log' =>
      (if nth k row false then [id e] else []) ++ struckIds k es' log'
  | _, _ => []
  end.

Fixpoint damageDealt (row : list bool) (ps : list Projectile) : number :=
  match row, ps with
  | b :: row', p :: ps' => (if b then damage p else 0) + damageDealt row' ps'
  | _, _ => 0
  end.

(** What one pass of the projectile loop may do to a projectile, [hit]
    telling whether it damaged the enemy [enemyId]. *)
Definition projectileAfter (enemyId : string) (hit : bool) (p p' : Projectile) : Prop :=
  if hit then
    owner p = ByPlayer /\ isActive p = true
    /\ owner p' = ByPlayer /\ piercing p' = piercing p /\ damage p' = damage p
    /\ (if piercing p
        then (enemyId ∉ hitIds p) /\ hitIds p' = hitIds p ++ [enemyId] /\ isActive p' = true
        else hitIds p' = hitIds p /\ isActive p' = false)
  else p' = p.

(** What the whole enemy loop did to one projectile, [struck] being the
    ids of the enemies it damaged, in order: a piercing projectile has
    exactly those ids appended to its ledger, none of them twice and none
    that the ledger already held, and keeps its [isActive]; a projectile
    that does not pierce damaged at most one enemy and is inactive as soon
    as it damaged one. *)
Definition projectileSummary (p p' : Projectile) (struck : list string) : Prop :=
  damage p' = damage p /\ owner p' = owner p /\ piercing p' = piercing p
  /\ (struck <> [] -> owner p = ByPlayer /\ isActive p = true)
  /\ (piercing p = true ->
        hitIds p' = hitIds p ++ struck /\ isActive p' = isActive p
        /\ NoDup struck /\ (forall i, i ∈ struck -> i ∉ hitIds p))
  /\ (piercing p = false ->
        (length struck <= 1)%nat /\ hitIds p' = hitIds p
        /\ isActive p' = isActive p && bool_decide (struck = [])).

(** What "the projectile hits the enemy" means in the projectile loop,
    for the enemy standing at [(eX, eY)] and the projectile as it is at
    that moment: it is active and player-owned, it is not a piercing
    projectile that already has the enemy in its ledger, and the two
    overlap. *)
Definition canHit (enemy : Entity) (eX eY : number) (proj : Projectile) : bool :=
  isActive proj && bool_decide (owner proj = ByPlayer)
  && negb (piercing proj && bool_decide (id enemy ∈ hitIds proj))
  && checkCollision proj (with_position enemy (mkVector2 eX eY)).

(** The number of hits an enemy took from the projectiles in the slots
    before [k], read from its row of the log. *)
Fixpoint hitsBefore (row : list bool) (k : nat) : nat :=
  match k, row with
  | S k', b :: row' => (if b then 1 else 0)%nat + hitsBefore row' k'
  | _, _ => 0%nat
  end.

(** A coordinate of an enemy after [n] knockbacks of [v * 6] each; tanks
    and the boss are not knocked back. *)
Definition pushedBack (enemy : Entity) (v e : number) (n : nat) : number :=
  if negb (bool_decide (variant enemy = Some TANK))
     && negb (bool_decide (type enemy = BOSS))
  then Nat.iter n (fun c => c - v * 6) e
  else e.

(** A projectile after it has damaged the enemies [ids], in that order:
    a piercing one has them appended to its ledger, one that does not
    pierce is deactivated by the first. *)
Definition struckBy (p : Projectile) (ids : list string) : Projectile :=
  if piercing p then mkProjectile p (owner p) (piercing p) (hitIds p ++ ids)
  else if bool_decide (ids = []) then p
  else proj_deactivate p.

(** The step an active enemy takes in a frame and where the step and the
    wall clamp leave it, before any projectile is tested against it. *)
Definition enemyVelocity (f : Frame) (nextX nextY : number) (e : Entity)
  : number * number :=
  let b := enemyBehaviour f nextX nextY e (default 0 (attackCooldown e) - dt f) 0 in
  (b_vx b, b_vy b).

Definition enemyStart (f : Frame) (nextX nextY : number) (e : Entity)
  : number * number :=
  clampEnemy (x (position e) + (enemyVelocity f nextX nextY e).1)
             (y (position e) + (enemyVelocity f nextX nextY e).2).


(** A cleared room with a HEALTH item lying at the room centre, and a
    wounded player (3 of 6 health) standing on it. *)
Definition lunch : Item :=
  makeItem "item-0" HEALTH 400 300 ("Lunchly Meal", "Health Up + Full Heal")
    "Loading rizz...".

Definition lootRoom : Room := with_items startRoom [lunch].

Definition woundedSession : Session :=
  {| gameState := PLAYING;
     player := with_position (with_health createPlayer 3) (mkVector2 400 300);
     rooms := [lootRoom]; currentRoomIndex := 0; projectiles := []; lastShotTime := 0 |}.

(* ------------------------------------------------------------------ *)
(** ** The joystick, the key handlers, the HUD, the 3D view and [startGame] *)

(** [RADIUS] of the Joystick component. *)
Definition RADIUS : number := 40.

(** [updatePosition(clientX, clientY)] of the Joystick, for a container
    whose bounding rectangle has the given left/top corner and size (the
    early return on a missing container aside): the knob position handed
    to [setPosition] and the vector handed to [onMove]. *)
Definition updatePosition (left top width height clientX clientY : number)
  : Vector2 * Vector2 :=
  let centerX := left + width / 2 in
  let centerY := top + height / 2 in
  let dx := clientX - centerX in
  let dy := clientY - centerY in
  let distance := sqrt (dx * dx + dy * dy) in
  let '(kx, ky) :=
    if bool_decide (distance > RADIUS)
    then (dx / distance * RADIUS, dy / distance * RADIUS)
    else (dx, dy) in
  let inputX := Rmax (-1) (Rmin 1 (dx / RADIUS)) in
  let inputY := Rmax (-1) (Rmin 1 (dy / RADIUS)) in
  (mkVector2 kx ky, mkVector2 inputX inputY).

(** [handleKeyDown] and [handleKeyUp]: the next set of pressed keys. *)
Definition handleKeyDown (key : string) (prev : gset string) : gset string :=
  prev ∪ {[ key ]}.
Definition handleKeyUp (key : string) (prev : gset string) : gset string :=
  prev ∖ {[ key ]}.

#[global] Instance Req_decision : EqDecision R := Req_dec_T.

(** The three glyphs of the HUD's health row. *)
Inductive Heart := FullHeart | HalfHeart | EmptyHeart.

(** The callback of the HUD's heart row for index [i]. *)
Definition heartAt (health : number) (i : nat) : Heart :=
  let heartValue := (INR i + 1) * 2 in
  if bool_decide (heartValue <= health) then FullHeart
  else if bool_decide (health = heartValue - 1) then HalfHeart
  else EmptyHeart.

(** [Math.ceil]. *)
Definition Math_ceil (r : number) : Z := (- Int_part (- r))%Z.

(** [Array.from({ length: Math.ceil(maxHealth / 2) }).map(...)]. *)
Definition hearts (health maxHealth : number) : list Heart :=
  map (heartAt health) (seq 0 (Z.to_nat (Math_ceil (maxHealth / 2)))).

(** Health units a glyph stands for ("1 Heart = 2 HP units"). *)
Definition heartUnits (h : Heart) : Z :=
  match h with FullHeart => 2 | HalfHeart => 1 | EmptyHeart => 0 end.

(** [ROOM_WIDTH], [ROOM_HEIGHT] and [to3D] of the 3D renderer. *)
Definition ROOM_WIDTH : number := 13.
Definition ROOM_HEIGHT : number := 9.

Definition to3D (px py : number) : number * number * number :=
  let x3d := px / CANVAS_WIDTH * ROOM_WIDTH - ROOM_WIDTH / 2 in
  let z3d := py / CANVAS_HEIGHT * ROOM_HEIGHT - ROOM_HEIGHT / 2 in
  (x3d, 0, z3d).

(** [startGame]: the session it sets up from a run of the generator
    ([None] when the generator does not return). *)
Definition startGame (fuel : nat) (rnd : DungeonRandom) : option Session :=
  match generateDungeon fuel rnd 15 with
  | None => None
  | Some dungeon => Some (mkSession PLAYING createPlayer dungeon 0 [] 0)
  end.

(** Health units a row of hearts shows. *)
Definition shownHealth (hs : list Heart) : Z :=
  foldr (fun h acc => (heartUnits h + acc)%Z) 0%Z hs.

(** A frame with W and S held and the move stick at [(mx, my)]. *)
Definition tugOfWarFrame (mx my : number) : Frame :=
  {| dt := 16; now := 0; keysPressed := {[ "KeyW"; "KeyS" ]};
     moveInput := mkVector2 mx my; shootInput := mkVector2 0 0;
     random := fun _ => 0.5; numberToString := fun _ => "0.5" |}.

(* ------------------------------------------------------------------ *)
(** ** Further vocabulary and sample inputs *)

(** Where the player is put after walking through the door in direction
    [d]: the four entry points of "4. Room Switching". *)
Definition entryPoint (d : Direction) : Vector2 :=
  match d with
  | UP => mkVector2 (CANVAS_WIDTH / 2) (CANVAS_HEIGHT - 80)
  | DOWN => mkVector2 (CANVAS_WIDTH / 2) 80
  | LEFT => mkVector2 (CANVAS_WIDTH - 80) (CANVAS_HEIGHT / 2)
  | RIGHT => mkVector2 80 (CANVAS_HEIGHT / 2)
  end.

(** [deadEndRoom] with a room behind its upper door. *)
Definition upperRoom : Room :=
  {| room_id := "0,-1"; gridX := 0; gridY := -1; cleared := false;
     enemies := [grunt 300 300]; items := [];
     doors := {[ DOWN := true ]};
     isBossRoom := false; isItemRoom := false |}.

Definition atOpenDoor : Session :=
  {| gameState := PLAYING;
     player := with_position createPlayer (mkVector2 400 22);
     rooms := [deadEndRoom; upperRoom]; currentRoomIndex := 0;
     projectiles := []; lastShotTime := 0 |}.

(** What a frame may do to an enemy object: identity and stats stay,
    and an enemy that is inactive is left exactly as it is. *)
Definition sameEnemy (e e' : Entity) : Prop :=
  id e' = id e /\ type e' = type e /\ variant e' = variant e
  /\ size e' = size e /\ speed e' = speed e /\ damage e' = damage e
  /\ maxHealth e' = maxHealth e
  /\ (isActive e = false -> e' = e).

(** What never changes about a room. *)
Definition sameLayout (r r' : Room) : Prop :=
  room_id r' = room_id r /\ gridX r' = gridX r /\ gridY r' = gridY r
  /\ doors r' = doors r /\ isBossRoom r' = isBossRoom r
  /\ isItemRoom r' = isItemRoom r.

(** What a frame may do to an item object: nothing, or deactivate it. *)
Definition itemKept (it it' : Item) : Prop :=
  it' = it \/ it' = item_deactivate it.

(** How a stored room may differ from an earlier version of itself: same
    layout, the same enemies slot by slot, the same items slot by slot,
    possibly followed by items spawned since. *)
Definition roomEvolves (r r' : Room) : Prop :=
  sameLayout r r'
  /\ Forall2 sameEnemy (enemies r) (enemies r')
  /\ exists kept fresh, items r' = kept ++ fresh /\ Forall2 itemKept (items r) kept.

(** How the player object may differ from an earlier version of itself:
    identity and size stay, the stats that items raise do not fall, and
    modifiers are only appended. *)
Definition playerGrows (p p' : Entity) : Prop :=
  id p' = id p /\ type p' = type p /\ size p' = size p
  /\ maxHealth p <= maxHealth p' /\ damage p <= damage p' /\ speed p <= speed p'
  /\ modifiers p `prefix_of` modifiers p'.

(** Two grid cells one step apart. *)
Definition adjacent (a b : Z * Z) : Prop :=
  exists d, d ∈ dirs /\ b = (a.1 + d.1, a.2 + d.2)%Z.

(** The invariant of the growth loop of [generateDungeon]: the map starts
    with the origin, every key is the printed form of its cell, no key
    occurs twice, and every later cell is next to an earlier one. *)
Definition wellGrown (v : Visited) : Prop :=
  v !! 0%nat = Some ("0,0", (0, 0)%Z)
  /\ Forall (fun kv : string * (Z * Z) => kv.1 = coordKey kv.2.1 kv.2.2) v
  /\ NoDup v.*1
  /\ forall i kv, v !! i = Some kv -> (0 < i)%nat ->
       exists j pkv, (j < i)%nat /\ v !! j = Some pkv /\ adjacent pkv.2 kv.2.

(** Manhattan distance of a room from the start cell. *)
Definition manhattan (r : Room) : Z := (Z.abs (gridX r) + Z.abs (gridY r))%Z.

(** The three-room dungeon that [zeroRandom] produces. *)
Definition sampleDungeon : list Room :=
  linkDoors (buildRooms zeroRandom "0,-1" "0,1" 1
               [("0,0", (0, 0)); ("0,-1", (0, -1)); ("0,1", (0, 1))]%Z).

(** Manhattan distance of a cell of the [visited] map from the origin,
    as the boss-room search computes it. *)
Definition cellDist (kv : string * (Z * Z)) : Z := (Z.abs kv.2.1 + Z.abs kv.2.2)%Z.

(** A run of the generator that always extends the newest cell upwards:
    every [Math.random()] returns 0.99 and every sort leaves the
    directions in their first order. *)
Definition climbRandom : DungeonRandom :=
  mkDungeonRandom (fun _ => 0.99) (fun _ => 0%nat).

(** The frame [f] read with another set of pressed keys. *)
Definition withKeys (f : Frame) (keys : gset string) : Frame :=
  mkFrame (dt f) (now f) keys (moveInput f) (shootInput f) (random f)
    (numberToString f).

(** [q] is [p] one frame later: moved by its velocity, the same
    projectile otherwise (ledger and activity aside). *)
Definition flew (p q : Projectile) : Prop :=
  id q = id p /\ owner q = owner p /\ piercing q = piercing p
  /\ damage q = damage p /\ size q = size p /\ velocity q = velocity p
  /\ position q = mkVector2 (x (position p) + x (velocity p))
                            (y (position p) + y (velocity p)).

(** A room with the two enemies of [crowd], and the player in their
    midst with a piercing tear in flight. *)
Definition crowdRoom : Room :=
  {| room_id := "1,0"; gridX := 1; gridY := 0; cleared := false;
     enemies := crowd; items := []; doors := ∅;
     isBossRoom := false; isItemRoom := false |}.

Definition crowdFight : Session :=
  {| gameState := PLAYING; player := createPlayer; rooms := [crowdRoom];
     currentRoomIndex := 0; projectiles := [piercingTear 400 300]; lastShotTime := 0 |}.

(** A frame in which every [Math.random()] returns 0.9. *)
Definition luckyFrame : Frame :=
  {| dt := 16; now := 0; keysPressed := ∅;
     moveInput := mkVector2 0 0; shootInput := mkVector2 0 0;
     random := fun _ => 0.9; numberToString := fun _ => "0.9" |}.

(** A basic enemy on its last 3 health, standing on the player at the
    room centre, a tear on top of both; and a boss room and an item room
    to put it in. *)
Definition weakling : Entity := with_health (gruntNamed "enemy-1,0-0" 400 300) 3.

Definition bossArena : Room :=
  {| room_id := "0,-2"; gridX := 0; gridY := -2; cleared := false;
     enemies := [weakling]; items := []; doors := ∅;
     isBossRoom := true; isItemRoom := false |}.

Definition treasury : Room :=
  {| room_id := "1,1"; gridX := 1; gridY := 1; cleared := true;
     enemies := [weakling]; items := []; doors := ∅;
     isBossRoom := false; isItemRoom := true |}.

(* ------------------------------------------------------------------ *)
(** ** Proof automation *)

(** Case analysis of [update]: names every intermediate value of the
    frame and leaves one goal per commit branch. *)
Ltac update_cases f s :=
  unfold update, commit;
  destruct (bool_decide_reflect (gameState s = PLAYING)) as [?Hplaying | ?Hplaying];
    cbn [negb];
  [ destruct (rooms s !! currentRoomIndex s) as [?currentRoom|] eqn:?Hcur;
    [ destruct (moveVector f) as [?dx ?dy] eqn:?Hmove;
      destruct (clampPlayer _ _ _ _) as [?nextX ?nextY] eqn:?Hclamp;
      destruct (shoot _ _ _ _ _) as [?shots ?lastShot] eqn:?Hshoot;
      destruct (enemiesLoop _ _ _ _ _ _ _) as [[?st ?written] ?roomEnemies] eqn:?Hloop;
      destruct (roomSwitch _ _ _) as [[[[?gx ?gy] ?spawnX] ?spawnY]|] eqn:?Hswitch;
      [ destruct (isRoomCleared _) eqn:?Hcleared;
        [ destruct (findRoomIndex _ _ _) as [?nextRoomIndex|] eqn:?Hfind | ]
      | ]
    | ]
  | ].

(** Rewrites the comparisons that arithmetic on closed terms settles. *)
Ltac decide_reals :=
  repeat match goal with
  | |- context [bool_decide ?P] =>
      first [ rewrite (bool_decide_eq_true_2 P) by (first [done | cbn; lra | cbn; lia])
            | rewrite (bool_decide_eq_false_2 P) by (first [done | cbn; lra | cbn; lia]) ]
  end.

(* ------------------------------------------------------------------ *)
(** * Properties *)

(** ** Geometry *)

Lemma getDistance_sym (a b : Vector2) : getDistance a b = getDistance b a.
Proof. unfold getDistance. f_equal. ring. Qed.

Lemma getDistance_nonneg (a b : Vector2) : 0 <= getDistance a b.
Proof. apply sqrt_pos. Qed.

Lemma getDistance_sqr (a b : Vector2) :
  getDistance a b * getDistance a b = (x a - x b) * (x a - x b) + (y a - y b) * (y a - y b).
Proof.
  unfold getDistance. rewrite sqrt_sqrt; [ring|].
  apply Rplus_le_le_0_compat; apply pow2_ge_0.
Qed.

Lemma euclidean_distance_unique (p q : Vector2) (d : R) :
  isEuclideanDistance p q d <-> d = getDistance p q.
Proof.
  split.
  - intros [Hd Hsq]. pose proof (getDistance_nonneg p q) as Hg.
    pose proof (getDistance_sqr p q) as Hgs. rewrite <- Hsq in Hgs.
    destruct (Rtotal_order d (getDistance p q)) as [Hlt | [Heq | Hgt]]; [|exact Heq|]; nra.
  - intros ->. split; [apply getDistance_nonneg | apply getDistance_sqr].
Qed.

Lemma checkCollision_same_position (a b : Entity) :
  position a = position b -> 0 < size a -> 0 < size b -> checkCollision a b = true.
Proof.
  intros Hpos Ha Hb. apply bool_decide_eq_true_2.
  rewrite Hpos. unfold getDistance.
  replace ((x (position b) - x (position b)) ^ 2
           + (y (position b) - y (position b)) ^ 2) with 0 by ring.
  rewrite sqrt_0. lra.
Qed.

(** C6.  [checkCollision a b] holds exactly when the Euclidean distance of
    the two positions is strictly below [a.size/2 + b.size/2]; so entities
    at one position with positive sizes collide, entities further apart
    than the sum of their radii do not, and neither do entities at exactly
    that distance. *)
Theorem checkCollision_strict_circle_overlap (a b : Entity) :
  (checkCollision a b = true <->
     exists d, isEuclideanDistance (position a) (position b) d
               /\ d < size a / 2 + size b / 2)
  /\ (position a = position b -> 0 < size a -> 0 < size b ->
      checkCollision a b = true)
  /\ (forall d, isEuclideanDistance (position a) (position b) d ->
        size a / 2 + size b / 2 < d -> checkCollision a b = false)
  /\ (forall d, isEuclideanDistance (position a) (position b) d ->
        d = size a / 2 + size b / 2 -> checkCollision a b = false).
Proof.
  unfold checkCollision. repeat split.
  - intros H. apply bool_decide_eq_true_1 in H.
    exists (getDistance (position a) (position b)). split; [|exact H].
    by apply euclidean_distance_unique.
  - intros (d & Hd & Hlt). apply euclidean_distance_unique in Hd. subst d.
    by apply bool_decide_eq_true_2.
  - apply checkCollision_same_position.
  - intros d Hd Hlt. apply euclidean_distance_unique in Hd. subst d.
    apply bool_decide_eq_false_2. lra.
  - intros d Hd Heq. apply euclidean_distance_unique in Hd. subst d.
    apply bool_decide_eq_false_2. lra.
Qed.

Lemma checkCollision_strict_circle_overlap_witness :
  checkCollision createPlayer createPlayer = true.
Proof.
  apply (proj1 (proj2 (checkCollision_strict_circle_overlap createPlayer createPlayer)));
    [reflexivity | simpl; unfold PLAYER_SIZE; lra | simpl; unfold PLAYER_SIZE; lra].
Defined.

(** C10.  [checkCollision] does not depend on the order of its arguments. *)
Theorem checkCollision_comm (a b : Entity) :
  checkCollision a b = checkCollision b a.
Proof.
  unfold checkCollision.
  rewrite (getDistance_sym (position a) (position b)).
  rewrite (Rplus_comm (size a / 2) (size b / 2)). reflexivity.
Qed.

(** ** Facing *)

Lemma Math_floor_unique (r : number) (z : Z) :
  IZR z <= r < IZR z + 1 -> Math_floor r = z.
Proof.
  intros [H1 H2]. unfold Math_floor. symmetry. apply Int_part_spec. lra.
Qed.

Lemma Math_trunc_nonneg (r : number) (z : Z) :
  IZR z <= r < IZR z + 1 -> 0 <= r -> Math_trunc r = z.
Proof.
  intros H Hr. unfold Math_trunc.
  rewrite bool_decide_eq_true_2 by exact Hr. by apply Math_floor_unique.
Qed.

Lemma Math_atan2_scale (k vy vx : number) :
  0 < k -> Math_atan2 (k * vy) (k * vx) = Math_atan2 vy vx.
Proof.
  intros Hk. unfold Math_atan2.
  assert (Hq : vx <> 0 -> k * vy / (k * vx) = vy / vx) by (intros; field; lra).
  repeat match goal with
  | |- context [bool_decide ?P] => destruct (bool_decide_reflect P)
  end; try reflexivity; try (exfalso; nra); rewrite Hq by lra; reflexivity.
Qed.

Lemma idle_guard_false (vx vy : number) :
  ~ (Rabs vx < 0.1 /\ Rabs vy < 0.1) ->
  bool_decide (Rabs vx < 0.1) && bool_decide (Rabs vy < 0.1) = false.
Proof.
  intros H. apply not_true_is_false. intros Ht.
  apply andb_prop in Ht as [H1 H2].
  apply bool_decide_eq_true_1 in H1. apply bool_decide_eq_true_1 in H2. tauto.
Qed.

(** The sector of due east is index 6 ("0(East) -> 6"), at any length
    above the idle threshold. *)
Lemma facing_east (vx : number) (f : option number) :
  0.1 <= vx -> getFacingFromVelocity vx 0 f = Some 6.
Proof.
  intros Hvx. unfold getFacingFromVelocity.
  rewrite idle_guard_false
    by (intros [H _]; rewrite Rabs_pos_eq in H; lra).
  unfold Math_atan2. rewrite (bool_decide_eq_true_2 (0 < vx)) by lra.
  replace (0 / vx) with 0 by (field; lra). rewrite atan_0.
  replace (0 * (180 / PI)) with 0 by (field; apply PI_neq0).
  rewrite (bool_decide_eq_false_2 (0 < 0)) by lra.
  assert (Hrem : js_rem (0 + 22.5) 360 = 22.5).
  { unfold js_rem. rewrite (Math_trunc_nonneg _ 0); simpl; lra. }
  rewrite Hrem. rewrite (Math_floor_unique _ 0) by (simpl; lra).
  reflexivity.
Qed.

Lemma js_rem_small (a b : number) : 0 <= a < b -> js_rem a b = a.
Proof.
  intros [Ha Hb]. unfold js_rem.
  assert (Hq : 0 <= a / b < 1).
  { split.
    - apply Rmult_le_pos; [lra|]. apply Rlt_le, Rinv_0_lt_compat. lra.
    - apply (Rmult_lt_reg_r b); [lra|]. unfold Rdiv.
      rewrite Rmult_assoc, Rinv_l by lra. lra. }
  assert (Ht : Math_trunc (a / b) = 0%Z)
    by (apply Math_trunc_nonneg; simpl; lra).
  rewrite Ht. simpl. lra.
Qed.

(** The sector of a direction whose angle, in degrees within [0, 360), is
    known: index [i] when [deg + 22.5] lies in the [i]-th band of 45. *)
Lemma facing_of_degrees (vx vy : number) (f : option number) (deg : number) (i : Z) :
  ~ (Rabs vx < 0.1 /\ Rabs vy < 0.1) ->
  (let a := Math_atan2 vy vx * (180 / PI) in
   if bool_decide (a < 0) then a + 360 else a) = deg ->
  0 <= deg -> deg + 22.5 < 360 ->
  IZR i * 45 <= deg + 22.5 < (IZR i + 1) * 45 ->
  getFacingFromVelocity vx vy f = Some (IZR (Z.rem (i - 2 + 8) 8)).
Proof.
  intros Hmove Hdeg H0 H360 Hband. unfold getFacingFromVelocity.
  rewrite (idle_guard_false _ _ Hmove). cbv zeta in Hdeg |- *. rewrite Hdeg.
  rewrite js_rem_small by lra.
  rewrite (Math_floor_unique _ i) by lra. reflexivity.
Qed.

(** The compass points land where the comment in the source puts them:
    "0(East) -> 6, 2(South) -> 0, 4(West) -> 2, 6(North) -> 4". *)
Example facing_south (f : option number) : getFacingFromVelocity 0 1 f = Some 0.
Proof.
  apply (facing_of_degrees 0 1 f 90 2); try (simpl; lra).
  - intros [_ H]. rewrite Rabs_pos_eq in H; lra.
  - unfold Math_atan2. cbv zeta.
    rewrite !(bool_decide_eq_false_2 (0 < 0)), (bool_decide_eq_true_2 (0 < 1)) by lra.
    replace (PI / 2 * (180 / PI)) with 90 by (field; apply PI_neq0).
    by rewrite bool_decide_eq_false_2 by lra.
Qed.

Example facing_west (f : option number) : getFacingFromVelocity (-1) 0 f = Some 2.
Proof.
  apply (facing_of_degrees (-1) 0 f 180 4); try (simpl; lra).
  - intros [H _]. rewrite Rabs_left in H; lra.
  - unfold Math_atan2. cbv zeta.
    rewrite (bool_decide_eq_false_2 (0 < -1)), (bool_decide_eq_true_2 (-1 < 0)),
      (bool_decide_eq_true_2 (0 <= 0)) by lra.
    replace (0 / -1) with 0 by (field; lra). rewrite atan_0.
    replace ((0 + PI) * (180 / PI)) with 180 by (field; apply PI_neq0).
    by rewrite bool_decide_eq_false_2 by lra.
Qed.

Example facing_north (f : option number) : getFacingFromVelocity 0 (-1) f = Some 4.
Proof.
  apply (facing_of_degrees 0 (-1) f 270 6); try (simpl; lra).
  - intros [_ H]. rewrite Rabs_left in H; lra.
  - unfold Math_atan2. cbv zeta.
    rewrite !(bool_decide_eq_false_2 (0 < 0)), (bool_decide_eq_false_2 (0 < -1)),
      (bool_decide_eq_true_2 (-1 < 0)) by lra.
    replace (- (PI / 2) * (180 / PI)) with (-90) by (field; apply PI_neq0).
    rewrite bool_decide_eq_true_2 by lra. lra.
Qed.

(** C9, as stated, fails: a positive factor can shrink a vector below the
    idle threshold, and then the previous facing is returned instead of
    the sector.  Here (1, 0), which is above the threshold, scaled by 0.01
    with previous facing 0: the scaled call returns 0, the original 6. *)
Lemma getFacingFromVelocity_scale_counterexample :
  ~ (Rabs 1 < 0.1 /\ Rabs 0 < 0.1)
  /\ 0 < 0.01
  /\ getFacingFromVelocity (0.01 * 1) (0.01 * 0) (Some 0) = Some 0
  /\ getFacingFromVelocity 1 0 (Some 0) = Some 6
  /\ getFacingFromVelocity (0.01 * 1) (0.01 * 0) (Some 0)
     <> getFacingFromVelocity 1 0 (Some 0).
Proof.
  assert (Hsmall : getFacingFromVelocity (0.01 * 1) (0.01 * 0) (Some 0) = Some 0).
  { unfold getFacingFromVelocity.
    rewrite !bool_decide_eq_true_2 by (rewrite Rabs_pos_eq; lra). reflexivity. }
  assert (Hunit : getFacingFromVelocity 1 0 (Some 0) = Some 6)
    by (apply facing_east; lra).
  split; [intros [Hx _]; rewrite Rabs_pos_eq in Hx; lra|].
  split; [lra|]. split; [exact Hsmall|]. split; [exact Hunit|].
  rewrite Hsmall, Hunit. intros [= H0]. lra.
Qed.

Lemma getFacingFromVelocity_idle (vx vy : number) (prev : option number) :
  Rabs vx < 0.1 -> Rabs vy < 0.1 -> getFacingFromVelocity vx vy prev = prev.
Proof.
  intros Hx Hy. unfold getFacingFromVelocity.
  rewrite !bool_decide_eq_true_2 by assumption. reflexivity.
Qed.

(** C9, amended.  A vector with both components below the threshold (the
    zero vector in particular) keeps the previous facing; scaling by a
    positive factor keeps the facing whenever the scaled vector is itself
    not below the threshold; (10, 0) and (1, 0) give the same index. *)
Theorem getFacingFromVelocity_idle_and_scaling :
  (forall prev, getFacingFromVelocity 0 0 prev = prev)
  /\ (forall vx vy prev, Rabs vx < 0.1 -> Rabs vy < 0.1 ->
        getFacingFromVelocity vx vy prev = prev)
  /\ (forall vx vy k f,
        ~ (Rabs vx < 0.1 /\ Rabs vy < 0.1) -> 0 < k ->
        ~ (Rabs (k * vx) < 0.1 /\ Rabs (k * vy) < 0.1) ->
        getFacingFromVelocity (k * vx) (k * vy) f = getFacingFromVelocity vx vy f)
  /\ (forall f g, getFacingFromVelocity 10 0 f = getFacingFromVelocity 1 0 g).
Proof.
  repeat split.
  - intros prev. apply getFacingFromVelocity_idle; rewrite Rabs_R0; lra.
  - apply getFacingFromVelocity_idle.
  - intros vx vy k f Hv Hk Hkv. unfold getFacingFromVelocity.
    rewrite (idle_guard_false _ _ Hv), (idle_guard_false _ _ Hkv).
    by rewrite Math_atan2_scale.
  - intros f g. rewrite !facing_east by lra. reflexivity.
Qed.

Lemma getFacingFromVelocity_idle_and_scaling_witness :
  getFacingFromVelocity (2 * 1) (2 * 0) (Some 0) = getFacingFromVelocity 1 0 (Some 0).
Proof.
  apply (proj1 (proj2 (proj2 getFacingFromVelocity_idle_and_scaling)) 1 0 2 (Some 0)).
  - intros [H _]. rewrite Rabs_pos_eq in H; lra.
  - lra.
  - intros [H _]. rewrite Rabs_pos_eq in H; lra.
Defined.

(** ** Item pickup *)

(** C4.  The player after a pickup, field by field: HEALTH raises
    [maxHealth] by 2 and sets [health] to the new maximum, DAMAGE adds 1.5
    and BIG_TEARS adds 2 to [damage], SPEED adds 0.5 to [speed],
    TRIPLE_SHOT, PIERCING and BIG_TEARS append their modifier; every other
    field is the one of the player before. *)
Theorem handleItemPickup_effects (item : Item) (p : Entity) :
  handleItemPickup item p =
  {| id := id p; type := type p; position := position p; velocity := velocity p;
     size := size p; color := color p;
     health := match itemType item with HEALTH => maxHealth p + 2 | _ => health p end;
     maxHealth := match itemType item with HEALTH => maxHealth p + 2 | _ => maxHealth p end;
     damage := match itemType item with
               | DAMAGE => damage p + 1.5
               | BIG_TEARS => damage p + 2
               | _ => damage p
               end;
     speed := match itemType item with SPEED => speed p + 0.5 | _ => speed p end;
     isActive := isActive p;
     modifiers := match itemType item with
                  | TRIPLE_SHOT => modifiers p ++ [TRIPLE_SHOT]
                  | PIERCING => modifiers p ++ [PIERCING]
                  | BIG_TEARS => modifiers p ++ [BIG_TEARS]
                  | _ => modifiers p
                  end;
     facing := facing p; variant := variant p; attackCooldown := attackCooldown p |}.
Proof.
  unfold handleItemPickup. destruct p, (itemType item); reflexivity.
Qed.

(** ** Doors of a generated dungeon *)

Lemma findRoom_truthy (rs : list Room) (gx gy : Z) :
  truthy (findRoom rs gx gy) = true <-> roomAt rs gx gy.
Proof.
  unfold findRoom, roomAt. induction rs as [|n rs IH]; simpl.
  - split; [discriminate|]. intros (n & Hn & _). by apply elem_of_nil in Hn.
  - destruct (bool_decide_reflect (gridX n = gx)) as [Hx|Hx];
      destruct (bool_decide_reflect (gridY n = gy)) as [Hy|Hy]; simpl.
    + split; [|done]. intros _. exists n. split; [left|done].
    + rewrite IH. split.
      * intros (m & Hm & ?). exists m. split; [by right|done].
      * intros (m & Hm & Hmx & Hmy). apply elem_of_cons in Hm as [->|Hm]; [done|].
        by exists m.
    + rewrite IH. split.
      * intros (m & Hm & ?). exists m. split; [by right|done].
      * intros (m & Hm & Hmx & Hmy). apply elem_of_cons in Hm as [->|Hm]; [done|].
        by exists m.
    + rewrite IH. split.
      * intros (m & Hm & ?). exists m. split; [by right|done].
      * intros (m & Hm & Hmx & Hmy). apply elem_of_cons in Hm as [->|Hm]; [done|].
        by exists m.
Qed.

Lemma linkRoom_grid (rs : list Room) (r : Room) :
  gridX (linkRoom rs r) = gridX r /\ gridY (linkRoom rs r) = gridY r.
Proof. done. Qed.

Lemma roomAt_linkDoors (rs : list Room) (gx gy : Z) :
  roomAt (linkDoors rs) gx gy <-> roomAt rs gx gy.
Proof.
  unfold roomAt, linkDoors. split.
  - intros (n & Hn & Hx & Hy). apply list_elem_of_fmap in Hn as (m & -> & Hm).
    by exists m.
  - intros (m & Hm & Hx & Hy). exists (linkRoom rs m). split; [|done].
    apply list_elem_of_fmap. by exists m.
Qed.

(** A room that starts without doors gets exactly the doors toward the
    cells where [find] succeeds. *)
Lemma linkRoom_hasDoor (rs : list Room) (r : Room) (d : Direction) :
  doors r = ∅ ->
  hasDoor (linkRoom rs r) d
  = truthy (findRoom rs (neighbourX r d) (neighbourY r d)).
Proof.
  intros Hempty. unfold hasDoor, linkRoom, neighbourX, neighbourY. simpl. rewrite Hempty.
  replace (gridY r - 1)%Z with (gridY r + -1)%Z by lia.
  replace (gridX r - 1)%Z with (gridX r + -1)%Z by lia.
  destruct d; simpl; rewrite ?Z.add_0_r;
    repeat match goal with
    | |- context [truthy ?o] => destruct o; simpl
    end;
    by simplify_map_eq.
Qed.

Lemma buildRooms_no_doors rnd bossId itemRoomId (v : Visited) (k : nat) :
  Forall (fun r => doors r = ∅) (buildRooms rnd bossId itemRoomId k v).
Proof.
  revert k. induction v as [|kv v IH]; intros k; simpl; [constructor|].
  destruct (buildRoom rnd bossId itemRoomId k kv) as [r k'] eqn:Hr.
  constructor; [|apply IH].
  unfold buildRoom in Hr.
  repeat match type of Hr with
  | context [if ?c then _ else _] => destruct c
  end; by inversion Hr.
Qed.

Lemma opposite_delta (d : Direction) :
  dirDelta (opposite d) = ((- (dirDelta d).1)%Z, (- (dirDelta d).2)%Z).
Proof. by destruct d. Qed.

(** C8.  In a dungeon produced by [generateDungeon], a room has a door in
    a direction exactly when a generated room occupies the adjacent grid
    cell in that direction; hence a door from A toward its neighbour B is
    matched by the opposite door of B. *)
Theorem generateDungeon_doors_match_neighbours
    (fuel : nat) (rnd : DungeonRandom) (targetCount : Z) (rs : list Room) :
  generateDungeon fuel rnd targetCount = Some rs ->
  (forall r d, r ∈ rs ->
     (hasDoor r d = true <-> roomAt rs (neighbourX r d) (neighbourY r d)))
  /\ (forall a b d, a ∈ rs -> b ∈ rs ->
        gridX b = neighbourX a d -> gridY b = neighbourY a d ->
        hasDoor a d = true -> hasDoor b (opposite d) = true).
Proof.
  intros Hgen.
  assert (Hrs : exists rs0, rs = linkDoors rs0 /\ Forall (fun r => doors r = ∅) rs0).
  { unfold generateDungeon in Hgen.
    destruct (grow _ _ _ _ _ _) as [[v k]|]; [|discriminate].
    destruct (bool_decide _); injection Hgen as <-;
      eexists; (split; [reflexivity | apply buildRooms_no_doors]). }
  destruct Hrs as (rs0 & -> & Hdoors).
  assert (Hiff : forall r d, r ∈ linkDoors rs0 ->
            (hasDoor r d = true <->
             roomAt (linkDoors rs0) (neighbourX r d) (neighbourY r d))).
  { intros r d Hr. unfold linkDoors in Hr.
    apply list_elem_of_fmap in Hr as (r0 & -> & Hr0).
    rewrite Forall_forall in Hdoors.
    rewrite linkRoom_hasDoor by (by apply Hdoors).
    rewrite findRoom_truthy, roomAt_linkDoors. done. }
  split; [exact Hiff|].
  intros a b d Ha Hb Hx Hy _.
  apply Hiff; [exact Hb|]. exists a. split; [exact Ha|].
  unfold neighbourX, neighbourY in *. rewrite opposite_delta. simpl. lia.
Qed.

Lemma Math_floor_zero_mul (r : number) : Math_floor (0 * r) = 0%Z.
Proof. apply Math_floor_unique. simpl. lra. Qed.

Lemma randomIndex_zero (n : nat) : randomIndex 0 n = 0%Z.
Proof. apply Math_floor_zero_mul. Qed.

Lemma randomItemType_zero : randomItemType 0 = HEALTH.
Proof. unfold randomItemType. by rewrite Math_floor_zero_mul. Qed.

(** One successful growth attempt when every random draw is 0: the parent
    is the first candidate and the directions are tried in source order. *)
Lemma grow_zeroRandom_step fuel t k (v : Visited) parent rest nx ny :
  (Z.of_nat (length v) < t)%Z ->
  firstFree parent dirs v = Some (nx, ny) ->
  grow (S fuel) zeroRandom t k v (parent :: rest)
  = grow fuel zeroRandom t (S k) (v ++ [(coordKey nx ny, (nx, ny))])
      ((parent :: rest) ++ [(nx, ny)]).
Proof.
  intros Hlt Hfree. cbn [grow].
  rewrite bool_decide_eq_true_2 by exact Hlt.
  rewrite bool_decide_eq_false_2 by (simpl; lia).
  cbn [zeroRandom dr_random dr_shuffle]. rewrite randomIndex_zero.
  change (zlookup (parent :: rest) 0) with (Some parent).
  change (shuffledDirs 0) with dirs. cbn beta iota. by rewrite Hfree.
Qed.

Lemma generateDungeon_doors_match_neighbours_witness :
  exists rs,
    generateDungeon 2 zeroRandom 3 = Some rs
    /\ length rs = 3%nat
    /\ (forall r d, r ∈ rs ->
          (hasDoor r d = true <-> roomAt rs (neighbourX r d) (neighbourY r d))).
Proof.
  assert (Hgrow : grow 2 zeroRandom 3 0 [("0,0", (0, 0)%Z)] [(0, 0)%Z]
                  = Some ([("0,0", (0, 0)); ("0,-1", (0, -1)); ("0,1", (0, 1))]%Z, 2%nat)).
  { etrans; [apply (grow_zeroRandom_step _ _ _ _ _ _ 0 (-1)); vm_compute; done|].
    etrans; [apply (grow_zeroRandom_step _ _ _ _ _ _ 0 1); vm_compute; done|].
    reflexivity. }
  eexists. split; [|split].
  - unfold generateDungeon. rewrite Hgrow.
    change (pickBoss _) with "0,-1".
    set (pir := filter _ _).
    assert (Hpir : pir = ["0,1"]) by (by vm_compute).
    rewrite Hpir. cbn [dr_random zeroRandom]. rewrite randomIndex_zero.
    reflexivity.
  - reflexivity.
  - apply (generateDungeon_doors_match_neighbours 2 zeroRandom 3).
    unfold generateDungeon. rewrite Hgrow.
    change (pickBoss _) with "0,-1".
    set (pir := filter _ _).
    assert (Hpir : pir = ["0,1"]) by (by vm_compute).
    rewrite Hpir. cbn [dr_random zeroRandom]. rewrite randomIndex_zero.
    reflexivity.
Defined.

(** ** The simulation step *)

(** Every frame rewrites at most the current room, and what it writes
    keeps the room's identity and never lowers its [cleared] flag. *)
Lemma update_rooms (f : Frame) (s : Session) :
  rooms (update f s) = rooms s
  \/ exists currentRoom room',
       rooms s !! currentRoomIndex s = Some currentRoom
       /\ rooms (update f s) = <[currentRoomIndex s := room']> (rooms s)
       /\ room_id room' = room_id currentRoom
       /\ gridX room' = gridX currentRoom
       /\ gridY room' = gridY currentRoom
       /\ doors room' = doors currentRoom
       /\ (cleared currentRoom = true -> cleared room' = true).
Proof.
  update_cases f s; try (by left); right; eexists _, _;
    (split; [reflexivity|]); (split; [reflexivity|]); cbn; repeat split; try done.
  intros ->. by destruct (forallb _ _).
Qed.

Lemma handle_rooms (s : Session) (ev : Event) (i : nat) (r : Room) :
  rooms s !! i = Some r ->
  exists r', rooms (handle s ev) !! i = Some r'
             /\ room_id r' = room_id r
             /\ (cleared r = true -> cleared r' = true).
Proof.
  intros Hi. destruct ev as [f|]; cbn [handle rooms]; [|by exists r].
  destruct (update_rooms f s) as [-> | (cr & room' & Hcur & -> & Hid & _ & _ & _ & Hcl)];
    [by exists r|].
  destruct (decide (i = currentRoomIndex s)) as [->|Hne].
  - rewrite Hcur in Hi. injection Hi as ->.
    exists room'. split; [|done].
    apply list_lookup_insert_eq. by eapply lookup_lt_Some.
  - exists r. by rewrite list_lookup_insert_ne.
Qed.

(** C3.  Over any sequence of frames (and pickup timers) of a run, the
    room stored at a given index stays the same room, and once its
    [cleared] flag is true it is true ever after. *)
Theorem cleared_never_reverts (s : Session) (evs : list Event) (i : nat) (r : Room) :
  rooms s !! i = Some r ->
  cleared r = true ->
  exists r', rooms (run s evs) !! i = Some r'
             /\ room_id r' = room_id r
             /\ cleared r' = true.
Proof.
  revert s r. induction evs as [|ev evs IH]; intros s r Hi Hc; cbn [run fold_left].
  - by exists r.
  - destruct (handle_rooms s ev i r Hi) as (r1 & Hi1 & Hid1 & Hc1).
    destruct (IH (handle s ev) r1 Hi1 (Hc1 Hc)) as (r' & Hi' & Hid' & Hc').
    exists r'. split; [exact Hi'|]. split; [congruence|exact Hc'].
Qed.

(** *** Player movement *)

Lemma sqrt_of_square (e v : number) : 0 <= v -> v * v = e -> sqrt e = v.
Proof. intros Hv He. apply sqrt_lem_1; [rewrite <- He; nra | exact Hv | exact He]. Qed.

Lemma moveVector_unit (f : Frame) (dx dy : number) :
  combinedInput f = (dx, dy) -> dx * dx + dy * dy = 1 -> moveVector f = (dx, dy).
Proof.
  intros Hin Hlen. unfold moveVector. rewrite Hin, Hlen, sqrt_1.
  by decide_reals.
Qed.

Lemma clampPlayer_inside (p : Entity) (r : Room) (nx ny : number) :
  wallThickness + size p / 2 <= nx <= CANVAS_WIDTH - (wallThickness + size p / 2) ->
  wallThickness + size p / 2 <= ny <= CANVAS_HEIGHT - (wallThickness + size p / 2) ->
  clampPlayer p r nx ny = (nx, ny).
Proof.
  intros Hx Hy. unfold clampPlayer.
  rewrite (bool_decide_eq_false_2 (ny < _)) by lra. cbn [andb].
  rewrite (bool_decide_eq_false_2 (ny > _)) by lra. cbn [andb].
  rewrite (bool_decide_eq_false_2 (nx < _)) by lra. cbn [andb].
  rewrite (bool_decide_eq_false_2 (nx > _)) by lra. reflexivity.
Qed.

Lemma roomSwitch_inside (r : Room) (nx ny : number) :
  20 <= nx <= CANVAS_WIDTH - 20 -> 20 <= ny <= CANVAS_HEIGHT - 20 ->
  roomSwitch r nx ny = None.
Proof.
  intros Hx Hy. unfold roomSwitch.
  rewrite (bool_decide_eq_false_2 (ny < _)) by lra. cbn [andb].
  rewrite (bool_decide_eq_false_2 (ny > _)) by lra. cbn [andb].
  rewrite (bool_decide_eq_false_2 (nx < _)) by lra. cbn [andb].
  rewrite (bool_decide_eq_false_2 (nx > _)) by lra. reflexivity.
Qed.

(** C7.  A player standing at the room centre with speed 3.5 whose
    combined move input is (1, 0): after one frame in the Playing state,
    whatever [dt] and the rest of the frame are, x has grown by 3.5, y is
    unchanged and the facing is the east sector, index 6.  (The bound on
    [size] keeps the wall clamp away from the centre; the player's size is
    [PLAYER_SIZE] = 30 throughout the source.) *)
Theorem update_moves_player_east (f : Frame) (s : Session) (room : Room) :
  gameState s = PLAYING ->
  rooms s !! currentRoomIndex s = Some room ->
  position (player s) = mkVector2 (CANVAS_WIDTH / 2) (CANVAS_HEIGHT / 2) ->
  speed (player s) = 3.5 ->
  size (player s) <= 500 ->
  combinedInput f = (1, 0) ->
  x (position (player (update f s))) = x (position (player s)) + 3.5
  /\ y (position (player (update f s))) = y (position (player s))
  /\ facing (player (update f s)) = Some 6.
Proof.
  intros Hplay Hroom Hpos Hspeed Hsize Hin.
  unfold update.
  rewrite (bool_decide_eq_true_2 _ Hplay). cbn [negb]. rewrite Hroom.
  rewrite (moveVector_unit f 1 0 Hin) by lra.
  rewrite Hpos, Hspeed. cbn [x y].
  rewrite clampPlayer_inside
    by (unfold wallThickness, CANVAS_WIDTH, CANVAS_HEIGHT; lra).
  destruct (shoot _ _ _ _ _) as [shots lastShot].
  destruct (enemiesLoop _ _ _ _ _ _ _) as [[st written] roomEnemies].
  unfold commit.
  rewrite roomSwitch_inside by (unfold CANVAS_WIDTH, CANVAS_HEIGHT; lra).
  cbn. rewrite facing_east by lra. repeat split; lra.
Qed.

Lemma update_moves_player_east_witness :
  x (position (player (update (stickFrame 1 0) freshSession))) = 400 + 3.5
  /\ y (position (player (update (stickFrame 1 0) freshSession))) = 300
  /\ facing (player (update (stickFrame 1 0) freshSession)) = Some 6.
Proof.
  replace 400 with (x (position (player freshSession)))
    by (cbn; unfold CANVAS_WIDTH; lra).
  replace 300 with (y (position (player freshSession)))
    by (cbn; unfold CANVAS_HEIGHT; lra).
  apply (update_moves_player_east (stickFrame 1 0) freshSession startRoom);
    try reflexivity.
  cbn; unfold PLAYER_SIZE; lra.
Defined.

Lemma cleared_never_reverts_witness :
  exists r', rooms (run freshSession [Tick (stickFrame 1 0); PickupTimeout;
                                      Tick (stickFrame 0 1)]) !! 0%nat = Some r'
             /\ room_id r' = "0,0"
             /\ cleared r' = true.
Proof.
  apply (cleared_never_reverts freshSession _ 0 startRoom); reflexivity.
Defined.


(** *** A transition toward a missing room *)

Lemma doorZone_inside (v c : number) :
  - doorHalfWidth < v - c < doorHalfWidth ->
  bool_decide (Rabs (v - c) < doorHalfWidth) = true.
Proof. intros H. apply bool_decide_eq_true_2, Rabs_def1; lra. Qed.

Lemma shoot_cooling_down (f : Frame) (p : Entity) (lastShot : Z) (nx ny : number) :
  (now f - lastShot <= fireRate)%Z -> shoot f p lastShot nx ny = ([], lastShot).
Proof.
  intros H. unfold shoot. by rewrite bool_decide_eq_false_2 by lia.
Qed.

Lemma clampPlayer_atTopDoor :
  clampPlayer (player atTopDoor) deadEndRoom
    (x (position (player atTopDoor)) + 0 * speed (player atTopDoor))
    (y (position (player atTopDoor)) + -1 * speed (player atTopDoor))
  = (400, 18.5).
Proof.
  unfold clampPlayer.
  rewrite (doorZone_inside _ (CANVAS_WIDTH / 2))
    by (cbn; unfold doorHalfWidth, CANVAS_WIDTH, PLAYER_BASE_SPEED; lra).
  change (isRoomCleared deadEndRoom) with true.
  change (hasDoor deadEndRoom UP) with true.
  change (hasDoor deadEndRoom DOWN) with false.
  change (hasDoor deadEndRoom LEFT) with false.
  change (hasDoor deadEndRoom RIGHT) with false.
  cbn [negb orb andb]. rewrite !andb_false_r.
  cbn [x y position player atTopDoor with_position speed size createPlayer].
  unfold wallThickness, PLAYER_SIZE, PLAYER_BASE_SPEED, CANVAS_WIDTH, CANVAS_HEIGHT.
  rewrite (bool_decide_eq_false_2 (22 + -1 * 3.5 > _)) by lra.
  rewrite (bool_decide_eq_false_2 (400 + 0 * 3.5 < _)) by lra.
  rewrite (bool_decide_eq_false_2 (400 + 0 * 3.5 > _)) by lra.
  cbn [andb]. f_equal; lra.
Qed.

Lemma roomSwitch_atTopDoor :
  roomSwitch deadEndRoom 400 18.5
  = Some (0%Z, (-1)%Z, CANVAS_WIDTH / 2, CANVAS_HEIGHT - 80).
Proof.
  unfold roomSwitch. rewrite (bool_decide_eq_true_2 (18.5 < 20)) by lra.
  reflexivity.
Qed.



(** *** Enemy bounds *)

Lemma moveVector_idle (f : Frame) :
  combinedInput f = (0, 0) -> moveVector f = (0, 0).
Proof.
  intros Hin. unfold moveVector. rewrite Hin.
  replace (0 * 0 + 0 * 0) with 0 by ring. rewrite sqrt_0. by decide_reals.
Qed.

(** The clamp itself does keep a position inside the room bounds. *)
Lemma clampEnemy_in_bounds (eX eY : number) :
  50 <= (clampEnemy eX eY).1 <= CANVAS_WIDTH - 50
  /\ 50 <= (clampEnemy eX eY).2 <= CANVAS_HEIGHT - 50.
Proof.
  unfold clampEnemy, CANVAS_WIDTH, CANVAS_HEIGHT. cbn [fst snd].
  repeat match goal with
  | |- context [bool_decide ?P] => destruct (bool_decide_reflect P)
  end; lra.
Qed.

Lemma clampEnemy_inside (eX eY : number) :
  50 <= eX <= CANVAS_WIDTH - 50 -> 50 <= eY <= CANVAS_HEIGHT - 50 ->
  clampEnemy eX eY = (eX, eY).
Proof.
  intros Hx Hy. unfold clampEnemy.
  rewrite (bool_decide_eq_false_2 (eX < 50)) by lra.
  rewrite (bool_decide_eq_false_2 (eX > _)) by lra.
  rewrite (bool_decide_eq_false_2 (eY < 50)) by lra.
  rewrite (bool_decide_eq_false_2 (eY > _)) by lra. reflexivity.
Qed.

Lemma grunt_chases (f : Frame) (cd : number) (k : nat) :
  enemyBehaviour f 400 300 (grunt 52 300) cd k
  = mkBehaviour ((400 - 52) / 348 * ENEMY_SPEED) ((300 - 300) / 348 * ENEMY_SPEED) cd [] k.
Proof.
  unfold enemyBehaviour. cbn [variant grunt gruntNamed position x y speed].
  rewrite (sqrt_of_square _ 348) by lra.
  rewrite !bool_decide_eq_false_2 by done.
  rewrite bool_decide_eq_true_2 by lra. reflexivity.
Qed.

Lemma tear_hits_grunt :
  hitLoop (grunt 52 300) ((400 - 52) / 348 * ENEMY_SPEED) ((300 - 300) / 348 * ENEMY_SPEED)
    (mkHitState 10 53.5 300) [tear 53.5 300]
  = (mkHitState (10 - 3.5)
       (53.5 - (400 - 52) / 348 * ENEMY_SPEED * 6)
       (300 - (300 - 300) / 348 * ENEMY_SPEED * 6),
     [proj_deactivate (tear 53.5 300)], [true]).
Proof.
  cbn [hitLoop]. unfold strike.
  assert (Hc : checkCollision (tear 53.5 300)
                 (with_position (grunt 52 300) (mkVector2 53.5 300)) = true).
  { apply checkCollision_same_position;
      [reflexivity | cbn; unfold PROJECTILE_SIZE; lra | cbn; unfold ENEMY_SIZE; lra]. }
  cbn [hs_eX hs_eY hs_health]. rewrite Hc.
  reflexivity.
Qed.

Lemma stepEnemy_wallFight :
  stepEnemy (stickFrame 0 0) createPlayer fightRoom 400 300
    (mkLoopState [tear 53.5 300] false 0 [] false []) (grunt 52 300)
  = (mkLoopState [proj_deactivate (tear 53.5 300)] false 0 [] false [[true]],
     with_health (with_attackCooldown (grunt 52 300) (Some (0 - 16))) (10 - 3.5),
     with_facing
       (with_position
          (with_health (with_attackCooldown (grunt 52 300) (Some (0 - 16))) (10 - 3.5))
          (mkVector2 (53.5 - (400 - 52) / 348 * ENEMY_SPEED * 6)
                     (300 - (300 - 300) / 348 * ENEMY_SPEED * 6)))
       (Some 6)).
Proof.
  unfold stepEnemy.
  cbn [isActive grunt gruntNamed negb attackCooldown dt stickFrame draws nextProjectiles
       playerHit spawned victory hitLog].
  change (default 0 (Some 0)) with 0.
  rewrite grunt_chases. cbn [b_vx b_vy b_shots b_draws b_cooldown].
  assert (Hpos : clampEnemy (x (position (grunt 52 300)) + (400 - 52) / 348 * ENEMY_SPEED)
                   (y (position (grunt 52 300)) + (300 - 300) / 348 * ENEMY_SPEED)
                 = (53.5, 300)).
  { rewrite clampEnemy_inside; cbn; unfold ENEMY_SPEED, CANVAS_WIDTH, CANVAS_HEIGHT;
      [f_equal; lra | lra | lra]. }
  rewrite Hpos.
  assert (Hfar : checkCollision (with_position createPlayer (mkVector2 400 300))
                   (with_position (grunt 52 300) (mkVector2 53.5 300)) = false).
  { apply bool_decide_eq_false_2. unfold getDistance. cbn.
    rewrite (sqrt_of_square _ 346.5) by lra.
    unfold PLAYER_SIZE, ENEMY_SIZE. lra. }
  rewrite Hfar.
  change ([tear 53.5 300] ++ []) with [tear 53.5 300].
  change (health (grunt 52 300)) with 10.
  rewrite tear_hits_grunt. cbn [hs_health hs_eX hs_eY].
  rewrite (bool_decide_eq_false_2 (10 - 3.5 <= 0)) by lra.
  cbn [andb orb isBossRoom isItemRoom fightRoom negb app].
  assert (Hface : getFacingFromVelocity ((400 - 52) / 348 * ENEMY_SPEED)
                    ((300 - 300) / 348 * ENEMY_SPEED) (facing (grunt 52 300)) = Some 6).
  { replace ((300 - 300) / 348 * ENEMY_SPEED) with 0 by lra.
    apply facing_east. unfold ENEMY_SPEED. lra. }
  rewrite Hface. reflexivity.
Qed.

(** The frame of [wallFight]: the tear hits, the knockback is applied
    after the clamp, and the enemy is stored at x = 44.5. *)
Lemma update_wallFight :
  update (stickFrame 0 0) wallFight
  = {| gameState := PLAYING;
       player := with_position createPlayer (mkVector2 400 300);
       rooms :=
         [with_enemies fightRoom
            [with_facing
               (with_position
                  (with_health (with_attackCooldown (grunt 52 300) (Some (0 - 16)))
                     (10 - 3.5))
                  (mkVector2 (53.5 - (400 - 52) / 348 * ENEMY_SPEED * 6)
                             (300 - (300 - 300) / 348 * ENEMY_SPEED * 6)))
               (Some 6)]];
       currentRoomIndex := 0;
       projectiles := [];
       lastShotTime := 0 |}.
Proof.
  unfold update.
  rewrite bool_decide_eq_true_2 by done. cbn [negb].
  change (rooms wallFight !! currentRoomIndex wallFight) with (Some fightRoom).
  rewrite moveVector_idle by done.
  assert (Hclamp : clampPlayer (player wallFight) fightRoom
                     (x (position (player wallFight)) + 0 * speed (player wallFight))
                     (y (position (player wallFight)) + 0 * speed (player wallFight))
                   = (400, 300)).
  { rewrite clampPlayer_inside;
      cbn; unfold wallThickness, PLAYER_SIZE, PLAYER_BASE_SPEED, CANVAS_WIDTH, CANVAS_HEIGHT;
      [f_equal; lra | lra | lra]. }
  rewrite Hclamp.
  rewrite shoot_cooling_down by (cbn; unfold fireRate; lia).
  cbn [enemiesLoop enemies fightRoom].
  change (projectiles wallFight ++ []) with [tear 53.5 300].
  change (player wallFight) with createPlayer.
  rewrite stepEnemy_wallFight.
  unfold commit.
  rewrite roomSwitch_inside by (unfold CANVAS_WIDTH, CANVAS_HEIGHT; lra).
  cbn [nextProjectiles playerHit draws spawned victory map filter items fightRoom
       orb existsb random stickFrame].
  rewrite (bool_decide_eq_false_2 (0.5 < 0.05)) by lra.
  rewrite !andb_false_r.
  rewrite getFacingFromVelocity_idle by (rewrite Rabs_R0; lra).
  reflexivity.
Qed.

(** C1, on the code.  After the frame of [wallFight] the enemy, still
    active, is stored at x = 44.5: outside the bounds [50, CANVAS_WIDTH-50]
    that the clamp before the projectile loop had enforced. *)
Theorem update_knockback_leaves_room_bounds :
  exists room e,
    rooms (update (stickFrame 0 0) wallFight) = [room]
    /\ enemies room = [e]
    /\ isActive e = true
    /\ x (position e) = 44.5
    /\ ~ (50 <= x (position e) <= CANVAS_WIDTH - 50).
Proof.
  rewrite update_wallFight. eexists _, _.
  split; [reflexivity|]. split; [reflexivity|]. split; [reflexivity|].
  cbn [x position with_position with_facing]. unfold ENEMY_SPEED. split; lra.
Qed.

Lemma strike_miss (enemy : Entity) (vx vy : number) (hs hs' : HitState)
    (p p' : Projectile) :
  strike enemy vx vy hs p = (hs', p', false) -> hs' = hs.
Proof.
  unfold strike.
  repeat match goal with
  | |- context [if ?c then _ else _] => destruct c
  end; by intros [= <- <-].
Qed.

Lemma hitLoop_all_missed (enemy : Entity) (vx vy : number) (ps : list Projectile) :
  forall (hs hs' : HitState) (ps' : list Projectile) (row : list bool),
  hitLoop enemy vx vy hs ps = (hs', ps', row) ->
  Forall (fun b => b = false) row -> hs' = hs.
Proof.
  induction ps as [|p ps IH]; intros hs hs' ps' row; cbn [hitLoop].
  - by intros [= <- <- <-].
  - destruct (strike enemy vx vy hs p) as [[hs1 p1] b] eqn:Hs.
    destruct (hitLoop enemy vx vy hs1 ps) as [[hs2 ps2] bs] eqn:Hl.
    intros [= <- <- <-] Hrow. apply Forall_cons in Hrow as [-> Hrow].
    apply strike_miss in Hs as ->. by eapply IH.
Qed.

(** An active enemy that no projectile hit in this frame is returned
    inside the room bounds: without knockback the clamp is the last word
    on its position. *)
Lemma stepEnemy_unhit_in_bounds f playerState currentRoom nextX nextY
    (st st1 : LoopState) (e w r : Entity) :
  stepEnemy f playerState currentRoom nextX nextY st e = (st1, w, r) ->
  isActive e = true ->
  (forall row, last (hitLog st1) = Some row -> Forall (fun b => b = false) row) ->
  50 <= x (position r) <= CANVAS_WIDTH - 50
  /\ 50 <= y (position r) <= CANVAS_HEIGHT - 50.
Proof.
  unfold stepEnemy. intros Hstep Hact Hrow. rewrite Hact in Hstep. cbn [negb] in Hstep.
  destruct (clampEnemy _ _) as [eX eY] eqn:Hclamp.
  destruct (hitLoop _ _ _ _ _) as [[hs projs] row] eqn:Hl.
  injection Hstep as <- <- <-. cbn in Hrow |- *.
  specialize (Hrow row). rewrite last_snoc in Hrow.
  apply (hitLoop_all_missed _ _ _ _ _ _ _ _ Hl) in Hrow; [|done]. subst hs.
  cbn [hs_eX hs_eY].
  pose proof (clampEnemy_in_bounds
    (x (position e) + b_vx (enemyBehaviour f nextX nextY e
                              (default 0 (attackCooldown e) - dt f) (draws st)))
    (y (position e) + b_vy (enemyBehaviour f nextX nextY e
                              (default 0 (attackCooldown e) - dt f) (draws st)))) as Hb.
  rewrite Hclamp in Hb. exact Hb.
Qed.


(** *** Projectiles against enemies *)

Lemma strike_spec (enemy : Entity) (vx vy : number) (hs hs' : HitState)
    (p p' : Projectile) (b : bool) :
  strike enemy vx vy hs p = (hs', p', b) ->
  hs_health hs' = hs_health hs - (if b then damage p else 0)
  /\ projectileAfter (id enemy) b p p'.
Proof.
  unfold strike, projectileAfter.
  destruct (isActive p) eqn:Hact; cbn [andb];
    [destruct (bool_decide_reflect (owner p = ByPlayer)) as [Hown|Hown]|];
    try (intros [= <- <- <-]; split; [lra|reflexivity]).
  destruct (piercing p) eqn:Hpierce; cbn [andb].
  - destruct (bool_decide_reflect (id enemy ∈ hitIds p)) as [Hin|Hin];
      [intros [= <- <- <-]; split; [lra|reflexivity]|].
    destruct (checkCollision _ _);
      [|intros [= <- <- <-]; split; [lra|reflexivity]].
    intros [= <- <- <-]. split.
    + by destruct (negb _ && negb _).
    + cbn. rewrite Hpierce. done.
  - destruct (checkCollision _ _);
      [|intros [= <- <- <-]; split; [lra|reflexivity]].
    intros [= <- <- <-]. split.
    + by destruct (negb _ && negb _).
    + cbn. rewrite Hpierce. done.
Qed.

Lemma hitLoop_spec (enemy : Entity) (vx vy : number) (ps : list Projectile) :
  forall (hs hs' : HitState) (ps' : list Projectile) (row : list bool),
  hitLoop enemy vx vy hs ps = (hs', ps', row) ->
  length ps' = length ps
  /\ length row = length ps
  /\ hs_health hs' = hs_health hs - damageDealt row ps
  /\ forall k p, ps !! k = Some p ->
       exists p', ps' !! k = Some p'
                  /\ projectileAfter (id enemy) (nth k row false) p p'.
Proof.
  induction ps as [|p0 ps IH]; intros hs hs' ps' row; cbn [hitLoop].
  - intros [= <- <- <-]. cbn. repeat split; [lra|]. intros k p Hk.
    by rewrite lookup_nil in Hk.
  - destruct (strike enemy vx vy hs p0) as [[hs1 p1] b] eqn:Hs.
    destruct (hitLoop enemy vx vy hs1 ps) as [[hs2 ps2] bs] eqn:Hl.
    intros [= <- <- <-].
    apply strike_spec in Hs as [Hh1 Hp1].
    destruct (IH _ _ _ _ Hl) as (Hlen & Hrow & Hh2 & Hslots).
    cbn [length damageDealt]. repeat split; [congruence | congruence | lra |].
    intros [|k] p Hk; cbn in Hk |- *.
    + injection Hk as <-. by exists p1.
    + by apply Hslots.
Qed.

Lemma projectileAfter_static (eid : string) (b : bool) (p p' : Projectile) :
  projectileAfter eid b p p' ->
  damage p' = damage p /\ owner p' = owner p /\ piercing p' = piercing p.
Proof.
  unfold projectileAfter. destruct b; [|by intros ->].
  intros (Ho & _ & Ho' & Hp & Hd & _). rewrite Ho, Ho'. done.
Qed.

Lemma damageDealt_ext (row : list bool) :
  forall ps ps' : list Projectile,
  (length row <= length ps)%nat ->
  (forall (k : nat) (p : Projectile), ps !! k = Some p ->
     exists p' : Projectile, ps' !! k = Some p' /\ damage p' = damage p) ->
  damageDealt row ps = damageDealt row ps'.
Proof.
  induction row as [|b row IH]; intros ps ps' Hlen Hslots; [by destruct ps, ps'|].
  destruct ps as [|p ps]; [cbn in Hlen; lia|].
  destruct (Hslots 0%nat p eq_refl) as (p' & Hp' & Hd).
  destruct ps' as [|q ps']; [done|]. cbn in Hp'. injection Hp' as ->.
  cbn [damageDealt]. rewrite Hd. f_equal.
  apply IH; [cbn in Hlen; lia|].
  intros k r Hk. exact (Hslots (S k) r Hk).
Qed.

Lemma stepEnemy_spec f playerState currentRoom nextX nextY
    (st st1 : LoopState) (e w r : Entity) :
  stepEnemy f playerState currentRoom nextX nextY st e = (st1, w, r) ->
  exists row,
    hitLog st1 = hitLog st ++ [row]
    /\ (length row <= length (nextProjectiles st1))%nat
    /\ health w = health e - damageDealt row (nextProjectiles st1)
    /\ forall k p, nextProjectiles st !! k = Some p ->
         exists p', nextProjectiles st1 !! k = Some p'
                    /\ projectileAfter (id e) (nth k row false) p p'.
Proof.
  unfold stepEnemy. destruct (isActive e); cbn [negb].
  - destruct (clampEnemy _ _) as [eX eY].
    destruct (hitLoop _ _ _ _ _) as [[hs projs] row] eqn:Hl.
    intros [= <- <- <-]. cbn.
    apply hitLoop_spec in Hl as (Hlen & Hrow & Hh & Hslots). cbn in Hh.
    exists row. split; [done|]. split; [lia|]. split.
    + rewrite Hh. f_equal. apply damageDealt_ext; [lia|].
      intros k p Hk. destruct (Hslots k p Hk) as (p' & Hp' & Hafter).
      exists p'. split; [done|]. by apply projectileAfter_static in Hafter as [? _].
    + intros k p Hk. apply Hslots. by apply lookup_app_l_Some.
  - intros [= <- <- <-]. cbn. exists []. split; [done|]. split; [cbn; lia|].
    split; [cbn; lra|].
    intros k p Hk. exists p. split; [done|]. by destruct k.
Qed.

Lemma projectileSummary_refl (p : Projectile) : projectileSummary p p [].
Proof.
  unfold projectileSummary. repeat split; try done.
  - by rewrite app_nil_r.
  - constructor.
  - intros i Hi. by apply elem_of_nil in Hi.
  - cbn. lia.
  - by rewrite andb_true_r.
Qed.

(** One more enemy in front of a summarised run. *)
Lemma projectileSummary_cons (eid : string) (b : bool) (p p1 p' : Projectile)
    (struck : list string) :
  projectileAfter eid b p p1 ->
  projectileSummary p1 p' struck ->
  projectileSummary p p' ((if b then [eid] else []) ++ struck).
Proof.
  unfold projectileAfter. destruct b; [|by intros ->].
  intros (Hown & Hact & Hown1 & Hpierce1 & Hdmg1 & Hcase).
  intros (Hdmg & Hown' & Hpierce' & Hsome & Hp & Hnp).
  cbn [app]. unfold projectileSummary.
  split; [congruence|]. split; [congruence|]. split; [congruence|].
  split; [done|].
  destruct (piercing p) eqn:Hpiercing.
  - destruct Hcase as (Hnew & Hids1 & Hact1).
    destruct (Hp Hpierce1) as (Hids' & Hact' & Hnodup & Hfresh).
    split; [|done]. intros _. repeat split.
    + rewrite Hids', Hids1, <- app_assoc. done.
    + congruence.
    + constructor; [|done]. intros Hin. apply (Hfresh _ Hin).
      rewrite Hids1. apply elem_of_app. right. by apply list_elem_of_singleton.
    + intros i Hi. apply elem_of_cons in Hi as [->|Hi]; [done|].
      intros Hin. apply (Hfresh _ Hi). rewrite Hids1. apply elem_of_app. by left.
  - destruct Hcase as (Hids1 & Hact1).
    destruct (Hnp Hpierce1) as (Hlen & Hids' & Hact').
    assert (Hnil : struck = []).
    { destruct struck as [|i struck]; [done|].
      destruct Hsome as [_ Habs]; [done|]. congruence. }
    subst struck. split; [done|]. intros _. repeat split.
    + cbn. lia.
    + congruence.
    + rewrite Hact', Hact1, Hact. done.
Qed.

Lemma projectileSummary_damage (p p' : Projectile) (struck : list string) :
  projectileSummary p p' struck -> damage p' = damage p.
Proof. by intros [? _]. Qed.

Lemma enemiesLoop_spec f playerState currentRoom nextX nextY (es : list Entity) :
  forall (st st' : LoopState) (written returned : list Entity),
  enemiesLoop f playerState currentRoom nextX nextY st es = (st', written, returned) ->
  exists rows,
    hitLog st' = hitLog st ++ rows
    /\ (forall i e, es !! i = Some e ->
          exists w row, written !! i = Some w /\ rows !! i = Some row
                        /\ health w = health e - damageDealt row (nextProjectiles st'))
    /\ (forall k p, nextProjectiles st !! k = Some p ->
          exists p', nextProjectiles st' !! k = Some p'
                     /\ projectileSummary p p' (struckIds k es rows)).
Proof.
  induction es as [|e es IH]; intros st st' written returned; cbn [enemiesLoop].
  - intros [= <- <- <-]. exists []. split; [by rewrite app_nil_r|]. split.
    + intros i e Hi. by rewrite lookup_nil in Hi.
    + intros k p Hk. exists p. split; [done|]. apply projectileSummary_refl.
  - destruct (stepEnemy _ _ _ _ _ st e) as [[st1 w] r] eqn:Hstep.
    destruct (enemiesLoop _ _ _ _ _ st1 es) as [[st2 ws] rs] eqn:Hloop.
    intros [= <- <- <-].
    apply stepEnemy_spec in Hstep as (row & Hlog1 & Hrowlen & Hhealth & Hslots1).
    destruct (IH _ _ _ _ Hloop) as (rows & Hlog2 & Henemies & Hslots2).
    exists (row :: rows). split; [|split].
    + rewrite Hlog2, Hlog1, <- app_assoc. done.
    + intros [|i] e0 Hi; cbn in Hi |- *.
      * injection Hi as <-. exists w, row. split; [done|]. split; [done|].
        rewrite Hhealth. f_equal. apply damageDealt_ext; [done|].
        intros k p Hk. destruct (Hslots2 k p Hk) as (p' & Hp' & Hsum).
        exists p'. split; [done|]. by eapply projectileSummary_damage.
      * by apply Henemies.
    + intros k p Hk.
      destruct (Hslots1 k p Hk) as (p1 & Hp1 & Hafter).
      destruct (Hslots2 k p1 Hp1) as (p' & Hp' & Hsum).
      exists p'. split; [done|]. cbn [struckIds].
      by eapply projectileSummary_cons.
Qed.

Lemma struckBy_nil (p : Projectile) : struckBy p [] = p.
Proof.
  unfold struckBy. destruct p as [e o pc ids]. cbn.
  destruct pc; [by rewrite app_nil_r|done].
Qed.

Lemma struckBy_app (p : Projectile) (l1 l2 : list string) :
  struckBy (struckBy p l1) l2 = struckBy p (l1 ++ l2).
Proof.
  unfold struckBy. destruct p as [e o pc ids]. cbn. destruct pc; cbn.
  - by rewrite <- app_assoc.
  - destruct l1 as [|a l1]; cbn; [done|].
    by destruct (bool_decide (l2 = [])).
Qed.

Lemma struckBy_owner (p : Projectile) (l : list string) : owner (struckBy p l) = owner p.
Proof. unfold struckBy. destruct (piercing p); [done|]. by destruct (bool_decide _). Qed.

Lemma pushedBack_succ (enemy : Entity) (v e : number) (n : nat) :
  pushedBack enemy v (pushedBack enemy v e 1) n = pushedBack enemy v e (S n).
Proof.
  unfold pushedBack. destruct (negb _ && negb _); [|done].
  symmetry. apply Nat.iter_succ_r.
Qed.

(** One pass of the loop body, exactly: the flag is the hit test, a hit
    costs the projectile's damage and one knockback, and the projectile
    comes out struck by this enemy or untouched. *)
Lemma strike_exact (enemy : Entity) (vx vy : number) (hs : HitState) (p : Projectile) :
  strike enemy vx vy hs p
  = let b := canHit enemy (hs_eX hs) (hs_eY hs) p in
    (mkHitState (hs_health hs - (if b then damage p else 0))
       (pushedBack enemy vx (hs_eX hs) (if b then 1 else 0))
       (pushedBack enemy vy (hs_eY hs) (if b then 1 else 0)),
     struckBy p (if b then [id enemy] else []), b).
Proof.
  cbv zeta. unfold strike, canHit, pushedBack, struckBy, proj_pushHitId, proj_deactivate.
  destruct hs as [h eX eY]. destruct p as [pe o pc ids].
  cbn [hs_health hs_eX hs_eY projectileEntity owner piercing hitIds].
  destruct (isActive pe), (bool_decide (o = ByPlayer)), pc,
    (bool_decide (id enemy ∈ ids)),
    (checkCollision pe (with_position enemy (mkVector2 eX eY))),
    (negb (bool_decide (variant enemy = Some TANK))
     && negb (bool_decide (type enemy = BOSS)));
    cbn; rewrite ?app_nil_r, ?Rminus_0_r; reflexivity.
Qed.

Lemma pushedBack_zero (enemy : Entity) (v e : number) : pushedBack enemy v e 0 = e.
Proof. unfold pushedBack. by destruct (negb _ && negb _). Qed.

Lemma pushedBack_add (enemy : Entity) (v e : number) (b : bool) (n : nat) :
  pushedBack enemy v (pushedBack enemy v e (if b then 1 else 0)) n
  = pushedBack enemy v e ((if b then 1 else 0) + n).
Proof.
  destruct b; [apply pushedBack_succ|]. by rewrite pushedBack_zero.
Qed.

Lemma canHit_enemy_owned (enemy : Entity) (eX eY : number) (p : Projectile) :
  owner p = ByEnemy -> canHit enemy eX eY p = false.
Proof.
  intros Ho. unfold canHit. rewrite (bool_decide_eq_false_2 (owner p = ByPlayer))
    by congruence.
  by rewrite andb_false_r.
Qed.

(** The projectile loop of one enemy, slot by slot. *)
Lemma hitLoop_exact (enemy : Entity) (vx vy : number) (ps : list Projectile) :
  forall (hs hs' : HitState) (ps' : list Projectile) (row : list bool),
  hitLoop enemy vx vy hs ps = (hs', ps', row) ->
  length row = length ps
  /\ length ps' = length ps
  /\ forall k p, ps !! k = Some p ->
       nth k row false
       = canHit enemy (pushedBack enemy vx (hs_eX hs) (hitsBefore row k))
           (pushedBack enemy vy (hs_eY hs) (hitsBefore row k)) p
       /\ ps' !! k = Some (struckBy p (if nth k row false then [id enemy] else [])).
Proof.
  induction ps as [|p0 ps IH]; intros hs hs' ps' row; cbn [hitLoop].
  - intros [= <- <- <-]. split; [done|]. split; [done|].
    intros k p Hk. by rewrite lookup_nil in Hk.
  - rewrite strike_exact. cbv beta iota zeta.
    set (b := canHit enemy (hs_eX hs) (hs_eY hs) p0).
    match goal with
    | |- context [hitLoop enemy vx vy ?h ps] =>
        destruct (hitLoop enemy vx vy h ps) as [[hs2 ps2] bs] eqn:Hl
    end.
    intros [= <- <- <-].
    destruct (IH _ _ _ _ Hl) as (Hrow & Hlen & Hslots). cbn [hs_eX hs_eY] in Hslots.
    split; [cbn; lia|]. split; [cbn; lia|].
    intros [|k] p Hk; cbn in Hk.
    + injection Hk as <-. cbn [nth hitsBefore]. rewrite !pushedBack_zero. done.
    + destruct (Hslots k p Hk) as [Hflag Hp]. cbn [nth hitsBefore].
      rewrite !pushedBack_add in Hflag. done.
Qed.

Lemma enemyBehaviour_velocity (f : Frame) (nextX nextY : number) (e : Entity)
    (cd : number) (k : nat) :
  b_vx (enemyBehaviour f nextX nextY e cd k) = b_vx (enemyBehaviour f nextX nextY e cd 0)
  /\ b_vy (enemyBehaviour f nextX nextY e cd k) = b_vy (enemyBehaviour f nextX nextY e cd 0).
Proof.
  unfold enemyBehaviour.
  repeat match goal with
  | |- context [bool_decide ?P] => destruct (bool_decide P)
  end; done.
Qed.

Lemma enemyBehaviour_shots_owner (f : Frame) (nextX nextY : number) (e : Entity)
    (cd : number) (k : nat) :
  Forall (fun q : Projectile => owner q = ByEnemy)
    (b_shots (enemyBehaviour f nextX nextY e cd k)).
Proof.
  unfold enemyBehaviour.
  repeat match goal with
  | |- context [bool_decide ?P] => destruct (bool_decide P)
  end; cbn; by repeat constructor.
Qed.

(** One enemy of the loop: its row of the log is the hit test of every
    projectile that was there when its turn came, taken where the
    knockbacks so far have pushed it; what the enemy itself fires in its
    turn hits nobody. *)
Lemma stepEnemy_exact f playerState currentRoom nextX nextY
    (st st1 : LoopState) (e w r : Entity) :
  stepEnemy f playerState currentRoom nextX nextY st e = (st1, w, r) ->
  exists row,
    hitLog st1 = hitLog st ++ [row]
    /\ (forall k p, nextProjectiles st !! k = Some p ->
          nth k row false
          = isActive e
            && canHit e
                 (pushedBack e (enemyVelocity f nextX nextY e).1
                    (enemyStart f nextX nextY e).1 (hitsBefore row k))
                 (pushedBack e (enemyVelocity f nextX nextY e).2
                    (enemyStart f nextX nextY e).2 (hitsBefore row k)) p
          /\ nextProjectiles st1 !! k
             = Some (struckBy p (if nth k row false then [id e] else [])))
    /\ (forall k, (length (nextProjectiles st) <= k)%nat ->
          nth k row false = false
          /\ forall q, nextProjectiles st1 !! k = Some q -> owner q = ByEnemy).
Proof.
  unfold stepEnemy. destruct (isActive e) eqn:Hact; cbn [negb andb].
  - unfold enemyStart, enemyVelocity. cbn [fst snd].
    destruct (enemyBehaviour_velocity f nextX nextY e
                (default 0 (attackCooldown e) - dt f) (draws st)) as [<- <-].
    set (b := enemyBehaviour f nextX nextY e (default 0 (attackCooldown e) - dt f)
                (draws st)).
    pose proof (enemyBehaviour_shots_owner f nextX nextY e
                  (default 0 (attackCooldown e) - dt f) (draws st)) as Hshots.
    fold b in Hshots.
    destruct (clampEnemy _ _) as [eX eY] eqn:Hclamp.
    destruct (hitLoop _ _ _ _ _) as [[hs projs] row] eqn:Hl.
    intros [= <- <- <-]. cbn [hitLog nextProjectiles].
    apply hitLoop_exact in Hl as (Hrow & Hlen & Hslots). cbn [hs_eX hs_eY] in Hslots.
    exists row. split; [done|]. split.
    + intros k p Hk. cbn [fst snd]. apply Hslots. by apply lookup_app_l_Some.
    + intros k Hk.
      destruct ((nextProjectiles st ++ b_shots b) !! k) as [q0|] eqn:Hq0.
      * destruct (Hslots k q0 Hq0) as [Hflag Hq].
        assert (Hown : owner q0 = ByEnemy).
        { apply lookup_app_Some in Hq0 as [Hq0|[_ Hq0]];
            [apply lookup_lt_Some in Hq0; lia|].
          rewrite Forall_forall in Hshots. apply Hshots.
          by eapply list_elem_of_lookup_2. }
        rewrite canHit_enemy_owned in Hflag by done.
        split; [done|]. intros q Hq'. rewrite Hq in Hq'. injection Hq' as <-.
        by rewrite struckBy_owner.
      * apply lookup_ge_None in Hq0. split.
        -- apply nth_overflow. lia.
        -- intros q Hq. apply lookup_lt_Some in Hq. lia.
  - intros [= <- <- <-]. cbn [hitLog nextProjectiles]. exists []. split; [done|]. split.
    + intros k p Hk. split; [by destruct k|]. destruct k; by rewrite struckBy_nil.
    + intros k Hk. split; [by destruct k|]. intros q Hq.
      apply lookup_lt_Some in Hq. lia.
Qed.



(** A basic enemy within five pixels of the player stands still: its
    step is the projectile loop at its own position. *)
Lemma stepEnemy_standing (f : Frame) (room : Room) (enemyId : string) (px py : number)
    (st : LoopState) (hs : HitState) (ps' : list Projectile) (row : list bool) :
  sqrt ((400 - px) * (400 - px) + (300 - py) * (300 - py)) <= 5 ->
  50 <= px <= CANVAS_WIDTH - 50 -> 50 <= py <= CANVAS_HEIGHT - 50 ->
  hitLoop (gruntNamed enemyId px py) 0 0 (mkHitState 10 px py) (nextProjectiles st)
  = (hs, ps', row) ->
  0 < hs_health hs ->
  stepEnemy f createPlayer room 400 300 st (gruntNamed enemyId px py)
  = (mkLoopState ps'
       (playerHit st
        || checkCollision (with_position createPlayer (mkVector2 400 300))
             (with_position (gruntNamed enemyId px py) (mkVector2 px py)))
       (draws st) (spawned st) (victory st) (hitLog st ++ [row]),
     with_health (with_attackCooldown (gruntNamed enemyId px py) (Some (0 - dt f)))
       (hs_health hs),
     with_position
       (with_health (with_attackCooldown (gruntNamed enemyId px py) (Some (0 - dt f)))
          (hs_health hs))
       (mkVector2 (hs_eX hs) (hs_eY hs))).
Proof.
  intros Hnear Hx Hy Hloop Halive. unfold stepEnemy.
  cbn [isActive gruntNamed negb attackCooldown].
  change (default 0 (Some 0)) with 0.
  assert (Hb : enemyBehaviour f 400 300 (gruntNamed enemyId px py) (0 - dt f) (draws st)
               = mkBehaviour 0 0 (0 - dt f) [] (draws st)).
  { unfold enemyBehaviour. cbn [variant gruntNamed position x y speed].
    rewrite !bool_decide_eq_false_2 by (done || lra). reflexivity. }
  rewrite Hb. cbn [b_vx b_vy b_shots b_draws b_cooldown position gruntNamed x y].
  rewrite !Rplus_0_r, app_nil_r.
  rewrite clampEnemy_inside by done.
  change (health (gruntNamed enemyId px py)) with 10.
  rewrite Hloop.
  rewrite (bool_decide_eq_false_2 (hs_health hs <= 0)) by lra.
  cbn [andb orb app].
  rewrite getFacingFromVelocity_idle by (rewrite Rabs_R0; lra).
  rewrite orb_false_r, app_nil_r. reflexivity.
Qed.

Lemma checkCollision_near (a b : Entity) (d : number) :
  0 <= d ->
  d * d = (x (position b) - x (position a)) ^ 2 + (y (position b) - y (position a)) ^ 2 ->
  d < size a / 2 + size b / 2 ->
  checkCollision a b = true.
Proof.
  intros Hd Hsq Hlt. apply bool_decide_eq_true_2. unfold getDistance.
  by rewrite (sqrt_of_square _ d).
Qed.

(** The piercing tear of [crowd] goes through both enemies: each loses
    3.5 health, both ids end up in the ledger, the tear stays active. *)
Lemma enemiesLoop_crowd (f : Frame) (room : Room) :
  enemiesLoop f createPlayer room 400 300
    (mkLoopState [piercingTear 400 300] false 0 [] false []) crowd
  = (mkLoopState
       [mkProjectile (tear 400 300) ByPlayer true ["enemy-1,0-0"; "enemy-1,0-1"]]
       true 0 [] false [[true]; [true]],
     [with_health (with_attackCooldown (gruntNamed "enemy-1,0-0" 400 300)
                     (Some (0 - dt f))) (10 - 3.5);
      with_health (with_attackCooldown (gruntNamed "enemy-1,0-1" 403 300)
                     (Some (0 - dt f))) (10 - 3.5)],
     [with_position
        (with_health (with_attackCooldown (gruntNamed "enemy-1,0-0" 400 300)
                        (Some (0 - dt f))) (10 - 3.5))
        (mkVector2 (400 - 0 * 6) (300 - 0 * 6));
      with_position
        (with_health (with_attackCooldown (gruntNamed "enemy-1,0-1" 403 300)
                        (Some (0 - dt f))) (10 - 3.5))
        (mkVector2 (403 - 0 * 6) (300 - 0 * 6))]).
Proof.
  unfold crowd. cbn [enemiesLoop].
  assert (HhitA : hitLoop (gruntNamed "enemy-1,0-0" 400 300) 0 0 (mkHitState 10 400 300)
                    [piercingTear 400 300]
                  = (mkHitState (10 - 3.5) (400 - 0 * 6) (300 - 0 * 6),
                     [mkProjectile (tear 400 300) ByPlayer true ["enemy-1,0-0"]], [true])).
  { cbn [hitLoop]. unfold strike. cbn [hs_eX hs_eY hs_health].
    rewrite (checkCollision_same_position (piercingTear 400 300))
      by (done || cbn; unfold PROJECTILE_SIZE, ENEMY_SIZE; lra).
    reflexivity. }
  rewrite (fun H1 H2 H3 =>
             stepEnemy_standing f room "enemy-1,0-0" 400 300
               (mkLoopState [piercingTear 400 300] false 0 [] false [])
               _ _ _ H1 H2 H3 HhitA);
    [| rewrite (sqrt_of_square _ 0); lra
     | unfold CANVAS_WIDTH; lra | unfold CANVAS_HEIGHT; lra | cbn; lra ].
  cbn [hitLog playerHit draws spawned victory app orb hs_health hs_eX hs_eY].
  rewrite (checkCollision_same_position (with_position createPlayer _))
    by (done || cbn; unfold PLAYER_SIZE, ENEMY_SIZE; lra).
  assert (HhitB : hitLoop (gruntNamed "enemy-1,0-1" 403 300) 0 0 (mkHitState 10 403 300)
                    [mkProjectile (tear 400 300) ByPlayer true ["enemy-1,0-0"]]
                  = (mkHitState (10 - 3.5) (403 - 0 * 6) (300 - 0 * 6),
                     [mkProjectile (tear 400 300) ByPlayer true
                        ["enemy-1,0-0"; "enemy-1,0-1"]], [true])).
  { cbn [hitLoop]. unfold strike. cbn [hs_eX hs_eY hs_health].
    rewrite (checkCollision_near _ _ 3)
      by (cbn; unfold PROJECTILE_SIZE, ENEMY_SIZE; lra).
    reflexivity. }
  rewrite (fun H1 H2 H3 =>
             stepEnemy_standing f room "enemy-1,0-1" 403 300
               (mkLoopState [mkProjectile (tear 400 300) ByPlayer true ["enemy-1,0-0"]]
                  true 0 [] false [[true]])
               _ _ _ H1 H2 H3 HhitB);
    [| rewrite (sqrt_of_square _ 3); lra
     | unfold CANVAS_WIDTH; lra | unfold CANVAS_HEIGHT; lra | cbn; lra ].
  reflexivity.
Qed.


(** *** A transition toward a missing room, in general *)

Lemma enemiesLoop_inactive f playerState currentRoom nextX nextY (es : list Entity) :
  forall st : LoopState,
  Forall (fun e : Entity => isActive e = false) es ->
  exists log,
    enemiesLoop f playerState currentRoom nextX nextY st es
    = (mkLoopState (nextProjectiles st) (playerHit st) (draws st) (spawned st)
         (victory st) log, es, es).
Proof.
  induction es as [|e es IH]; intros st Hall; cbn [enemiesLoop].
  - exists (hitLog st). by destruct st.
  - apply Forall_cons in Hall as [He Hall]. unfold stepEnemy. rewrite He. cbn [negb].
    destruct (IH (mkLoopState (nextProjectiles st) (playerHit st) (draws st)
                    (spawned st) (victory st) (hitLog st ++ [[]])) Hall) as [log Hlog].
    rewrite Hlog. by exists log.
Qed.

Lemma enemiesLoop_keeps_slots f playerState currentRoom nextX nextY
    (st st' : LoopState) (es written returned : list Entity) :
  enemiesLoop f playerState currentRoom nextX nextY st es = (st', written, returned) ->
  (length (nextProjectiles st) <= length (nextProjectiles st'))%nat.
Proof.
  intros Hloop. apply enemiesLoop_spec in Hloop as (rows & _ & _ & Hslots).
  destruct (decide (length (nextProjectiles st) <= length (nextProjectiles st'))%nat)
    as [|Hgt]; [done|].
  destruct (lookup_lt_is_Some_2 (nextProjectiles st) (length (nextProjectiles st')))
    as [p Hp]; [lia|].
  destruct (Hslots _ _ Hp) as (p' & Hp' & _).
  apply lookup_lt_Some in Hp'. lia.
Qed.

Lemma filter_none {A} (P : A -> Prop) `{forall a, Decision (P a)} (l : list A) :
  Forall (fun a => ~ P a) l -> filter P l = [].
Proof.
  induction 1 as [|a l Ha _ IH]; [done|]. by rewrite filter_cons_False.
Qed.

Lemma findRoomIndex_missing (rs : list Room) (gx gy : Z) :
  (forall r, r ∈ rs -> ~ (gridX r = gx /\ gridY r = gy)) ->
  findRoomIndex rs gx gy = None.
Proof.
  intros Hnone. unfold findRoomIndex.
  destruct (list_find _ rs) as [[i r]|] eqn:Hfind; [|done].
  apply list_find_Some in Hfind as (Hi & Hr & _).
  exfalso. apply (Hnone r); [by eapply list_elem_of_lookup_2|done].
Qed.

(** What the guard on the room lookup protects, whatever the room
    holds.  A frame in which the player's tentative position crosses a
    boundary with a door while the room counts as cleared, and no room
    exists at the target cell: the current room index stays; no position,
    health or facing is written to the player, who changes only by the
    items picked up in that frame; the stored projectile list keeps its
    length and, when the enemies of the room are all inactive, its
    content; every room other than the current one is unchanged, and the
    current one keeps id, grid cell and doors. *)
Lemma update_skips_switch_to_missing_room (f : Frame) (s : Session) (room : Room)
    (dx dy nextX nextY : number) (gx gy : Z) (spawnX spawnY : number) :
  gameState s = PLAYING ->
  rooms s !! currentRoomIndex s = Some room ->
  moveVector f = (dx, dy) ->
  clampPlayer (player s) room
    (x (position (player s)) + dx * speed (player s))
    (y (position (player s)) + dy * speed (player s)) = (nextX, nextY) ->
  roomSwitch room nextX nextY = Some (gx, gy, spawnX, spawnY) ->
  isRoomCleared room = true ->
  (forall r, r ∈ rooms s -> ~ (gridX r = gx /\ gridY r = gy)) ->
  let s' := update f s in
  let playerAt := with_position (player s) (mkVector2 nextX nextY) in
  currentRoomIndex s' = currentRoomIndex s
  /\ player s'
     = fold_left (fun p it => handleItemPickup it p)
         (filter (fun it => pickedUp playerAt it) (items room)) (player s)
  /\ (Forall (fun it => pickedUp playerAt it = false) (items room) ->
      player s' = player s)
  /\ length (projectiles s') = length (projectiles s)
  /\ (Forall (fun e : Entity => isActive e = false) (enemies room) ->
      projectiles s' = projectiles s)
  /\ (forall i, i <> currentRoomIndex s -> rooms s' !! i = rooms s !! i)
  /\ (exists r', rooms s' !! currentRoomIndex s = Some r'
                 /\ room_id r' = room_id room /\ gridX r' = gridX room
                 /\ gridY r' = gridY room /\ doors r' = doors room).
Proof.
  intros Hplay Hroom Hmove Hclamp Hswitch Hcleared Hnone. cbv zeta.
  unfold update.
  rewrite (bool_decide_eq_true_2 _ Hplay). cbn [negb].
  rewrite Hroom, Hmove, Hclamp.
  destruct (shoot _ _ _ _ _) as [shots lastShot].
  destruct (enemiesLoop _ _ _ _ _ _ _) as [[st written] roomEnemies] eqn:Hloop.
  unfold commit. rewrite Hswitch, Hcleared.
  rewrite findRoomIndex_missing; cycle 1.
  { intros r Hr. apply list_elem_of_lookup in Hr as [i Hr].
    destruct (decide (i = currentRoomIndex s)) as [->|Hne].
    - rewrite list_lookup_insert_eq in Hr by (by eapply lookup_lt_Some).
      injection Hr as <-. cbn.
      apply (Hnone room). by eapply list_elem_of_lookup_2.
    - rewrite list_lookup_insert_ne in Hr by done.
      apply (Hnone r). by eapply list_elem_of_lookup_2. }
  cbn [currentRoomIndex player projectiles rooms].
  split; [done|]. split; [done|]. split.
  { intros Hno. rewrite filter_none; [done|].
    eapply Forall_impl; [exact Hno|]. cbn. intros it Hit Hpick.
    rewrite Hit in Hpick. exact Hpick. }
  split.
  { apply enemiesLoop_keeps_slots in Hloop. cbn in Hloop.
    rewrite length_take, length_app in *. lia. }
  split.
  { intros Hall.
    destruct (enemiesLoop_inactive f (player s) room nextX nextY (enemies room)
                (mkLoopState (projectiles s ++ shots) false 0 [] false []) Hall)
      as [log Hlog].
    rewrite Hlog in Hloop. injection Hloop as <- _ _. cbn.
    by rewrite take_app_length. }
  split.
  { intros i Hi. by rewrite list_lookup_insert_ne. }
  eexists. split; [apply list_lookup_insert_eq; by eapply lookup_lt_Some|done].
Qed.

Lemma update_skips_switch_atTopDoor :
  currentRoomIndex (update (stickFrame 0 (-1)) atTopDoor) = 0%nat
  /\ player (update (stickFrame 0 (-1)) atTopDoor) = player atTopDoor
  /\ projectiles (update (stickFrame 0 (-1)) atTopDoor) = [].
Proof.
  assert (Hmove : moveVector (stickFrame 0 (-1)) = (0, -1))
    by (apply moveVector_unit; [done|lra]).
  destruct (update_skips_switch_to_missing_room (stickFrame 0 (-1)) atTopDoor deadEndRoom
              0 (-1) 400 18.5 0 (-1) (CANVAS_WIDTH / 2) (CANVAS_HEIGHT - 80)
              eq_refl eq_refl Hmove clampPlayer_atTopDoor roomSwitch_atTopDoor eq_refl)
    as (Hidx & _ & Hplayer & _ & Hprojs & _).
  - intros r Hr. apply list_elem_of_singleton in Hr as ->. cbn. lia.
  - split; [exact Hidx|]. split.
    + apply Hplayer. constructor.
    + apply Hprojs. repeat constructor.
Qed.
(** The same frame when, besides, every enemy of the room is inactive and
    the player touches no item: index, player and projectiles are the
    ones before, and the room list is the one before with the current
    room flagged cleared; so the frame changes nothing at all when the
    flag was set already, and the flag is the one thing it changes
    otherwise. *)
Lemma update_missing_room_only_marks_cleared (f : Frame) (s : Session) (room : Room)
    (dx dy nextX nextY : number) (gx gy : Z) (spawnX spawnY : number) :
  gameState s = PLAYING ->
  rooms s !! currentRoomIndex s = Some room ->
  moveVector f = (dx, dy) ->
  clampPlayer (player s) room
    (x (position (player s)) + dx * speed (player s))
    (y (position (player s)) + dy * speed (player s)) = (nextX, nextY) ->
  roomSwitch room nextX nextY = Some (gx, gy, spawnX, spawnY) ->
  isRoomCleared room = true ->
  (forall r, r ∈ rooms s -> ~ (gridX r = gx /\ gridY r = gy)) ->
  Forall (fun e : Entity => isActive e = false) (enemies room) ->
  Forall (fun it : Item =>
            pickedUp (with_position (player s) (mkVector2 nextX nextY)) it = false)
    (items room) ->
  let s' := update f s in
  currentRoomIndex s' = currentRoomIndex s
  /\ player s' = player s
  /\ projectiles s' = projectiles s
  /\ rooms s' = <[currentRoomIndex s := with_cleared room true]> (rooms s)
  /\ (cleared room = true -> rooms s' = rooms s).
Proof.
  intros Hplay Hroom Hmove Hclamp Hswitch Hcleared Hnone Hdead Hnopick. cbv zeta.
  assert (Hrooms : rooms (update f s)
                   = <[currentRoomIndex s := with_cleared room true]> (rooms s)).
  { unfold update.
    rewrite (bool_decide_eq_true_2 _ Hplay). cbn [negb].
    rewrite Hroom, Hmove, Hclamp.
    destruct (shoot _ _ _ _ _) as [shots lastShot].
    destruct (enemiesLoop_inactive f (player s) room nextX nextY (enemies room)
                (mkLoopState (projectiles s ++ shots) false 0 [] false []) Hdead)
      as [log ->].
    unfold commit. rewrite Hswitch, Hcleared. cbn [spawned].
    assert (Hitems : map (fun it => if pickedUp (with_position (player s)
                                                   (mkVector2 nextX nextY)) it
                                    then item_deactivate it else it) (items room)
                     = items room).
    { clear -Hnopick. induction Hnopick as [|it its Hit _ IH]; [done|].
      cbn [map]. by rewrite Hit, IH. }
    rewrite Hitems, app_nil_r.
    assert (Hroom' : with_cleared (with_items (with_enemies room (enemies room))
                                     (items room)) true
                     = with_cleared room true) by (by destruct room).
    rewrite Hroom'.
    by destruct (findRoomIndex _ _ _). }
  destruct (update_skips_switch_to_missing_room f s room dx dy nextX nextY gx gy
              spawnX spawnY Hplay Hroom Hmove Hclamp Hswitch Hcleared Hnone)
    as (Hidx & _ & Hplayer & _ & Hprojs & _).
  split; [exact Hidx|]. split; [by apply Hplayer|]. split; [by apply Hprojs|].
  split; [exact Hrooms|].
  intros Hflag. rewrite Hrooms. apply list_insert_id.
  rewrite Hroom. f_equal. destruct room. cbn in *. by subst.
Qed.

(** *** Pickups inside a frame *)

(** In an ordinary frame the position write that ends [update] also
    writes [health: nextPlayerHealth], a value computed before the pickup;
    applied after the updater of [handleItemPickup], it undoes the heal of
    a HEALTH item while the raised maximum stays. *)
Lemma update_pickup_heal_overwritten :
  let s' := update (stickFrame 0 0) woundedSession in
  gameState s' = ITEM_PICKUP_ANIMATION
  /\ maxHealth (player s') = 6 + 2
  /\ health (player s') = 3.
Proof.
  cbv zeta. unfold update.
  rewrite bool_decide_eq_true_2 by done. cbn [negb].
  change (rooms woundedSession !! currentRoomIndex woundedSession) with (Some lootRoom).
  rewrite moveVector_idle by done.
  assert (Hclamp : clampPlayer (player woundedSession) lootRoom
                     (x (position (player woundedSession))
                      + 0 * speed (player woundedSession))
                     (y (position (player woundedSession))
                      + 0 * speed (player woundedSession))
                   = (400, 300)).
  { rewrite clampPlayer_inside;
      cbn; unfold wallThickness, PLAYER_SIZE, PLAYER_BASE_SPEED, CANVAS_WIDTH, CANVAS_HEIGHT;
      [f_equal; lra | lra | lra]. }
  rewrite Hclamp.
  rewrite shoot_cooling_down by (cbn; unfold fireRate; lia).
  cbn [enemiesLoop enemies lootRoom startRoom with_items].
  unfold commit.
  rewrite roomSwitch_inside by (unfold CANVAS_WIDTH, CANVAS_HEIGHT; lra).
  assert (Hpick : pickedUp (with_position (player woundedSession) (mkVector2 400 300)) lunch
                  = true).
  { unfold pickedUp. cbn [isActive lunch makeItem itemEntity andb].
    apply checkCollision_same_position;
      [reflexivity | cbn; unfold PLAYER_SIZE; lra | cbn; unfold ITEM_SIZE; lra]. }
  cbn [items lootRoom startRoom with_items].
  rewrite (filter_cons_True _ lunch []) by (by rewrite Hpick).
  rewrite filter_nil.
  cbn [nextProjectiles playerHit draws victory map existsb orb andb fold_left
       gameState player health maxHealth with_facing with_health with_position].
  change (projectiles woundedSession ++ []) with (@nil Projectile).
  cbn [map existsb andb].
  rewrite (bool_decide_eq_false_2 ([lunch] = [])) by discriminate. cbn [negb].
  repeat split.
Qed.

(* ------------------------------------------------------------------ *)
(* ------------------------------------------------------------------ *)
(** * Further properties of the code *)

(** ** Facing and input *)

Lemma Math_atan2_range (vy vx : number) : - PI < Math_atan2 vy vx <= PI.
Proof.
  pose proof PI_RGT_0 as Hpi. unfold Math_atan2.
  destruct (bool_decide_reflect (0 < vx)) as [Hx|Hx].
  { pose proof (atan_bound (vy / vx)). lra. }
  destruct (bool_decide_reflect (vx < 0)) as [Hx'|Hx'].
  - pose proof (atan_bound (vy / vx)) as Hb.
    destruct (bool_decide_reflect (0 <= vy)) as [Hy|Hy].
    + assert (vy / vx <= 0).
      { unfold Rdiv. assert (/ vx < 0) by (by apply Rinv_lt_0_compat). nra. }
      assert (atan (vy / vx) <= 0).
      { destruct (Req_dec (vy / vx) 0) as [->|Hne]; [rewrite atan_0; lra|].
        rewrite <- atan_0. apply Rlt_le, atan_increasing. lra. }
      lra.
    + assert (0 < vy / vx).
      { unfold Rdiv. assert (/ vx < 0) by (by apply Rinv_lt_0_compat). nra. }
      assert (0 < atan (vy / vx)) by (rewrite <- atan_0; by apply atan_increasing).
      lra.
  - repeat match goal with
    | |- context [bool_decide ?P] => destruct (bool_decide_reflect P)
    end; lra.
Qed.

Lemma Math_floor_bounds (r : number) : IZR (Math_floor r) <= r < IZR (Math_floor r) + 1.
Proof. unfold Math_floor. pose proof (base_Int_part r). lra. Qed.

(** X1.  Whenever the vector is not below the idle threshold, the facing
    returned is one of the eight sector indices 0..7, whatever the
    previous facing was. *)
Theorem getFacingFromVelocity_is_sector (vx vy : number) (f : option number) :
  ~ (Rabs vx < 0.1 /\ Rabs vy < 0.1) ->
  exists k : Z, (0 <= k <= 7)%Z /\ getFacingFromVelocity vx vy f = Some (IZR k).
Proof.
  intros Hmove. unfold getFacingFromVelocity.
  rewrite (idle_guard_false _ _ Hmove). cbv zeta.
  pose proof PI_RGT_0 as Hpi. pose proof (Math_atan2_range vy vx) as [Hlo Hhi].
  set (a := Math_atan2 vy vx) in *.
  assert (Hdeg : -180 < a * (180 / PI) <= 180).
  { assert (Hc : 180 / PI * PI = 180) by (field; lra).
    assert (Hc0 : 0 < 180 / PI) by (apply Rdiv_lt_0_compat; lra).
    set (c := 180 / PI) in *. nra. }
  set (deg := if bool_decide (a * (180 / PI) < 0) then _ else _).
  assert (Hdeg' : 0 <= deg < 360).
  { unfold deg. destruct (bool_decide_reflect (a * (180 / PI) < 0)); lra. }
  assert (Hrem : 0 <= js_rem (deg + 22.5) 360 < 360).
  { destruct (Rlt_dec (deg + 22.5) 360) as [Hsmall|Hbig].
    - rewrite js_rem_small by lra. lra.
    - unfold js_rem. rewrite (Math_trunc_nonneg _ 1); lra. }
  set (r := js_rem (deg + 22.5) 360) in *.
  pose proof (Math_floor_bounds (r / 45)) as [Hf1 Hf2].
  set (i := Math_floor (r / 45)) in *.
  assert (Hi : (0 <= i <= 7)%Z).
  { split.
    - apply Z.lt_succ_r, lt_IZR. rewrite succ_IZR. lra.
    - apply Z.lt_succ_r, lt_IZR. change (Z.succ 7) with 8%Z. lra. }
  exists (Z.rem (i - 2 + 8) 8). split; [|reflexivity].
  rewrite Z.rem_mod_nonneg by lia.
  pose proof (Z.mod_pos_bound (i - 2 + 8) 8). lia.
Qed.

Lemma getFacingFromVelocity_is_sector_witness :
  exists k : Z, (0 <= k <= 7)%Z /\ getFacingFromVelocity 3 (-4) None = Some (IZR k).
Proof.
  apply (getFacingFromVelocity_is_sector 3 (-4) None).
  intros [H _]. rewrite Rabs_pos_eq in H; lra.
Defined.

(** X2.  The direction the player moves in is never longer than 1,
    whatever the stick and the keys say: holding W and D, or pushing the
    stick and a key the same way, gives no more than full speed. *)
Theorem moveVector_at_most_unit (f : Frame) :
  (moveVector f).1 * (moveVector f).1 + (moveVector f).2 * (moveVector f).2 <= 1.
Proof.
  unfold moveVector. destruct (combinedInput f) as [dx dy].
  set (q := dx * dx + dy * dy).
  assert (Hq : 0 <= q) by (unfold q; nra).
  pose proof (sqrt_pos q) as Hlen. pose proof (sqrt_sqrt q Hq) as Hsq.
  destruct (bool_decide_reflect (sqrt q > 1)) as [Hbig|Hsmall].
  - cbn [fst snd]. assert (Hne : sqrt q <> 0) by lra.
    replace (dx / sqrt q * (dx / sqrt q) + dy / sqrt q * (dy / sqrt q))
      with (q / (sqrt q * sqrt q)) by (unfold q; field; exact Hne).
    rewrite Hsq. right. field. nra.
  - destruct (bool_decide_reflect (sqrt q < 0.1)); cbn [fst snd]; [lra|].
    fold q. nra.
Qed.

(** X3.  Opposite keys cancel: with W and S both held the vertical input
    is the stick's alone, and with A and D both held so is the horizontal
    one. *)
Theorem opposite_keys_cancel (f : Frame) :
  (keyDown f "KeyW" = true -> keyDown f "KeyS" = true ->
   (combinedInput f).2 = y (moveInput f))
  /\ (keyDown f "KeyA" = true -> keyDown f "KeyD" = true ->
      (combinedInput f).1 = x (moveInput f)).
Proof.
  unfold combinedInput. split; intros -> ->; cbn [fst snd]; [lra|].
  destruct (keyDown f "KeyW"), (keyDown f "KeyS"); cbn; lra.
Qed.

Lemma opposite_keys_cancel_witness :
  (combinedInput (tugOfWarFrame 0.3 0.7)).2 = 0.7.
Proof.
  apply (proj1 (opposite_keys_cancel (tugOfWarFrame 0.3 0.7)));
    apply bool_decide_eq_true_2; set_solver.
Defined.

(** X4.  The joystick hands on a vector whose components lie in [-1, 1]
    and draws its knob within [RADIUS] of the centre, wherever the pointer
    is; while the pointer is within [RADIUS] of the centre the output is
    the offset divided by [RADIUS] and the knob sits under the pointer. *)
Theorem updatePosition_clamps (left top width height clientX clientY : number) :
  let r := updatePosition left top width height clientX clientY in
  let dx := clientX - (left + width / 2) in
  let dy := clientY - (top + height / 2) in
  (-1 <= x r.2 <= 1 /\ -1 <= y r.2 <= 1)
  /\ x r.1 * x r.1 + y r.1 * y r.1 <= RADIUS * RADIUS
  /\ (dx * dx + dy * dy <= RADIUS * RADIUS ->
      r = (mkVector2 dx dy, mkVector2 (dx / RADIUS) (dy / RADIUS))).
Proof.
  cbv zeta. unfold updatePosition.
  set (dx := clientX - (left + width / 2)). set (dy := clientY - (top + height / 2)).
  set (q := dx * dx + dy * dy).
  assert (Hq : 0 <= q) by (unfold q; nra).
  pose proof (sqrt_pos q) as Hlen. pose proof (sqrt_sqrt q Hq) as Hsq.
  assert (Hclamp : forall v, -1 <= Rmax (-1) (Rmin 1 v) <= 1).
  { intros v. unfold Rmax, Rmin.
    repeat match goal with |- context [Rle_dec ?a ?b] => destruct (Rle_dec a b) end; lra. }
  unfold RADIUS in *.
  destruct (bool_decide_reflect (sqrt q > 40)) as [Hfar|Hnear]; cbn [fst snd x y].
  - split; [split; apply Hclamp|]. split.
    + assert (Hne : sqrt q <> 0) by lra.
      replace (dx / sqrt q * 40 * (dx / sqrt q * 40) + dy / sqrt q * 40 * (dy / sqrt q * 40))
        with (q / (sqrt q * sqrt q) * 1600) by (unfold q; field; exact Hne).
      rewrite Hsq. right. field. nra.
    + intros Hin. exfalso. nra.
  - split; [split; apply Hclamp|]. split; [fold q; nra|].
    intros Hin. f_equal. f_equal.
    + assert (Hlo : -40 <= dx) by (unfold q in Hin; nra).
      assert (Hhi : dx <= 40) by (unfold q in Hin; nra).
      rewrite Rmin_right by lra. rewrite Rmax_right by lra. reflexivity.
    + assert (Hlo : -40 <= dy) by (unfold q in Hin; nra).
      assert (Hhi : dy <= 40) by (unfold q in Hin; nra).
      rewrite Rmin_right by lra. rewrite Rmax_right by lra. reflexivity.
Qed.

Lemma updatePosition_clamps_witness :
  updatePosition 0 0 120 120 90 60
  = (mkVector2 (90 - (0 + 120 / 2)) (60 - (0 + 120 / 2)),
     mkVector2 ((90 - (0 + 120 / 2)) / RADIUS) ((60 - (0 + 120 / 2)) / RADIUS)).
Proof.
  apply (proj2 (proj2 (updatePosition_clamps 0 0 120 120 90 60))).
  unfold RADIUS. lra.
Defined.

Lemma Math_ceil_unique (r : number) (z : Z) :
  IZR z - 1 < r <= IZR z -> Math_ceil r = z.
Proof.
  intros [H1 H2]. unfold Math_ceil.
  assert (Hf : Math_floor (- r) = (- z)%Z).
  { apply Math_floor_unique. rewrite opp_IZR. lra. }
  unfold Math_floor in Hf. rewrite Hf. lia.
Qed.

Lemma Math_ceil_half (m : nat) :
  Z.to_nat (Math_ceil (INR m / 2)) = Nat.div2 (S m).
Proof.
  assert (H : Math_ceil (INR m / 2) = Z.of_nat (Nat.div2 (S m))).
  { apply Math_ceil_unique. rewrite <- INR_IZR_INZ.
    destruct (Nat.Even_or_Odd m) as [[k ->]|[k ->]].
    - replace (Nat.div2 (S (2 * k))) with k.
      2:{ symmetry. rewrite Nat.div2_succ_double. reflexivity. }
      rewrite mult_INR. change (INR 2) with 2. lra.
    - replace (S (2 * k + 1)) with (2 * (S k))%nat by lia.
      rewrite Nat.div2_double. rewrite plus_INR, mult_INR, S_INR.
      change (INR 2) with 2. change (INR 1) with 1. lra. }
  rewrite H. apply Nat2Z.id.
Qed.

Lemma heartAt_nat (n i : nat) :
  heartAt (INR n) i =
  if (2 * i + 2 <=? n)%nat then FullHeart
  else if (n =? 2 * i + 1)%nat then HalfHeart else EmptyHeart.
Proof.
  unfold heartAt.
  assert (Hv : (INR i + 1) * 2 = INR (2 * i + 2)).
  { rewrite plus_INR, mult_INR. change (INR 2) with 2. lra. }
  rewrite Hv.
  destruct (Nat.leb_spec (2 * i + 2) n) as [Hle|Hlt].
  - rewrite bool_decide_eq_true_2 by (apply le_INR; exact Hle). reflexivity.
  - rewrite bool_decide_eq_false_2 by (intros H; apply INR_le in H; lia).
    destruct (Nat.eqb_spec n (2 * i + 1)) as [->|Hne].
    + rewrite bool_decide_eq_true_2; [reflexivity|].
      rewrite !plus_INR. change (INR 2) with 2. change (INR 1) with 1. lra.
    + rewrite bool_decide_eq_false_2; [reflexivity|].
      intros H. apply Hne. apply INR_eq.
      rewrite H. rewrite !plus_INR. change (INR 2) with 2. change (INR 1) with 1. lra.
Qed.

Lemma shownHealth_row (n c k : nat) :
  shownHealth (map (heartAt (INR n)) (seq k c))
  = Z.of_nat (Nat.min (n - 2 * k) (2 * c)).
Proof.
  revert k. induction c as [|c IH]; intros k.
  - cbn. lia.
  - cbn [seq map shownHealth foldr]. fold (shownHealth (map (heartAt (INR n)) (seq (S k) c))).
    rewrite IH, heartAt_nat.
    destruct (Nat.leb_spec (2 * k + 2) n) as [Hle|Hlt]; [cbn [heartUnits]; lia|].
    destruct (Nat.eqb_spec n (2 * k + 1)) as [->|Hne]; cbn [heartUnits]; lia.
Qed.

(** X5.  For whole health values the heart row of the HUD adds up: with
    [health <= maxHealth] the glyphs shown (a full heart for two units, a
    broken one for one) stand for exactly [health] units, on
    [ceil (maxHealth / 2)] hearts. *)
Theorem hearts_show_health (n m : nat) :
  (n <= m)%nat ->
  shownHealth (hearts (INR n) (INR m)) = Z.of_nat n
  /\ length (hearts (INR n) (INR m)) = Nat.div2 (S m).
Proof.
  intros Hle. unfold hearts. rewrite Math_ceil_half. split.
  - rewrite shownHealth_row.
    assert (n <= 2 * Nat.div2 (S m))%nat.
    { destruct (Nat.Even_or_Odd m) as [[k ->]|[k ->]].
      - rewrite Nat.div2_succ_double. lia.
      - replace (S (2 * k + 1)) with (2 * (S k))%nat by lia.
        rewrite Nat.div2_double. lia. }
    lia.
  - rewrite length_map, length_seq. reflexivity.
Qed.

Lemma hearts_show_health_witness :
  shownHealth (hearts (INR 3) (INR 6)) = Z.of_nat 3
  /\ length (hearts (INR 3) (INR 6)) = Nat.div2 (S 6).
Proof. apply (hearts_show_health 3 6). lia. Defined.

(** X6.  [to3D] sends the canvas centre to the origin of the room and
    every canvas point into the room's floor rectangle, at height 0; it
    scales both axes linearly, so distinct canvas points stay distinct. *)
Theorem to3D_canvas_in_room (px py : number) :
  0 <= px <= CANVAS_WIDTH -> 0 <= py <= CANVAS_HEIGHT ->
  let '(x3, y3, z3) := to3D px py in
  - ROOM_WIDTH / 2 <= x3 <= ROOM_WIDTH / 2
  /\ y3 = 0
  /\ - ROOM_HEIGHT / 2 <= z3 <= ROOM_HEIGHT / 2
  /\ to3D (CANVAS_WIDTH / 2) (CANVAS_HEIGHT / 2) = (0, 0, 0)
  /\ (forall qx qy, to3D qx qy = to3D px py -> qx = px /\ qy = py).
Proof.
  unfold to3D, CANVAS_WIDTH, CANVAS_HEIGHT, ROOM_WIDTH, ROOM_HEIGHT.
  intros Hx Hy. repeat split; try lra.
  - f_equal; [f_equal|]; lra.
  - injection H as H1 H2. lra.
  - injection H as H1 H2. lra.
Qed.

Lemma to3D_canvas_in_room_witness :
  let '(x3, y3, z3) := to3D 200 150 in
  - ROOM_WIDTH / 2 <= x3 <= ROOM_WIDTH / 2
  /\ y3 = 0
  /\ - ROOM_HEIGHT / 2 <= z3 <= ROOM_HEIGHT / 2
  /\ to3D (CANVAS_WIDTH / 2) (CANVAS_HEIGHT / 2) = (0, 0, 0)
  /\ (forall qx qy, to3D qx qy = to3D 200 150 -> qx = 200 /\ qy = 150).
Proof.
  apply (to3D_canvas_in_room 200 150); unfold CANVAS_WIDTH, CANVAS_HEIGHT; lra.
Defined.

(** ** Rooms and doors during a frame *)

Lemma roomSwitch_Some (r : Room) (nx ny : number) (gx gy : Z) (sx sy : number) :
  roomSwitch r nx ny = Some (gx, gy, sx, sy) ->
  exists d, hasDoor r d = true
            /\ gx = neighbourX r d /\ gy = neighbourY r d
            /\ mkVector2 sx sy = entryPoint d.
Proof.
  unfold roomSwitch, neighbourX, neighbourY.
  destruct (bool_decide (ny < 20) && hasDoor r UP) eqn:Hu.
  { intros [= <- <- <- <-]. apply andb_true_iff in Hu as [_ Hd].
    exists UP. cbn. repeat split; (done || lia). }
  destruct (bool_decide (ny > CANVAS_HEIGHT - 20) && hasDoor r DOWN) eqn:Hdn.
  { intros [= <- <- <- <-]. apply andb_true_iff in Hdn as [_ Hd].
    exists DOWN. cbn. repeat split; (done || lia). }
  destruct (bool_decide (nx < 20) && hasDoor r LEFT) eqn:Hl.
  { intros [= <- <- <- <-]. apply andb_true_iff in Hl as [_ Hd].
    exists LEFT. cbn. repeat split; (done || lia). }
  destruct (bool_decide (nx > CANVAS_WIDTH - 20) && hasDoor r RIGHT) eqn:Hr.
  { intros [= <- <- <- <-]. apply andb_true_iff in Hr as [_ Hd].
    exists RIGHT. cbn. repeat split; (done || lia). }
  discriminate.
Qed.

(** X7.  The current room changes only by walking through a door: if a
    frame changes the room index, the room left counts as cleared and has
    a door in some direction, the room entered occupies the grid cell next
    to it in that direction, the room left is stored flagged cleared, all
    projectiles are discarded and the player stands at the entry point of
    that door. *)
Theorem update_switch_through_door (f : Frame) (s : Session) :
  currentRoomIndex (update f s) <> currentRoomIndex s ->
  exists (cur cur' nxt : Room) (d : Direction),
    rooms s !! currentRoomIndex s = Some cur
    /\ isRoomCleared cur = true
    /\ hasDoor cur d = true
    /\ rooms (update f s) !! currentRoomIndex (update f s) = Some nxt
    /\ gridX nxt = neighbourX cur d /\ gridY nxt = neighbourY cur d
    /\ rooms (update f s) !! currentRoomIndex s = Some cur'
    /\ cleared cur' = true
    /\ projectiles (update f s) = []
    /\ position (player (update f s)) = entryPoint d.
Proof.
  update_cases f s; cbn [currentRoomIndex]; try done. intros Hne.
  apply roomSwitch_Some in Hswitch as (d & Hdoor & -> & -> & Hentry).
  unfold findRoomIndex in Hfind.
  destruct (list_find _ _) as [[i nxt]|] eqn:Hlf; [|done].
  injection Hfind as <-. apply list_find_Some in Hlf as (Hi & [Hgx Hgy] & _).
  eexists currentRoom, _, nxt, d.
  split; [done|]. split; [done|]. split; [done|].
  cbn [rooms projectiles player position with_position].
  split; [exact Hi|]. split; [done|]. split; [done|].
  split; [apply list_lookup_insert_eq; by eapply lookup_lt_Some|].
  split; [reflexivity|]. split; [reflexivity|]. exact Hentry.
Qed.

Lemma update_atOpenDoor :
  currentRoomIndex (update (stickFrame 0 (-1)) atOpenDoor) = 1%nat.
Proof.
  unfold update.
  rewrite bool_decide_eq_true_2 by done. cbn [negb].
  change (rooms atOpenDoor !! currentRoomIndex atOpenDoor) with (Some deadEndRoom).
  rewrite (moveVector_unit _ 0 (-1)) by (done || lra).
  change (player atOpenDoor) with (player atTopDoor).
  rewrite clampPlayer_atTopDoor.
  rewrite shoot_cooling_down by (cbn; unfold fireRate; lia).
  cbn [enemiesLoop stepEnemy enemies deadEndRoom isActive with_isActive negb
       projectiles atOpenDoor app].
  unfold commit. rewrite roomSwitch_atTopDoor.
  change (isRoomCleared deadEndRoom) with true.
  reflexivity.
Qed.

Lemma update_switch_through_door_witness :
  exists (cur cur' nxt : Room) (d : Direction),
    rooms atOpenDoor !! currentRoomIndex atOpenDoor = Some cur
    /\ isRoomCleared cur = true
    /\ hasDoor cur d = true
    /\ rooms (update (stickFrame 0 (-1)) atOpenDoor)
         !! currentRoomIndex (update (stickFrame 0 (-1)) atOpenDoor) = Some nxt
    /\ gridX nxt = neighbourX cur d /\ gridY nxt = neighbourY cur d
    /\ rooms (update (stickFrame 0 (-1)) atOpenDoor) !! currentRoomIndex atOpenDoor
       = Some cur'
    /\ cleared cur' = true
    /\ projectiles (update (stickFrame 0 (-1)) atOpenDoor) = []
    /\ position (player (update (stickFrame 0 (-1)) atOpenDoor)) = entryPoint d.
Proof.
  apply (update_switch_through_door (stickFrame 0 (-1)) atOpenDoor).
  rewrite update_atOpenDoor. cbn. lia.
Defined.

Lemma clampPlayer_uncleared (p : Entity) (r : Room) (x0 y0 : number) :
  isRoomCleared r = false ->
  size p <= 500 ->
  let m := wallThickness + size p / 2 in
  m <= (clampPlayer p r x0 y0).1 <= CANVAS_WIDTH - m
  /\ m <= (clampPlayer p r x0 y0).2 <= CANVAS_HEIGHT - m.
Proof.
  intros Hc Hsize. cbv zeta. unfold clampPlayer. rewrite Hc. cbn [negb orb fst snd].
  rewrite !andb_true_r.
  unfold wallThickness, CANVAS_WIDTH, CANVAS_HEIGHT in *.
  repeat match goal with
  | |- context [bool_decide ?P] => destruct (bool_decide_reflect P)
  end; lra.
Qed.

(** The frame of a room that does not count as cleared, spelled out: the
    clamp keeps the player between the walls, no door edge can be reached,
    and the ordinary commit runs. *)
Lemma update_uncleared (f : Frame) (s : Session) (room : Room) :
  gameState s = PLAYING ->
  rooms s !! currentRoomIndex s = Some room ->
  isRoomCleared room = false ->
  -60 <= size (player s) <= 500 ->
  exists (nextX nextY : number) (st : LoopState) (playerAt : Entity),
    wallThickness + size (player s) / 2 <= nextX
      <= CANVAS_WIDTH - (wallThickness + size (player s) / 2)
    /\ wallThickness + size (player s) / 2 <= nextY
      <= CANVAS_HEIGHT - (wallThickness + size (player s) / 2)
    /\ playerAt = with_position (player s) (mkVector2 nextX nextY)
    /\ currentRoomIndex (update f s) = currentRoomIndex s
    /\ position (player (update f s)) = mkVector2 nextX nextY
    /\ projectiles (update f s)
       = filter (fun p => keepProjectile playerAt p) (map advance (nextProjectiles st)).
Proof.
  intros Hplay Hroom Hc Hsize. unfold update.
  rewrite (bool_decide_eq_true_2 _ Hplay). cbn [negb]. rewrite Hroom.
  destruct (moveVector f) as [dx dy].
  pose proof (clampPlayer_uncleared (player s) room
                (x (position (player s)) + dx * speed (player s))
                (y (position (player s)) + dy * speed (player s)) Hc (proj2 Hsize)) as Hb.
  destruct (clampPlayer _ _ _ _) as [nextX nextY]. cbn [fst snd] in Hb.
  destruct (shoot _ _ _ _ _) as [shots lastShot].
  destruct (enemiesLoop _ _ _ _ _ _ _) as [[st written] roomEnemies].
  unfold commit.
  rewrite roomSwitch_inside
    by (unfold wallThickness, CANVAS_WIDTH, CANVAS_HEIGHT in *; lra).
  exists nextX, nextY, st, (with_position (player s) (mkVector2 nextX nextY)).
  cbv zeta in Hb. destruct Hb as [Hx Hy].
  split; [exact Hx|]. split; [exact Hy|]. repeat split.
Qed.

(** X8.  While the current room does not count as cleared the player
    cannot leave it: after the frame the room index is the same and the
    player's centre is at least half its size away from every wall
    (walls are 50 thick), whatever the input and wherever it started. *)
Theorem update_uncleared_room_confines_player (f : Frame) (s : Session) (room : Room) :
  gameState s = PLAYING ->
  rooms s !! currentRoomIndex s = Some room ->
  isRoomCleared room = false ->
  -60 <= size (player s) <= 500 ->
  let p' := player (update f s) in
  currentRoomIndex (update f s) = currentRoomIndex s
  /\ wallThickness + size (player s) / 2 <= x (position p')
       <= CANVAS_WIDTH - wallThickness - size (player s) / 2
  /\ wallThickness + size (player s) / 2 <= y (position p')
       <= CANVAS_HEIGHT - wallThickness - size (player s) / 2.
Proof.
  intros Hplay Hroom Hc Hsize. cbv zeta.
  destruct (update_uncleared f s room Hplay Hroom Hc Hsize)
    as (nx & ny & st & pa & Hx & Hy & _ & Hidx & Hpos & _).
  rewrite Hidx, Hpos. cbn [x y]. split; [done|]. lra.
Qed.

Lemma update_uncleared_room_confines_player_witness :
  let p' := player (update (stickFrame (-1) 0) wallFight) in
  currentRoomIndex (update (stickFrame (-1) 0) wallFight) = currentRoomIndex wallFight
  /\ wallThickness + size (player wallFight) / 2 <= x (position p')
       <= CANVAS_WIDTH - wallThickness - size (player wallFight) / 2
  /\ wallThickness + size (player wallFight) / 2 <= y (position p')
       <= CANVAS_HEIGHT - wallThickness - size (player wallFight) / 2.
Proof.
  apply (update_uncleared_room_confines_player (stickFrame (-1) 0) wallFight fightRoom);
    try reflexivity.
  cbn; unfold PLAYER_SIZE; lra.
Defined.

Lemma struckIds_none (k : nat) (es : list Entity) :
  forall rows : list (list bool),
  (forall i, nth k (default [] (rows !! i)) false = false) ->
  struckIds k es rows = [].
Proof.
  induction es as [|e es IH]; intros rows Hrows; [done|].
  destruct rows as [|row rows]; [done|]. cbn [struckIds].
  pose proof (Hrows 0%nat) as H0. cbn in H0. rewrite H0. cbn [app].
  apply IH. intros i. exact (Hrows (S i)).
Qed.

Lemma enemyBehaviour_shots_shooter (f : Frame) (nextX nextY : number) (e : Entity)
    (cd : number) (k : nat) (q : Projectile) :
  q ∈ b_shots (enemyBehaviour f nextX nextY e cd k) ->
  variant e = Some SHOOTER /\ exists angle j, q = enemyShot f e angle j.
Proof.
  unfold enemyBehaviour.
  destruct (bool_decide_reflect (variant e = Some SHOOTER)) as [Hv|_].
  - repeat match goal with
    | |- context [bool_decide ?P] => destruct (bool_decide P)
    end; cbn [b_shots]; intros Hq;
      try (by apply elem_of_nil in Hq);
      apply list_elem_of_singleton in Hq as ->; (split; [done|]); by eexists _, _.
  - repeat match goal with
    | |- context [bool_decide ?P] => destruct (bool_decide P)
    end; cbn [b_shots]; intros Hq; by apply elem_of_nil in Hq.
Qed.

(** What is added to the projectiles during the turn of one enemy is a
    shot of that enemy, a SHOOTER. *)
Lemma stepEnemy_shots f playerState currentRoom nextX nextY
    (st st1 : LoopState) (e w r : Entity) (k : nat) (q : Projectile) :
  stepEnemy f playerState currentRoom nextX nextY st e = (st1, w, r) ->
  nextProjectiles st1 !! k = Some q ->
  (length (nextProjectiles st) <= k)%nat ->
  variant e = Some SHOOTER /\ exists angle j, q = enemyShot f e angle j.
Proof.
  unfold stepEnemy. destruct (isActive e) eqn:Hact; cbn [negb].
  - set (b := enemyBehaviour f nextX nextY e (default 0 (attackCooldown e) - dt f)
                (draws st)).
    destruct (clampEnemy _ _) as [eX eY].
    destruct (hitLoop _ _ _ _ _) as [[hs projs] row] eqn:Hl.
    intros [= <- <- <-] Hq Hk. cbn [nextProjectiles] in Hq.
    apply hitLoop_exact in Hl as (_ & Hlen & Hslots).
    destruct ((nextProjectiles st ++ b_shots b) !! k) as [q0|] eqn:Hq0.
    + destruct (Hslots k q0 Hq0) as [Hflag Hq'].
      apply lookup_app_Some in Hq0 as [Hq0|[_ Hq0]];
        [apply lookup_lt_Some in Hq0; lia|].
      apply list_elem_of_lookup_2 in Hq0.
      assert (Hown : owner q0 = ByEnemy).
      { pose proof (enemyBehaviour_shots_owner f nextX nextY e
                      (default 0 (attackCooldown e) - dt f) (draws st)) as Hall.
        rewrite Forall_forall in Hall. by apply Hall. }
      rewrite canHit_enemy_owned in Hflag by done.
      rewrite Hflag, struckBy_nil in Hq'. rewrite Hq' in Hq. injection Hq as <-.
      by eapply enemyBehaviour_shots_shooter.
    + apply lookup_ge_None in Hq0. apply lookup_lt_Some in Hq. lia.
  - intros [= <- <- <-] Hq Hk. apply lookup_lt_Some in Hq. cbn in Hq. lia.
Qed.

(** Where the projectiles at the end of the loop come from: one that was
    there at the start, with hits recorded, or the shot of a SHOOTER of
    the room. *)
Lemma enemiesLoop_provenance f playerState currentRoom nextX nextY (es : list Entity) :
  forall (st st' : LoopState) (written returned : list Entity) (q : Projectile),
  enemiesLoop f playerState currentRoom nextX nextY st es = (st', written, returned) ->
  q ∈ nextProjectiles st' ->
  (exists p ids, p ∈ nextProjectiles st /\ q = struckBy p ids
                 /\ (owner p = ByEnemy -> ids = []))
  \/ (exists e angle j, e ∈ es /\ variant e = Some SHOOTER /\ q = enemyShot f e angle j).
Proof.
  induction es as [|e0 es IH]; intros st st' written returned q; cbn [enemiesLoop].
  - intros [= <- <- <-] Hq. left. exists q, []. by rewrite struckBy_nil.
  - destruct (stepEnemy _ _ _ _ _ st e0) as [[st1 w] r] eqn:Hstep.
    destruct (enemiesLoop _ _ _ _ _ st1 es) as [[st2 ws] rs] eqn:Hloop.
    intros [= <- <- <-] Hq.
    destruct (IH _ _ _ _ _ Hloop Hq)
      as [(p1 & ids & Hp1 & -> & Hids)|(e & a & j & He & Hv & ->)].
    2:{ right. exists e, a, j. split; [by right|done]. }
    apply list_elem_of_lookup in Hp1 as [k Hk].
    destruct (decide (k < length (nextProjectiles st))%nat) as [Hlt|Hge].
    + destruct (lookup_lt_is_Some_2 _ _ Hlt) as [p Hp].
      destruct (stepEnemy_exact _ _ _ _ _ _ _ _ _ _ Hstep) as (row & _ & Hslots & _).
      destruct (Hslots k p Hp) as [Hflag Hp1]. rewrite Hp1 in Hk. injection Hk as <-.
      left. exists p, ((if nth k row false then [id e0] else []) ++ ids).
      split; [by eapply list_elem_of_lookup_2|]. split; [by rewrite struckBy_app|].
      intros Hown. rewrite canHit_enemy_owned, andb_false_r in Hflag by done.
      rewrite Hflag. cbn [app]. apply Hids. by rewrite struckBy_owner.
    + destruct (stepEnemy_shots _ _ _ _ _ _ _ _ _ _ k p1 Hstep Hk) as (Hv & a & j & ->);
        [lia|].
      right. exists e0, a, j. split; [by left|]. split; [done|].
      rewrite (Hids eq_refl). apply struckBy_nil.
Qed.

(** The frame of a room that does not count as cleared, with the loop
    over the enemies named: where the player ends up, and the projectiles
    kept. *)
Lemma update_fight_frame (f : Frame) (s : Session) (room : Room) :
  gameState s = PLAYING ->
  rooms s !! currentRoomIndex s = Some room ->
  isRoomCleared room = false ->
  -60 <= size (player s) <= 500 ->
  exists (nextX nextY : number) (st : LoopState) (written returned : list Entity),
    position (player (update f s)) = mkVector2 nextX nextY
    /\ enemiesLoop f (player s) room nextX nextY
         (mkLoopState
            (projectiles s ++ (shoot f (player s) (lastShotTime s) nextX nextY).1)
            false 0 [] false [])
         (enemies room) = (st, written, returned)
    /\ projectiles (update f s)
       = filter (fun p => keepProjectile
                            (with_position (player s) (mkVector2 nextX nextY)) p)
           (map advance (nextProjectiles st)).
Proof.
  intros Hplay Hroom Hc Hsize. unfold update.
  rewrite (bool_decide_eq_true_2 _ Hplay). cbn [negb]. rewrite Hroom.
  destruct (moveVector f) as [dx dy].
  pose proof (clampPlayer_uncleared (player s) room
                (x (position (player s)) + dx * speed (player s))
                (y (position (player s)) + dy * speed (player s)) Hc (proj2 Hsize)) as Hb.
  destruct (clampPlayer _ _ _ _) as [nextX nextY]. cbn [fst snd] in Hb.
  destruct (shoot _ _ _ _ _) as [shots lastShot] eqn:Hshoot.
  destruct (enemiesLoop _ _ _ _ _ _ _) as [[st written] roomEnemies] eqn:Hloop.
  unfold commit.
  rewrite roomSwitch_inside
    by (unfold wallThickness, CANVAS_WIDTH, CANVAS_HEIGHT in *; lra).
  exists nextX, nextY, st, written, roomEnemies. cbn [player projectiles position
    with_facing with_health with_position].
  split; [done|]. split; [|done]. by rewrite Hshoot.
Qed.

Lemma struckBy_flew (p : Projectile) (ids : list string) :
  flew p (advance (struckBy p ids)).
Proof.
  unfold flew, advance, struckBy. destruct (piercing p) eqn:Hp; [by repeat split|].
  destruct (bool_decide (ids = [])); by repeat split.
Qed.

Lemma struckBy_active (p : Projectile) (ids : list string) :
  isActive (struckBy p ids) = true -> isActive p = true.
Proof.
  unfold struckBy. destruct (piercing p); [done|].
  by destruct (bool_decide (ids = [])).
Qed.

(** X9.  The projectiles that a frame of a fight (the room does not
    count as cleared) leaves stored.  Each is active and strictly inside
    the canvas, and if enemy-owned does not overlap the player: those are
    removed in the frame in which they arrive.  And none comes from
    nowhere: each is a projectile that was stored before or that the
    player fired in this frame, active then and moved by exactly its
    velocity, with its owner, damage, size and piercing unchanged; or it
    is the shot of a SHOOTER of the room, one step away from where that
    enemy stood. *)
Theorem update_fight_projectiles_in_canvas (f : Frame) (s : Session) (room : Room) :
  gameState s = PLAYING ->
  rooms s !! currentRoomIndex s = Some room ->
  isRoomCleared room = false ->
  -60 <= size (player s) <= 500 ->
  let at' := position (player (update f s)) in
  Forall (fun q : Projectile =>
            isActive q = true
            /\ 0 < x (position q) < CANVAS_WIDTH
            /\ 0 < y (position q) < CANVAS_HEIGHT
            /\ (owner q = ByEnemy ->
                checkCollision q (with_position (player s) at') = false)
            /\ ((exists p : Projectile,
                   (p ∈ projectiles s
                    \/ p ∈ (shoot f (player s) (lastShotTime s) (x at') (y at')).1)
                   /\ isActive p = true /\ flew p q)
                \/ (owner q = ByEnemy /\ damage q = 1
                    /\ exists e : Entity,
                         e ∈ enemies room /\ variant e = Some SHOOTER
                         /\ position q
                            = mkVector2 (x (position e) + x (velocity q))
                                        (y (position e) + y (velocity q)))))
    (projectiles (update f s)).
Proof.
  intros Hplay Hroom Hc Hsize. cbv zeta.
  destruct (update_fight_frame f s room Hplay Hroom Hc Hsize)
    as (nx & ny & st & written & returned & Hpos & Hloop & Hprojs).
  rewrite Hprojs, Hpos. cbn [x y]. apply Forall_forall. intros q Hq.
  apply list_elem_of_filter in Hq as [Hkeep Hq].
  apply list_elem_of_fmap in Hq as (p' & -> & Hp').
  unfold keepProjectile, inBounds in Hkeep.
  apply Is_true_true in Hkeep.
  repeat (apply andb_true_iff in Hkeep as [Hkeep ?]).
  repeat match goal with
  | H : bool_decide _ = true |- _ => apply bool_decide_eq_true_1 in H
  end.
  split; [done|]. split; [lra|]. split; [lra|]. split.
  { intros Hown.
    match goal with H : negb _ = true |- _ => apply negb_true_iff in H; rename H into Hn end.
    rewrite (bool_decide_eq_true_2 _ Hown) in Hn. exact Hn. }
  destruct (enemiesLoop_provenance _ _ _ _ _ _ _ _ _ _ _ Hloop Hp')
    as [(p & ids & Hp & -> & _)|(e & a & j & He & Hv & ->)].
  - left. exists p. cbn [nextProjectiles] in Hp. split.
    { apply elem_of_app in Hp as [?|?]; [by left|by right]. }
    split; [apply (struckBy_active p ids); exact Hkeep|apply struckBy_flew].
  - right. repeat split. exists e. by repeat split.
Qed.

Lemma update_crowdFight :
  projectiles (update (stickFrame 0 0) crowdFight)
  = [advance (mkProjectile (tear 400 300) ByPlayer true ["enemy-1,0-0"; "enemy-1,0-1"])].
Proof.
  unfold update.
  rewrite bool_decide_eq_true_2 by done. cbn [negb].
  change (rooms crowdFight !! currentRoomIndex crowdFight) with (Some crowdRoom).
  rewrite moveVector_idle by done.
  assert (Hclamp : clampPlayer (player crowdFight) crowdRoom
                     (x (position (player crowdFight)) + 0 * speed (player crowdFight))
                     (y (position (player crowdFight)) + 0 * speed (player crowdFight))
                   = (400, 300)).
  { rewrite clampPlayer_inside;
      cbn; unfold wallThickness, PLAYER_SIZE, PLAYER_BASE_SPEED, CANVAS_WIDTH, CANVAS_HEIGHT;
      [f_equal; lra | lra | lra]. }
  rewrite Hclamp.
  rewrite shoot_cooling_down by (cbn; unfold fireRate; lia).
  change (projectiles crowdFight ++ []) with [piercingTear 400 300].
  change (player crowdFight) with createPlayer.
  change (enemies crowdRoom) with crowd.
  rewrite enemiesLoop_crowd.
  unfold commit.
  rewrite roomSwitch_inside by (unfold CANVAS_WIDTH, CANVAS_HEIGHT; lra).
  cbn [projectiles nextProjectiles map].
  rewrite filter_cons_True; [done|].
  unfold keepProjectile, inBounds. cbn.
  unfold CANVAS_WIDTH, CANVAS_HEIGHT.
  rewrite !bool_decide_eq_true_2 by lra. done.
Qed.

Lemma update_fight_projectiles_in_canvas_witness :
  let at' := position (player (update (stickFrame 0 0) crowdFight)) in
  projectiles (update (stickFrame 0 0) crowdFight)
  = [advance (mkProjectile (tear 400 300) ByPlayer true ["enemy-1,0-0"; "enemy-1,0-1"])]
  /\ Forall (fun q : Projectile =>
            isActive q = true
            /\ 0 < x (position q) < CANVAS_WIDTH
            /\ 0 < y (position q) < CANVAS_HEIGHT
            /\ (owner q = ByEnemy ->
                checkCollision q (with_position (player crowdFight) at') = false)
            /\ ((exists p : Projectile,
                   (p ∈ projectiles crowdFight
                    \/ p ∈ (shoot (stickFrame 0 0) (player crowdFight)
                              (lastShotTime crowdFight) (x at') (y at')).1)
                   /\ isActive p = true /\ flew p q)
                \/ (owner q = ByEnemy /\ damage q = 1
                    /\ exists e : Entity,
                         e ∈ enemies crowdRoom /\ variant e = Some SHOOTER
                         /\ position q
                            = mkVector2 (x (position e) + x (velocity q))
                                        (y (position e) + y (velocity q)))))
    (projectiles (update (stickFrame 0 0) crowdFight)).
Proof.
  split; [apply update_crowdFight|].
  apply (update_fight_projectiles_in_canvas (stickFrame 0 0) crowdFight crowdRoom);
    try reflexivity.
  cbn; unfold PLAYER_SIZE; lra.
Defined.

(** ** What a run never changes *)

Lemma sameEnemy_refl (e : Entity) : sameEnemy e e.
Proof. by repeat split. Qed.

Lemma sameEnemy_trans (e1 e2 e3 : Entity) :
  sameEnemy e1 e2 -> sameEnemy e2 e3 -> sameEnemy e1 e3.
Proof.
  intros (H1 & H2 & H3 & H4 & H5 & H6 & H7 & H8) (G1 & G2 & G3 & G4 & G5 & G6 & G7 & G8).
  repeat split; try congruence.
  intros Hin. specialize (H8 Hin). subst e2. by apply G8.
Qed.

Lemma sameLayout_refl (r : Room) : sameLayout r r.
Proof. by repeat split. Qed.

Lemma sameLayout_trans (r1 r2 r3 : Room) :
  sameLayout r1 r2 -> sameLayout r2 r3 -> sameLayout r1 r3.
Proof.
  intros (H1 & H2 & H3 & H4 & H5 & H6) (G1 & G2 & G3 & G4 & G5 & G6).
  repeat split; congruence.
Qed.

Lemma stepEnemy_sameEnemy f playerState currentRoom nextX nextY
    (st st1 : LoopState) (e w r : Entity) :
  stepEnemy f playerState currentRoom nextX nextY st e = (st1, w, r) ->
  sameEnemy e w /\ sameEnemy e r.
Proof.
  unfold stepEnemy. destruct (isActive e) eqn:Hact; cbn [negb].
  - destruct (clampEnemy _ _) as [eX eY].
    destruct (hitLoop _ _ _ _ _) as [[hs projs] row].
    intros [= <- <- <-]. split; repeat split; try done; intros; congruence.
  - intros [= <- <- <-]. split; apply sameEnemy_refl.
Qed.

Lemma enemiesLoop_sameEnemy f playerState currentRoom nextX nextY (es : list Entity) :
  forall (st st' : LoopState) (written returned : list Entity),
  enemiesLoop f playerState currentRoom nextX nextY st es = (st', written, returned) ->
  Forall2 sameEnemy es written /\ Forall2 sameEnemy es returned.
Proof.
  induction es as [|e es IH]; intros st st' written returned; cbn [enemiesLoop].
  - intros [= <- <- <-]. split; constructor.
  - destruct (stepEnemy _ _ _ _ _ _ e) as [[st1 w] r] eqn:Hstep.
    destruct (enemiesLoop _ _ _ _ _ st1 es) as [[st2 ws] rs] eqn:Hloop.
    intros [= <- <- <-].
    apply stepEnemy_sameEnemy in Hstep as [Hw Hr].
    apply IH in Hloop as [Hws Hrs]. split; by constructor.
Qed.

(** What one frame writes to the room list: nothing, or a new version of
    the current room with the same layout, its enemies stepped one by one
    and its items kept in place (picked ones deactivated, new ones
    appended). *)
Lemma update_room_write (f : Frame) (s : Session) :
  rooms (update f s) = rooms s
  \/ exists currentRoom room' fresh,
       rooms s !! currentRoomIndex s = Some currentRoom
       /\ rooms (update f s) = <[currentRoomIndex s := room']> (rooms s)
       /\ sameLayout currentRoom room'
       /\ Forall2 sameEnemy (enemies currentRoom) (enemies room')
       /\ Forall2 (fun it it' : Item => it' = it \/ it' = item_deactivate it)
            (items currentRoom) (take (length (items currentRoom)) (items room'))
       /\ items room' = take (length (items currentRoom)) (items room') ++ fresh.
Proof.
  assert (Hitems : forall (pa : Entity) (its : list Item) (extra : list Item),
    Forall2 (fun it it' : Item => it' = it \/ it' = item_deactivate it) its
      (take (length its)
         (map (fun it => if pickedUp pa it then item_deactivate it else it) its ++ extra))
    /\ map (fun it => if pickedUp pa it then item_deactivate it else it) its ++ extra
       = take (length its)
           (map (fun it => if pickedUp pa it then item_deactivate it else it) its ++ extra)
         ++ extra).
  { intros pa its extra.
    rewrite take_app_le by (rewrite length_map; lia).
    rewrite take_ge by (rewrite length_map; lia). split; [|done].
    induction its as [|it its IH]; cbn [map]; constructor; [|exact IH].
    destruct (pickedUp pa it); [by right|by left]. }
  update_cases f s; try (by left); right;
    apply enemiesLoop_sameEnemy in Hloop as [Hw Hr];
    eexists currentRoom, _, (spawned st);
    (split; [reflexivity|]); (split; [reflexivity|]);
    (split; [by repeat split|]);
    cbn [enemies items with_cleared with_items with_enemies];
    (split; [done|]); apply Hitems.
Qed.

Lemma itemKept_trans (a b c : Item) : itemKept a b -> itemKept b c -> itemKept a c.
Proof.
  intros [->| ->] [->| ->]; [by left|by right|by right|by right].
Qed.

Lemma Forall2_trans' {A} (R : A -> A -> Prop) (l1 l2 l3 : list A) :
  (forall a b c, R a b -> R b c -> R a c) ->
  Forall2 R l1 l2 -> Forall2 R l2 l3 -> Forall2 R l1 l3.
Proof.
  intros HR H12. revert l3. induction H12 as [|a b l1 l2 Hab _ IH]; intros l3 H23.
  - inversion H23. constructor.
  - inversion H23 as [|b' c l2' l3' Hbc H23']; subst. constructor; [by eapply HR|by apply IH].
Qed.

Lemma roomEvolves_refl (r : Room) : roomEvolves r r.
Proof.
  split; [apply sameLayout_refl|]. split.
  - apply Forall_Forall2_diag, Forall_forall. intros e _. apply sameEnemy_refl.
  - exists (items r), []. split; [by rewrite app_nil_r|].
    apply Forall_Forall2_diag, Forall_forall. intros it _. by left.
Qed.

Lemma roomEvolves_trans (r1 r2 r3 : Room) :
  roomEvolves r1 r2 -> roomEvolves r2 r3 -> roomEvolves r1 r3.
Proof.
  intros (HL1 & HE1 & k1 & f1 & Hi1 & HK1) (HL2 & HE2 & k2 & f2 & Hi2 & HK2).
  split; [by eapply sameLayout_trans|]. split.
  - eapply Forall2_trans'; [apply sameEnemy_trans|done|done].
  - rewrite Hi1 in HK2. apply Forall2_app_inv_l in HK2 as (ka & kb & Hka & Hkb & ->).
    exists ka, (kb ++ f2). split; [by rewrite Hi2, <- app_assoc|].
    eapply Forall2_trans'; [apply itemKept_trans|done|done].
Qed.

Lemma update_room_evolves (f : Frame) (s : Session) :
  rooms (update f s) = rooms s
  \/ exists currentRoom room',
       rooms s !! currentRoomIndex s = Some currentRoom
       /\ rooms (update f s) = <[currentRoomIndex s := room']> (rooms s)
       /\ roomEvolves currentRoom room'.
Proof.
  destruct (update_room_write f s)
    as [?|(cr & room' & fresh & Hcur & Hrooms & HL & HE & HI & Happ)]; [by left|].
  right. exists cr, room'. split; [done|]. split; [done|].
  split; [done|]. split; [done|]. by eexists _, fresh.
Qed.

Lemma handle_room_evolves (s : Session) (ev : Event) (i : nat) (r : Room) :
  rooms s !! i = Some r ->
  length (rooms (handle s ev)) = length (rooms s)
  /\ exists r', rooms (handle s ev) !! i = Some r' /\ roomEvolves r r'.
Proof.
  intros Hi. destruct ev as [f|]; cbn [handle rooms];
    [|split; [done|]; exists r; split; [done|apply roomEvolves_refl]].
  destruct (update_room_evolves f s) as [-> | (cr & room' & Hcur & -> & Hev)];
    [split; [done|]; exists r; split; [done|apply roomEvolves_refl]|].
  split; [apply length_insert|].
  destruct (decide (i = currentRoomIndex s)) as [->|Hne].
  - rewrite Hcur in Hi. injection Hi as ->.
    exists room'. split; [|done].
    apply list_lookup_insert_eq. by eapply lookup_lt_Some.
  - exists r. split; [by rewrite list_lookup_insert_ne|apply roomEvolves_refl].
Qed.

Lemma run_room_evolves (s : Session) (evs : list Event) (i : nat) (r : Room) :
  rooms s !! i = Some r ->
  length (rooms (run s evs)) = length (rooms s)
  /\ exists r', rooms (run s evs) !! i = Some r' /\ roomEvolves r r'.
Proof.
  revert s r. induction evs as [|ev evs IH]; intros s r Hi; cbn [run fold_left].
  - split; [done|]. exists r. split; [done|apply roomEvolves_refl].
  - destruct (handle_room_evolves s ev i r Hi) as (Hlen1 & r1 & Hi1 & Hev1).
    destruct (IH (handle s ev) r1 Hi1) as (Hlen2 & r' & Hi' & Hev').
    split; [unfold run in Hlen2; congruence|].
    exists r'. split; [exact Hi'|]. by eapply roomEvolves_trans.
Qed.

(** X10.  The dungeon's layout is fixed for the whole run: whatever
    frames and pickup timers occur, the number of rooms stays the same and
    the room stored at an index keeps its id, grid cell, doors and its
    boss-room and item-room flags. *)
Theorem run_keeps_layout (s : Session) (evs : list Event) (i : nat) (r : Room) :
  rooms s !! i = Some r ->
  length (rooms (run s evs)) = length (rooms s)
  /\ exists r', rooms (run s evs) !! i = Some r'
       /\ room_id r' = room_id r /\ gridX r' = gridX r /\ gridY r' = gridY r
       /\ doors r' = doors r /\ isBossRoom r' = isBossRoom r
       /\ isItemRoom r' = isItemRoom r.
Proof.
  intros Hi. destruct (run_room_evolves s evs i r Hi) as (Hlen & r' & Hi' & HL & _).
  split; [exact Hlen|]. exists r'. split; [exact Hi'|exact HL].
Qed.

Lemma run_keeps_layout_witness :
  length (rooms (run wallFight [Tick (stickFrame 0 0); PickupTimeout;
                                Tick (stickFrame 1 0)])) = length (rooms wallFight)
  /\ exists r', rooms (run wallFight [Tick (stickFrame 0 0); PickupTimeout;
                                      Tick (stickFrame 1 0)]) !! 0%nat = Some r'
       /\ room_id r' = room_id fightRoom /\ gridX r' = gridX fightRoom
       /\ gridY r' = gridY fightRoom
       /\ doors r' = doors fightRoom /\ isBossRoom r' = isBossRoom fightRoom
       /\ isItemRoom r' = isItemRoom fightRoom.
Proof. apply (run_keeps_layout wallFight _ 0 fightRoom). reflexivity. Defined.

(** X11.  Over a run no enemy is added to a room, removed from it or
    brought back: the room stored at an index has the same enemies slot by
    slot, each with the id, type, variant, size, speed, damage and
    maximal health it had, and an enemy that was inactive is the very
    same object afterwards (position and health included). *)
Theorem run_keeps_enemy_roster (s : Session) (evs : list Event) (i j : nat)
    (r : Room) (e : Entity) :
  rooms s !! i = Some r ->
  enemies r !! j = Some e ->
  exists r' e',
    rooms (run s evs) !! i = Some r'
    /\ length (enemies r') = length (enemies r)
    /\ enemies r' !! j = Some e'
    /\ id e' = id e /\ type e' = type e /\ variant e' = variant e
    /\ size e' = size e /\ speed e' = speed e /\ damage e' = damage e
    /\ maxHealth e' = maxHealth e
    /\ (isActive e = false -> e' = e).
Proof.
  intros Hi Hj.
  destruct (run_room_evolves s evs i r Hi) as (_ & r' & Hi' & _ & HE & _).
  destruct (Forall2_lookup_l _ _ _ _ _ HE Hj) as (e' & Hj' & Hsame).
  exists r', e'. split; [exact Hi'|].
  split; [symmetry; by eapply Forall2_length|]. split; [exact Hj'|exact Hsame].
Qed.

Lemma run_keeps_enemy_roster_witness :
  exists r' e',
    rooms (run atTopDoor [Tick (stickFrame 0 (-1)); Tick (stickFrame 1 0)]) !! 0%nat
    = Some r'
    /\ length (enemies r') = length (enemies deadEndRoom)
    /\ enemies r' !! 0%nat = Some e'
    /\ id e' = id (with_isActive (grunt 300 300) false)
    /\ type e' = type (with_isActive (grunt 300 300) false)
    /\ variant e' = variant (with_isActive (grunt 300 300) false)
    /\ size e' = size (with_isActive (grunt 300 300) false)
    /\ speed e' = speed (with_isActive (grunt 300 300) false)
    /\ damage e' = damage (with_isActive (grunt 300 300) false)
    /\ maxHealth e' = maxHealth (with_isActive (grunt 300 300) false)
    /\ (isActive (with_isActive (grunt 300 300) false) = false ->
        e' = with_isActive (grunt 300 300) false).
Proof.
  apply (run_keeps_enemy_roster atTopDoor _ 0 0 deadEndRoom); reflexivity.
Defined.

(** X12.  Items are never removed from a room and never move to another
    slot: over a run the item stored at a slot of a room is still there,
    either untouched or deactivated by a pickup; new items are only
    appended behind the existing ones. *)
Theorem run_keeps_items (s : Session) (evs : list Event) (i j : nat)
    (r : Room) (it : Item) :
  rooms s !! i = Some r ->
  items r !! j = Some it ->
  exists r' it',
    rooms (run s evs) !! i = Some r'
    /\ (length (items r) <= length (items r'))%nat
    /\ items r' !! j = Some it'
    /\ (it' = it \/ it' = item_deactivate it).
Proof.
  intros Hi Hj.
  destruct (run_room_evolves s evs i r Hi)
    as (_ & r' & Hi' & _ & _ & kept & fresh & Happ & HK).
  destruct (Forall2_lookup_l _ _ _ _ _ HK Hj) as (it' & Hj' & Hkept).
  exists r', it'. split; [exact Hi'|].
  split; [rewrite Happ, length_app, (Forall2_length _ _ _ HK); lia|].
  split; [|exact Hkept].
  rewrite Happ. by apply lookup_app_l_Some.
Qed.

Lemma run_keeps_items_witness :
  exists r' it',
    rooms (run woundedSession [Tick (stickFrame 0 0); PickupTimeout]) !! 0%nat = Some r'
    /\ (length (items lootRoom) <= length (items r'))%nat
    /\ items r' !! 0%nat = Some it'
    /\ (it' = lunch \/ it' = item_deactivate lunch).
Proof.
  apply (run_keeps_items woundedSession _ 0 0 lootRoom lunch); reflexivity.
Defined.

(** ** The player over a run *)

Lemma playerGrows_refl (p : Entity) : playerGrows p p.
Proof. repeat split; try done; lra. Qed.

Lemma playerGrows_trans (p1 p2 p3 : Entity) :
  playerGrows p1 p2 -> playerGrows p2 p3 -> playerGrows p1 p3.
Proof.
  intros (H1 & H2 & H3 & H4 & H5 & H6 & H7) (G1 & G2 & G3 & G4 & G5 & G6 & G7).
  repeat split; try congruence; try lra. by etrans.
Qed.

Lemma handleItemPickup_grows (it : Item) (p : Entity) :
  playerGrows p (handleItemPickup it p)
  /\ (health p <= maxHealth p ->
      health (handleItemPickup it p) <= maxHealth (handleItemPickup it p)).
Proof.
  unfold handleItemPickup.
  destruct (itemType it); repeat case_decide; try done; cbn;
    (split; [repeat split; cbn; try done; try lra; try (by apply prefix_app_r)
            |cbn; intros; lra]).
Qed.

Lemma pickups_grow (picked : list Item) (p : Entity) :
  playerGrows p (fold_left (fun p it => handleItemPickup it p) picked p)
  /\ (health p <= maxHealth p ->
      health (fold_left (fun p it => handleItemPickup it p) picked p)
      <= maxHealth (fold_left (fun p it => handleItemPickup it p) picked p)).
Proof.
  revert p. induction picked as [|it picked IH]; intros p; cbn [fold_left].
  - split; [apply playerGrows_refl|done].
  - destruct (handleItemPickup_grows it p) as [Hg Hh].
    destruct (IH (handleItemPickup it p)) as [Hg' Hh'].
    split; [by eapply playerGrows_trans|auto].
Qed.

Lemma update_player (f : Frame) (s : Session) :
  playerGrows (player s) (player (update f s))
  /\ (health (player s) <= maxHealth (player s) ->
      health (player (update f s)) <= maxHealth (player (update f s))).
Proof.
  update_cases f s; try (split; [apply playerGrows_refl|done]);
    cbn [player];
    match goal with
    | |- context [fold_left ?g ?picked (player s)] =>
        destruct (pickups_grow picked (player s))
          as [(H1 & H2 & H3 & H4 & H5 & H6 & H7) Hh]
    end;
    (split; [by repeat split|]); intros Hle; specialize (Hh Hle); cbn; try done;
    destruct (_ && _); lra.
Qed.

Lemma handle_player (s : Session) (ev : Event) :
  playerGrows (player s) (player (handle s ev))
  /\ (health (player s) <= maxHealth (player s) ->
      health (player (handle s ev)) <= maxHealth (player (handle s ev))).
Proof.
  destruct ev as [f|]; [apply update_player|].
  split; [apply playerGrows_refl|done].
Qed.

(** X13.  Over a run the player only gains: its id, type and size never
    change, maximal health, damage and speed never fall, and the list of
    modifiers is only extended at its end. *)
Theorem run_player_never_weakens (s : Session) (evs : list Event) :
  let p := player s in
  let p' := player (run s evs) in
  id p' = id p /\ type p' = type p /\ size p' = size p
  /\ maxHealth p <= maxHealth p' /\ damage p <= damage p' /\ speed p <= speed p'
  /\ modifiers p `prefix_of` modifiers p'.
Proof.
  cbv zeta. revert s. induction evs as [|ev evs IH]; intros s; cbn [run fold_left].
  - apply playerGrows_refl.
  - apply (playerGrows_trans _ (player (handle s ev))); [apply handle_player|apply IH].
Qed.

(** X14.  Health never exceeds maximal health: if it does not at the
    start of a run, it does not after any sequence of frames and pickup
    timers. *)
Theorem run_health_within_max (s : Session) (evs : list Event) :
  health (player s) <= maxHealth (player s) ->
  health (player (run s evs)) <= maxHealth (player (run s evs)).
Proof.
  revert s. induction evs as [|ev evs IH]; intros s Hle; cbn [run fold_left]; [done|].
  apply IH. by apply handle_player.
Qed.

Lemma run_health_within_max_witness :
  health (player (run woundedSession [Tick (stickFrame 0 0); PickupTimeout;
                                      Tick (stickFrame 1 0)]))
  <= maxHealth (player (run woundedSession [Tick (stickFrame 0 0); PickupTimeout;
                                            Tick (stickFrame 1 0)])).
Proof. apply (run_health_within_max woundedSession). cbn. lra. Defined.

(** ** How a frame ends the game *)

(** X15.  A frame ends the game only on a hit that takes the last health
    unit, and a hit counts only when the frame's damage roll is below
    0.05: with more than one health unit left, or with every random draw
    of the frame at least 0.05, the state after the frame is not
    GAME_OVER. *)
Theorem update_no_game_over (f : Frame) (s : Session) :
  gameState s <> GAME_OVER ->
  1 < health (player s) \/ (forall k, 0.05 <= random f k) ->
  gameState (update f s) <> GAME_OVER.
Proof.
  intros Hgs Hsafe.
  assert (Hno : forall (hit : bool) (k : nat),
            (hit && bool_decide (random f k < 0.05))
            && bool_decide
                 ((if hit && bool_decide (random f k < 0.05)
                   then health (player s) - 1 else health (player s)) <= 0)
            = false).
  { intros hit k.
    destruct (hit && bool_decide (random f k < 0.05)) eqn:Hd; [|done].
    apply andb_true_iff in Hd as [_ Hroll]. apply bool_decide_eq_true_1 in Hroll.
    destruct Hsafe as [Hh|Hr]; [|specialize (Hr k); lra].
    cbn [andb]. apply bool_decide_eq_false_2. lra. }
  update_cases f s; try done; cbn [gameState]; rewrite Hno;
    destruct (negb _); try done; destruct (victory _); done.
Qed.

Lemma update_no_game_over_witness :
  gameState (update (stickFrame 0 0) wallFight) <> GAME_OVER.
Proof.
  apply (update_no_game_over (stickFrame 0 0) wallFight); [done|].
  left. cbn. lra.
Defined.

Lemma enemiesLoop_victory f playerState currentRoom nextX nextY (es : list Entity) :
  forall (st st' : LoopState) (written returned : list Entity),
  enemiesLoop f playerState currentRoom nextX nextY st es = (st', written, returned) ->
  isBossRoom currentRoom = false ->
  victory st' = victory st.
Proof.
  induction es as [|e es IH]; intros st st' written returned; cbn [enemiesLoop].
  - by intros [= <- <- <-].
  - destruct (stepEnemy _ _ _ _ _ _ e) as [[st1 w] r] eqn:Hstep.
    destruct (enemiesLoop _ _ _ _ _ st1 es) as [[st2 ws] rs] eqn:Hloop.
    intros [= <- <- <-] Hboss. rewrite (IH _ _ _ _ Hloop Hboss).
    unfold stepEnemy in Hstep. destruct (negb (isActive e)).
    + by injection Hstep as <- <- <-.
    + destruct (clampEnemy _ _) as [eX eY].
      destruct (hitLoop _ _ _ _ _) as [[hs projs] row].
      injection Hstep as <- <- <-. cbn [victory]. rewrite Hboss.
      by rewrite andb_false_r, orb_false_r.
Qed.

(** X16.  Victory is declared only in the boss room: a frame played in a
    room that is not the boss room never sets the state to VICTORY. *)
Theorem update_victory_only_in_boss_room (f : Frame) (s : Session) (room : Room) :
  gameState s = PLAYING ->
  rooms s !! currentRoomIndex s = Some room ->
  isBossRoom room = false ->
  gameState (update f s) <> VICTORY.
Proof.
  intros Hplay Hroom Hboss. unfold update.
  rewrite (bool_decide_eq_true_2 _ Hplay). cbn [negb]. rewrite Hroom.
  destruct (moveVector f) as [dx dy].
  destruct (clampPlayer _ _ _ _) as [nextX nextY].
  destruct (shoot _ _ _ _ _) as [shots lastShot].
  destruct (enemiesLoop _ _ _ _ _ _ _) as [[st written] roomEnemies] eqn:Hloop.
  apply enemiesLoop_victory in Hloop; [|exact Hboss]. cbn [victory] in Hloop.
  unfold commit. rewrite Hloop, Hplay.
  destruct (roomSwitch _ _ _) as [[[[gx gy] sx] sy]|];
    [destruct (isRoomCleared _); [destruct (findRoomIndex _ _ _)|]|];
    cbn [gameState]; destruct (_ && _); try done; destruct (negb _); done.
Qed.

Lemma update_victory_only_in_boss_room_witness :
  gameState (update (stickFrame 0 0) wallFight) <> VICTORY.
Proof.
  apply (update_victory_only_in_boss_room (stickFrame 0 0) wallFight fightRoom);
    reflexivity.
Defined.

(** X17.  In a room that does not count as cleared a frame costs at most
    one health unit and never restores any, items picked up in that frame
    included: the health after the frame is the health before, or one
    less, the latter only if some random draw of the frame is below
    0.05. *)
Theorem update_fight_health (f : Frame) (s : Session) (room : Room) :
  gameState s = PLAYING ->
  rooms s !! currentRoomIndex s = Some room ->
  isRoomCleared room = false ->
  -60 <= size (player s) <= 500 ->
  health (player (update f s)) = health (player s)
  \/ (health (player (update f s)) = health (player s) - 1
      /\ exists k, random f k < 0.05).
Proof.
  intros Hplay Hroom Hc Hsize. unfold update.
  rewrite (bool_decide_eq_true_2 _ Hplay). cbn [negb]. rewrite Hroom.
  destruct (moveVector f) as [dx dy].
  pose proof (clampPlayer_uncleared (player s) room
                (x (position (player s)) + dx * speed (player s))
                (y (position (player s)) + dy * speed (player s)) Hc (proj2 Hsize)) as Hb.
  destruct (clampPlayer _ _ _ _) as [nextX nextY]. cbn [fst snd] in Hb.
  destruct (shoot _ _ _ _ _) as [shots lastShot].
  destruct (enemiesLoop _ _ _ _ _ _ _) as [[st written] roomEnemies].
  unfold commit.
  rewrite roomSwitch_inside
    by (unfold wallThickness, CANVAS_WIDTH, CANVAS_HEIGHT in *; lra).
  cbn [player health with_facing with_health].
  destruct (_ && bool_decide (random f (draws st) < 0.05)) eqn:Hd; [|by left].
  right. split; [done|]. exists (draws st).
  apply andb_true_iff in Hd as [_ Hroll]. by apply bool_decide_eq_true_1 in Hroll.
Qed.

Lemma update_fight_health_witness :
  health (player (update (stickFrame 0 0) wallFight)) = health (player wallFight)
  \/ (health (player (update (stickFrame 0 0) wallFight)) = health (player wallFight) - 1
      /\ exists k, random (stickFrame 0 0) k < 0.05).
Proof.
  apply (update_fight_health (stickFrame 0 0) wallFight fightRoom); try reflexivity.
  cbn; unfold PLAYER_SIZE; lra.
Defined.

(** ** Shots *)

(** X18.  What the player fires in a frame: nothing, with the shot timer
    untouched, or, only when more than [fireRate] ms have passed since the
    last shot, one tear (three with TRIPLE_SHOT) and the timer set to now.
    Every tear is player-owned, active, with an empty hit ledger, starts
    at the player's position, carries the player's damage, pierces exactly
    when the player has PIERCING, and flies at [PROJECTILE_SPEED]. *)
Theorem shoot_fires_player_tears (f : Frame) (p : Entity) (lastShot : Z)
    (nx ny : number) :
  let shots := (shoot f p lastShot nx ny).1 in
  let t' := (shoot f p lastShot nx ny).2 in
  ((shots = [] /\ t' = lastShot)
   \/ ((fireRate < now f - lastShot)%Z /\ t' = now f
       /\ length shots = if bool_decide (TRIPLE_SHOT ∈ modifiers p) then 3%nat else 1%nat))
  /\ Forall (fun q : Projectile =>
       owner q = ByPlayer /\ isActive q = true /\ hitIds q = []
       /\ position q = mkVector2 nx ny /\ damage q = damage p
       /\ piercing q = bool_decide (PIERCING ∈ modifiers p)
       /\ x (velocity q) * x (velocity q) + y (velocity q) * y (velocity q)
          = PROJECTILE_SPEED * PROJECTILE_SPEED) shots.
Proof.
  cbv zeta. unfold shoot.
  destruct (bool_decide_reflect (now f - lastShot > fireRate)%Z) as [Hrate|_];
    [|split; [by left|constructor]].
  destruct (aim f) as [sx sy].
  destruct (bool_decide (sqrt (sx * sx + sy * sy) > 0.4));
    [|split; [by left|constructor]].
  cbn [fst snd]. split.
  - right. split; [lia|]. split; [done|].
    rewrite length_imap. by destruct (bool_decide (TRIPLE_SHOT ∈ modifiers p)).
  - apply Forall_forall. intros q Hq.
    apply list_elem_of_lookup in Hq as [i Hq].
    apply list_lookup_imap_Some in Hq as (angle & _ & ->).
    cbn. repeat split.
    pose proof (sin2_cos2 angle) as Hsc. unfold Rsqr in Hsc. nra.
Qed.

(** X19.  Only a SHOOTER whose cooldown has run out shoots, one shot per
    frame, and its cooldown restarts at 2000 ms; the shot is enemy-owned,
    never piercing, active, does 1 damage, starts at the enemy's position
    and flies at speed 4.  Every other enemy, and a SHOOTER still cooling
    down, adds no projectile and draws no random number. *)
Theorem enemyBehaviour_shots (f : Frame) (nextX nextY : number) (e : Entity)
    (cd : number) (k : nat) :
  let b := enemyBehaviour f nextX nextY e cd k in
  (b_shots b = [] /\ b_draws b = k)
  \/ (variant e = Some SHOOTER /\ cd <= 0 /\ b_cooldown b = 2000 /\ b_draws b = S k
      /\ exists q : Projectile,
           b_shots b = [q]
           /\ owner q = ByEnemy /\ piercing q = false /\ isActive q = true
           /\ hitIds q = [] /\ damage q = 1 /\ position q = position e
           /\ x (velocity q) * x (velocity q) + y (velocity q) * y (velocity q) = 16).
Proof.
  cbv zeta. unfold enemyBehaviour.
  destruct (bool_decide_reflect (variant e = Some SHOOTER)) as [Hv|_].
  - match goal with
    | |- context [let '(vx, vy) := ?m in _] => destruct m as [vx vy]
    end.
    destruct (bool_decide_reflect (cd <= 0)) as [Hcd|_]; [|by left].
    right. cbn [b_shots b_draws b_cooldown]. repeat split; try done.
    eexists. split; [reflexivity|]. cbn. repeat split; try done.
    + by destruct (position e).
    + match goal with |- context [cos ?a] => pose proof (sin2_cos2 a) as Hsc end.
      unfold Rsqr in Hsc. nra.
  - destruct (bool_decide (variant e = Some DASHER)).
    + match goal with
      | |- context [let '(vx, vy) := ?m in _] => destruct m as [vx vy]
      end. by left.
    + match goal with
      | |- context [let '(vx, vy) := ?m in _] => destruct m as [vx vy]
      end. by left.
Qed.

(** X20.  An enemy that is neither SHOOTER nor DASHER (basic enemies,
    tanks, the boss) walks straight at the player's new position with
    exactly its speed, or stands still once within 5 of it; it never
    shoots and its cooldown only decays. *)
Theorem enemyBehaviour_chaser (f : Frame) (nextX nextY : number) (e : Entity)
    (cd : number) (k : nat) :
  variant e <> Some SHOOTER -> variant e <> Some DASHER ->
  let b := enemyBehaviour f nextX nextY e cd k in
  let dx := nextX - x (position e) in
  let dy := nextY - y (position e) in
  b_shots b = [] /\ b_cooldown b = cd
  /\ ((dx * dx + dy * dy <= 25 /\ b_vx b = 0 /\ b_vy b = 0)
      \/ (25 < dx * dx + dy * dy
          /\ b_vx b * b_vx b + b_vy b * b_vy b = speed e * speed e
          /\ b_vx b * dy = b_vy b * dx
          /\ 0 <= (b_vx b * dx + b_vy b * dy) * speed e)).
Proof.
  intros Hs Hd. cbv zeta. unfold enemyBehaviour.
  rewrite (bool_decide_eq_false_2 _ Hs), (bool_decide_eq_false_2 _ Hd).
  set (dx := nextX - x (position e)). set (dy := nextY - y (position e)).
  set (q := dx * dx + dy * dy).
  assert (Hq : 0 <= q) by (unfold q; nra).
  pose proof (sqrt_pos q) as Hpos. pose proof (sqrt_sqrt q Hq) as Hsq.
  destruct (bool_decide_reflect (sqrt q > 5)) as [Hfar|Hnear];
    cbn [b_shots b_cooldown b_vx b_vy]; (split; [done|]); (split; [done|]).
  - right. assert (Hne : sqrt q <> 0) by lra.
    split; [nra|]. split; [|split].
    + replace (dx / sqrt q * speed e * (dx / sqrt q * speed e)
               + dy / sqrt q * speed e * (dy / sqrt q * speed e))
        with (q / (sqrt q * sqrt q) * (speed e * speed e))
        by (unfold q; field; exact Hne).
      rewrite Hsq. field. nra.
    + field. exact Hne.
    + replace ((dx / sqrt q * speed e * dx + dy / sqrt q * speed e * dy) * speed e)
        with (q * (speed e * speed e) / sqrt q) by (unfold q; field; exact Hne).
      apply Rmult_le_pos; [nra|]. left. apply Rinv_0_lt_compat. lra.
  - left. split; [nra|done].
Qed.

Lemma enemyBehaviour_chaser_witness :
  let b := enemyBehaviour (stickFrame 0 0) 400 300 (grunt 52 300) 0 0 in
  let dx := 400 - x (position (grunt 52 300)) in
  let dy := 300 - y (position (grunt 52 300)) in
  b_shots b = [] /\ b_cooldown b = 0
  /\ ((dx * dx + dy * dy <= 25 /\ b_vx b = 0 /\ b_vy b = 0)
      \/ (25 < dx * dx + dy * dy
          /\ b_vx b * b_vx b + b_vy b * b_vy b
             = speed (grunt 52 300) * speed (grunt 52 300)
          /\ b_vx b * dy = b_vy b * dx
          /\ 0 <= (b_vx b * dx + b_vy b * dy) * speed (grunt 52 300))).
Proof.
  apply (enemyBehaviour_chaser (stickFrame 0 0) 400 300 (grunt 52 300) 0 0); done.
Defined.

(** ** The generated dungeon *)

Lemma generateDungeon_sample : generateDungeon 2 zeroRandom 3 = Some sampleDungeon.
Proof.
  assert (Hgrow : grow 2 zeroRandom 3 0 [("0,0", (0, 0)%Z)] [(0, 0)%Z]
                  = Some ([("0,0", (0, 0)); ("0,-1", (0, -1)); ("0,1", (0, 1))]%Z, 2%nat)).
  { etrans; [apply (grow_zeroRandom_step _ _ _ _ _ _ 0 (-1)); vm_compute; done|].
    etrans; [apply (grow_zeroRandom_step _ _ _ _ _ _ 0 1); vm_compute; done|].
    reflexivity. }
  unfold generateDungeon. rewrite Hgrow.
  change (pickBoss _) with "0,-1".
  set (pir := filter _ _).
  assert (Hpir : pir = ["0,1"]) by (by vm_compute).
  rewrite Hpir. cbn [dr_random zeroRandom]. rewrite randomIndex_zero.
  reflexivity.
Qed.

Lemma zeroRandom_unit (k : nat) : 0 <= dr_random zeroRandom k < 1.
Proof. cbn. lra. Qed.

Lemma firstFree_Some (parent : Z * Z) (ds : list (Z * Z)) (v : Visited) (nx ny : Z) :
  firstFree parent ds v = Some (nx, ny) ->
  (exists d, d ∈ ds /\ (nx, ny) = (parent.1 + d.1, parent.2 + d.2)%Z)
  /\ coordKey nx ny ∉ v.*1.
Proof.
  induction ds as [|d ds IH]; cbn [firstFree]; [done|].
  unfold visited_has.
  destruct (bool_decide_reflect
              (coordKey (parent.1 + d.1) (parent.2 + d.2) ∈ v.*1)) as [Hin|Hout];
    cbn [negb].
  - intros Hf. destruct (IH Hf) as [(d' & Hd' & Heq) Hk].
    split; [|done]. exists d'. split; [by right|done].
  - intros [= <- <-]. split; [|done]. exists d. split; [by left|done].
Qed.

Lemma shuffledDirs_dirs (choice : nat) (d : Z * Z) :
  d ∈ shuffledDirs choice -> d ∈ dirs.
Proof.
  unfold shuffledDirs.
  destruct (permutations dirs !! (choice mod 24)%nat) as [l|] eqn:Hl; cbn [default];
    [|done].
  apply list_elem_of_lookup_2, permutations_Permutation in Hl.
  intros Hd. by rewrite Hl.
Qed.

Lemma zlookup_elem_of {A} (l : list A) (i : Z) (a : A) : zlookup l i = Some a -> a ∈ l.
Proof.
  unfold zlookup. destruct (bool_decide _); [|done]. apply list_elem_of_lookup_2.
Qed.

Lemma wellGrown_start : wellGrown [("0,0", (0, 0)%Z)].
Proof.
  split; [done|]. split; [by repeat constructor|].
  split; [cbn; apply NoDup_singleton|].
  intros [|i] kv Hi Hpos; [lia|done].
Qed.

Lemma wellGrown_step (v : Visited) (parent : Z * Z) (nx ny : Z) :
  wellGrown v -> parent ∈ v.*2 ->
  (exists d, d ∈ dirs /\ (nx, ny) = (parent.1 + d.1, parent.2 + d.2)%Z) ->
  coordKey nx ny ∉ v.*1 ->
  wellGrown (v ++ [(coordKey nx ny, (nx, ny))]).
Proof.
  intros (H0 & Hkeys & Hnd & Hadj) Hparent Hd Hfresh.
  split; [by apply lookup_app_l_Some|].
  split; [apply Forall_app; split; [done|by repeat constructor]|].
  split.
  { rewrite fmap_app. apply NoDup_app. split; [done|]. split.
    - intros k Hk Hk'. cbn in Hk'. apply list_elem_of_singleton in Hk'. by subst.
    - cbn. apply NoDup_singleton. }
  intros i kv Hi Hpos. apply lookup_snoc_Some in Hi as [[Hlt Hi]|[-> <-]].
  - destruct (Hadj i kv Hi Hpos) as (j & pkv & Hj & Hpj & Ha).
    exists j, pkv. split; [done|]. split; [by apply lookup_app_l_Some|done].
  - apply list_elem_of_fmap in Hparent as (pkv & -> & Hp).
    apply list_elem_of_lookup in Hp as [j Hj].
    exists j, pkv. split; [by eapply lookup_lt_Some|].
    split; [by apply lookup_app_l_Some|exact Hd].
Qed.

Lemma grow_wellGrown (fuel : nat) (rnd : DungeonRandom) (t : Z) :
  forall (k : nat) (v : Visited) (c : list (Z * Z)) (v' : Visited) (k' : nat),
  grow fuel rnd t k v c = Some (v', k') ->
  wellGrown v -> c = v.*2 -> (Z.of_nat (length v) <= Z.max 1 t)%Z ->
  wellGrown v' /\ Z.of_nat (length v') = Z.max 1 t.
Proof.
  induction fuel as [|fuel IH]; intros k v c v' k' Hgrow Hwg Hc Hlen.
  - cbn [grow] in Hgrow.
    destruct (bool_decide_reflect (Z.of_nat (length v) < t)%Z) as [Hlt|Hge]; [done|].
    injection Hgrow as <- <-. split; [done|].
    destruct Hwg as (H0 & _). apply lookup_lt_Some in H0. lia.
  - cbn [grow] in Hgrow.
    destruct (bool_decide_reflect (Z.of_nat (length v) < t)%Z) as [Hlt|Hge].
    2:{ injection Hgrow as <- <-. split; [done|].
        destruct Hwg as (H0 & _). apply lookup_lt_Some in H0. lia. }
    destruct (bool_decide_reflect (length c = 0%nat)) as [Hempty|_].
    { exfalso. subst c. rewrite length_fmap in Hempty.
      destruct Hwg as (H0 & _). apply lookup_lt_Some in H0. lia. }
    destruct (zlookup c _) as [parent|] eqn:Hparent; [|done].
    apply zlookup_elem_of in Hparent.
    destruct (firstFree parent _ v) as [[nx ny]|] eqn:Hfree.
    + apply firstFree_Some in Hfree as [(d & Hd & Heq) Hfresh].
      apply shuffledDirs_dirs in Hd.
      apply (IH _ _ _ _ _ Hgrow).
      * apply (wellGrown_step v parent); [done|by subst c|by exists d|done].
      * subst c. by rewrite !fmap_app.
      * rewrite length_app. cbn. lia.
    + by apply (IH _ _ _ _ _ Hgrow).
Qed.

Lemma pickBoss_fold (v : Visited) :
  let acc := fold_left
    (fun (acc : Z * string) (kv : string * (Z * Z)) =>
       let dist := (Z.abs kv.2.1 + Z.abs kv.2.2)%Z in
       if bool_decide (dist > acc.1)%Z && negb (bool_decide (kv.1 = "0,0"))
       then (dist, kv.1) else acc)
    v ((-1)%Z, "") in
  acc.2 <> "0,0"
  /\ ((acc.1 = (-1)%Z /\ acc.2 = "" /\ forall kv, kv ∈ v -> kv.1 = "0,0")
      \/ (exists kv, kv ∈ v /\ kv.1 = acc.2 /\ acc.1 = cellDist kv
          /\ forall kv', kv' ∈ v -> kv'.1 <> "0,0" -> (cellDist kv' <= acc.1)%Z)).
Proof.
  induction v as [|kv v IH] using rev_ind; cbv zeta.
  - cbn. split; [done|]. left. split; [done|]. split; [done|].
    intros kv Hkv. by apply elem_of_nil in Hkv.
  - rewrite fold_left_app. cbn [fold_left]. cbv zeta in IH.
    set (acc := fold_left _ v _) in *. destruct IH as [Hne Hcases].
    destruct (bool_decide_reflect (Z.abs kv.2.1 + Z.abs kv.2.2 > acc.1)%Z) as [Hgt|Hle];
      destruct (bool_decide_reflect (kv.1 = "0,0")) as [Horigin|Hother]; cbn [andb negb fst snd].
    + split; [done|]. destruct Hcases as [(Hd & Hk & Hall)|(kv0 & Hin & Hk & Hd & Hmax)].
      * left. split; [done|]. split; [done|].
        intros kv' Hkv'. apply elem_of_app in Hkv' as [?|Hkv']; [by apply Hall|].
        apply list_elem_of_singleton in Hkv'. by subst.
      * right. exists kv0. split; [apply elem_of_app; by left|]. split; [done|].
        split; [done|]. intros kv' Hkv' Hno.
        apply elem_of_app in Hkv' as [?|Hkv']; [by apply Hmax|].
        apply list_elem_of_singleton in Hkv'. by subst.
    + split; [done|]. right. exists kv.
      split; [apply elem_of_app; right; by apply list_elem_of_singleton|].
      split; [done|]. split; [done|]. intros kv' Hkv' Hno.
      apply elem_of_app in Hkv' as [Hkv'|Hkv'].
      * destruct Hcases as [(Hd & Hk & Hall)|(kv0 & Hin & Hk & Hd & Hmax)].
        -- by specialize (Hall kv' Hkv').
        -- specialize (Hmax kv' Hkv' Hno). lia.
      * apply list_elem_of_singleton in Hkv'. subst. unfold cellDist. lia.
    + split; [done|]. destruct Hcases as [(Hd & Hk & Hall)|(kv0 & Hin & Hk & Hd & Hmax)].
      * left. split; [done|]. split; [done|].
        intros kv' Hkv'. apply elem_of_app in Hkv' as [?|Hkv']; [by apply Hall|].
        apply list_elem_of_singleton in Hkv'. by subst.
      * right. exists kv0. split; [apply elem_of_app; by left|]. split; [done|].
        split; [done|]. intros kv' Hkv' Hno.
        apply elem_of_app in Hkv' as [?|Hkv']; [by apply Hmax|].
        apply list_elem_of_singleton in Hkv'. by subst.
    + split; [done|]. destruct Hcases as [(Hd & Hk & Hall)|(kv0 & Hin & Hk & Hd & Hmax)].
      * exfalso. unfold cellDist in *. lia.
      * right. exists kv0. split; [apply elem_of_app; by left|]. split; [done|].
        split; [done|]. intros kv' Hkv' Hno.
        apply elem_of_app in Hkv' as [?|Hkv']; [by apply Hmax|].
        apply list_elem_of_singleton in Hkv'. subst. unfold cellDist. lia.
Qed.

Lemma pickBoss_not_start (v : Visited) : pickBoss v <> "0,0".
Proof. apply (pickBoss_fold v). Qed.

Lemma pickBoss_farthest (v : Visited) (kv1 : string * (Z * Z)) :
  kv1 ∈ v -> kv1.1 <> "0,0" ->
  exists kv, kv ∈ v /\ kv.1 = pickBoss v
             /\ forall kv', kv' ∈ v -> kv'.1 <> "0,0" -> (cellDist kv' <= cellDist kv)%Z.
Proof.
  intros Hin Hno. destruct (pickBoss_fold v) as [_ [(_ & _ & Hall)|(kv & Hkv & Hk & Hd & Hmax)]].
  - by specialize (Hall kv1 Hin).
  - exists kv. split; [done|]. split; [done|]. intros kv' Hkv' Hno'.
    rewrite <- Hd. by apply Hmax.
Qed.

Lemma coordKey_nonempty (gx gy : Z) : coordKey gx gy <> "".
Proof. unfold coordKey. by destruct (showZ gx). Qed.

Lemma randomIndex_in_range (r : number) (n : nat) :
  0 <= r < 1 -> (0 < n)%nat -> (0 <= randomIndex r n < Z.of_nat n)%Z.
Proof.
  intros Hr Hn. unfold randomIndex.
  pose proof (Math_floor_bounds (r * INR n)) as [Hlo Hhi].
  assert (Hn' : 0 < INR n) by (apply lt_0_INR; lia).
  split.
  - apply le_IZR. apply Rnot_lt_le. intros Hneg.
    assert (IZR (Math_floor (r * INR n)) <= -1).
    { apply IZR_le. apply lt_IZR in Hneg. lia. }
    nra.
  - apply lt_IZR. rewrite <- INR_IZR_INZ. nra.
Qed.

Lemma buildRoom_fields rnd (bossId itemRoomId : string) (k : nat) (kv : string * (Z * Z)) :
  let r := (buildRoom rnd bossId itemRoomId k kv).1 in
  room_id r = kv.1 /\ gridX r = kv.2.1 /\ gridY r = kv.2.2 /\ doors r = ∅
  /\ isBossRoom r = bool_decide (kv.1 = bossId)
  /\ isItemRoom r = bool_decide (kv.1 = itemRoomId)
  /\ cleared r = bool_decide (kv.1 = "0,0") || bool_decide (kv.1 = itemRoomId).
Proof.
  cbv zeta. unfold buildRoom.
  destruct (bool_decide (kv.1 = itemRoomId)), (bool_decide (kv.1 = bossId)),
    (bool_decide (kv.1 = "0,0")); done.
Qed.

Lemma buildRoom_item rnd (bossId itemRoomId : string) (k : nat) (kv : string * (Z * Z)) :
  kv.1 = itemRoomId ->
  let r := (buildRoom rnd bossId itemRoomId k kv).1 in
  enemies r = []
  /\ exists it : Item,
       items r = [it] /\ isActive it = true
       /\ position it = mkVector2 (CANVAS_WIDTH / 2) (CANVAS_HEIGHT / 2).
Proof.
  intros Hk. cbv zeta. unfold buildRoom. rewrite (bool_decide_eq_true_2 _ Hk).
  cbn. split; [done|]. by eexists.
Qed.

Lemma buildRoom_no_item rnd (bossId itemRoomId : string) (k : nat) (kv : string * (Z * Z)) :
  kv.1 <> itemRoomId -> items (buildRoom rnd bossId itemRoomId k kv).1 = [].
Proof.
  intros Hk. unfold buildRoom. rewrite (bool_decide_eq_false_2 _ Hk).
  destruct (bool_decide (kv.1 = bossId)), (bool_decide (kv.1 = "0,0")); done.
Qed.

Lemma buildRoom_boss rnd (bossId itemRoomId : string) (k : nat) (kv : string * (Z * Z)) :
  kv.1 = bossId -> kv.1 <> itemRoomId ->
  enemies (buildRoom rnd bossId itemRoomId k kv).1 = [makeBoss kv.1].
Proof.
  intros Hb Hi. unfold buildRoom.
  by rewrite (bool_decide_eq_false_2 _ Hi), (bool_decide_eq_true_2 _ Hb).
Qed.

Lemma buildRoom_start rnd (bossId itemRoomId : string) (k : nat) (kv : string * (Z * Z)) :
  kv.1 = "0,0" -> bossId <> "0,0" -> itemRoomId <> "0,0" ->
  enemies (buildRoom rnd bossId itemRoomId k kv).1 = [].
Proof.
  intros Hs Hb Hi. unfold buildRoom.
  rewrite (bool_decide_eq_false_2 (kv.1 = itemRoomId)) by congruence.
  rewrite (bool_decide_eq_false_2 (kv.1 = bossId)) by congruence.
  by rewrite (bool_decide_eq_true_2 _ Hs).
Qed.

Lemma makeEnemy_ok (roomKey : string) (distFactor : Z) (j : nat) (rand rx ry rcd : number) :
  (0 <= distFactor)%Z -> 0 <= rx <= 1 -> 0 <= ry <= 1 ->
  let e := makeEnemy roomKey distFactor j rand rx ry rcd in
  type e = ENEMY /\ isActive e = true /\ 0 < health e
  /\ 100 <= x (position e) <= CANVAS_WIDTH - 100
  /\ 100 <= y (position e) <= CANVAS_HEIGHT - 100.
Proof.
  intros Hd Hx Hy. cbv zeta. unfold makeEnemy.
  assert (0 <= IZR distFactor) by (by apply IZR_le).
  unfold CANVAS_WIDTH, CANVAS_HEIGHT.
  destruct (bool_decide (rand > 0.85)); [cbn; repeat split; nra|].
  destruct (bool_decide (rand > 0.65)); [cbn; repeat split; nra|].
  destruct (bool_decide (rand > 0.5)); cbn; repeat split; nra.
Qed.

Lemma makeEnemies_ok (rnd : DungeonRandom) (roomKey : string) (distFactor : Z) (n : nat) :
  (forall k, 0 <= dr_random rnd k < 1) -> (0 <= distFactor)%Z ->
  forall j k,
  length (makeEnemies rnd roomKey distFactor n j k) = n
  /\ Forall (fun e : Entity =>
       isActive e = true /\ 0 < health e
       /\ 100 <= x (position e) <= CANVAS_WIDTH - 100
       /\ 100 <= y (position e) <= CANVAS_HEIGHT - 100)
       (makeEnemies rnd roomKey distFactor n j k).
Proof.
  intros Hrnd Hd. induction n as [|n IH]; intros j k; cbn [makeEnemies].
  - split; [done|constructor].
  - destruct (IH (S j) (k + 4)%nat) as [Hlen Hall]. split; [cbn; lia|].
    constructor; [|exact Hall].
    pose proof (Hrnd (k + 1)%nat). pose proof (Hrnd (k + 2)%nat).
    by apply makeEnemy_ok; [|lra|lra].
Qed.

(** The enemies a room is generated with. *)
Lemma buildRoom_population rnd (bossId itemRoomId : string) (k : nat)
    (kv : string * (Z * Z)) :
  (forall k, 0 <= dr_random rnd k < 1) -> bossId <> "0,0" ->
  let r := (buildRoom rnd bossId itemRoomId k kv).1 in
  (cleared r = true <-> enemies r = [])
  /\ Forall (fun e : Entity =>
       isActive e = true /\ 0 < health e
       /\ 100 <= x (position e) <= CANVAS_WIDTH - 100
       /\ 100 <= y (position e) <= CANVAS_HEIGHT - 100) (enemies r).
Proof.
  intros Hrnd Hboss. cbv zeta. unfold buildRoom.
  destruct (bool_decide_reflect (kv.1 = itemRoomId)) as [Hi|Hi];
    [cbn; rewrite orb_true_r; by split|].
  destruct (bool_decide_reflect (kv.1 = bossId)) as [Hb|Hb].
  { rewrite (bool_decide_eq_false_2 (kv.1 = "0,0")) by congruence.
    cbn [fst enemies cleared orb]. split; [split; done|]. constructor; [|constructor].
    cbn [makeBoss isActive health position x y].
    unfold CANVAS_WIDTH, CANVAS_HEIGHT. repeat split; try done; lra. }
  destruct (bool_decide_reflect (kv.1 = "0,0")) as [Hs|Hs]; cbn [negb];
    [cbn; by split|].
  cbn [fst enemies cleared orb].
  set (dist := (Z.abs kv.2.1 + Z.abs kv.2.2)%Z).
  assert (Hdist : (0 <= dist)%Z) by (unfold dist; lia).
  set (count := (Math_floor (dr_random rnd k * 3)%R + 1 + dist / 4)%Z).
  assert (Hcount : (1 <= count)%Z).
  { unfold count. pose proof (Hrnd k) as Hr.
    pose proof (Math_floor_bounds (dr_random rnd k * 3)) as [_ Hhi].
    assert (0 <= Math_floor (dr_random rnd k * 3)%R)%Z.
    { apply le_IZR. apply Rnot_lt_le. intros Hneg.
      assert (IZR (Math_floor (dr_random rnd k * 3)) <= -1).
      { apply IZR_le. apply lt_IZR in Hneg. lia. }
      lra. }
    pose proof (Z.div_pos dist 4 Hdist). lia. }
  destruct (makeEnemies_ok rnd kv.1 dist (Z.to_nat count) Hrnd Hdist 0%nat (S k))
    as [Hlen Hall].
  split; [|exact Hall]. split; [done|].
  intros Hnil. rewrite Hnil in Hlen. cbn in Hlen. lia.
Qed.

Lemma buildRooms_Forall2 rnd (bossId itemRoomId : string) (v : Visited) :
  forall k,
  Forall2 (fun kv r => exists k0, r = (buildRoom rnd bossId itemRoomId k0 kv).1)
    v (buildRooms rnd bossId itemRoomId k v).
Proof.
  induction v as [|kv v IH]; intros k; cbn [buildRooms]; [constructor|].
  destruct (buildRoom rnd bossId itemRoomId k kv) as [r k'] eqn:Hr.
  constructor; [|apply IH]. exists k. by rewrite Hr.
Qed.

(** How a generated dungeon is put together: the cells of the growth
    loop in insertion order, one room built per cell, doors linked. *)
Lemma generateDungeon_structure (fuel : nat) (rnd : DungeonRandom) (t : Z)
    (rs : list Room) :
  generateDungeon fuel rnd t = Some rs ->
  exists (v : Visited) (itemRoomId : string) (rs0 : list Room),
    wellGrown v /\ Z.of_nat (length v) = Z.max 1 t
    /\ rs = linkDoors rs0
    /\ Forall2 (fun kv r0 =>
         exists k0, r0 = (buildRoom rnd (pickBoss v) itemRoomId k0 kv).1) v rs0
    /\ itemRoomId <> "0,0"
    /\ (itemRoomId = "" \/ (itemRoomId ∈ v.*1 /\ itemRoomId <> pickBoss v))
    /\ ((forall k, 0 <= dr_random rnd k < 1) ->
        (exists key, key ∈ v.*1 /\ key <> "0,0" /\ key <> pickBoss v) ->
        itemRoomId ∈ v.*1).
Proof.
  unfold generateDungeon. intros Hgen.
  destruct (grow _ _ _ _ _ _) as [[v k]|] eqn:Hgrow; [|done].
  apply grow_wellGrown in Hgrow as [Hwg Hlen]; [|apply wellGrown_start|done|cbn; lia].
  set (possible := filter (fun key : string => key <> "0,0" /\ key <> pickBoss v) v.*1)
    in Hgen.
  assert (Hposs : forall key, key ∈ possible ->
            key ∈ v.*1 /\ key <> "0,0" /\ key <> pickBoss v).
  { intros key Hkey. apply list_elem_of_filter in Hkey as [[? ?] ?]. done. }
  destruct (bool_decide_reflect (0 < length possible)%nat) as [Hsome|Hnone].
  - injection Hgen as <-.
    set (pick := zlookup possible (randomIndex (dr_random rnd k) (length possible))).
    exists v, (default "" pick), (buildRooms rnd (pickBoss v) (default "" pick) (S k) v).
    split; [done|]. split; [done|]. split; [done|].
    split; [apply buildRooms_Forall2|].
    assert (Hpick : pick = None \/ exists key, pick = Some key /\ key ∈ possible).
    { destruct pick as [key|] eqn:Hp; [|by left]. right. exists key. split; [done|].
      by apply zlookup_elem_of in Hp. }
    split; [|split].
    + destruct Hpick as [-> | (key & -> & Hkey)]; [done|]. by apply Hposs.
    + destruct Hpick as [-> | (key & -> & Hkey)]; [by left|]. right.
      destruct (Hposs key Hkey) as (? & ? & ?). done.
    + intros Hrnd _.
      destruct (randomIndex_in_range (dr_random rnd k) (length possible) (Hrnd k) Hsome)
        as [Hlo Hhi].
      unfold pick, zlookup. rewrite bool_decide_eq_true_2 by done.
      destruct (lookup_lt_is_Some_2 possible (Z.to_nat (randomIndex (dr_random rnd k)
                  (length possible)))) as [key Hkey]; [lia|].
      rewrite Hkey. cbn. apply list_elem_of_lookup_2 in Hkey. by apply Hposs.
  - injection Hgen as <-.
    exists v, "", (buildRooms rnd (pickBoss v) "" k v).
    split; [done|]. split; [done|]. split; [done|].
    split; [apply buildRooms_Forall2|]. split; [done|]. split; [by left|].
    intros _ (key & Hkey & Hno & Hnb). exfalso. apply Hnone.
    assert (Hin : key ∈ possible) by (by apply list_elem_of_filter).
    destruct possible; [by apply elem_of_nil in Hin|cbn; lia].
Qed.

Lemma generateDungeon_rooms (fuel : nat) (rnd : DungeonRandom) (t : Z) (rs : list Room) :
  generateDungeon fuel rnd t = Some rs ->
  exists (v : Visited) (itemRoomId : string) (rs0 : list Room),
    wellGrown v /\ Z.of_nat (length v) = Z.max 1 t
    /\ Forall2 (fun kv r0 =>
         exists k0, r0 = (buildRoom rnd (pickBoss v) itemRoomId k0 kv).1) v rs0
    /\ Forall2 (fun kv r =>
         exists k0, r = linkRoom rs0 (buildRoom rnd (pickBoss v) itemRoomId k0 kv).1) v rs
    /\ itemRoomId <> "0,0"
    /\ (itemRoomId = "" \/ (itemRoomId ∈ v.*1 /\ itemRoomId <> pickBoss v))
    /\ ((forall k, 0 <= dr_random rnd k < 1) ->
        (exists key, key ∈ v.*1 /\ key <> "0,0" /\ key <> pickBoss v) ->
        itemRoomId ∈ v.*1).
Proof.
  intros Hgen.
  destruct (generateDungeon_structure fuel rnd t rs Hgen)
    as (v & itemRoomId & rs0 & Hwg & Hlen & -> & Hrs0 & H1 & H2 & H3).
  exists v, itemRoomId, rs0. repeat (split; [done|]). split; [|done].
  unfold linkDoors. apply Forall2_fmap_r.
  eapply Forall2_impl; [exact Hrs0|]. intros kv r0 [k0 ->]. by exists k0.
Qed.

(** What the rooms of a generated dungeon carry over from their cell. *)
Lemma built_fields rnd (bossId itemRoomId : string) (rs0 : list Room) (k0 : nat)
    (kv : string * (Z * Z)) :
  let r0 := (buildRoom rnd bossId itemRoomId k0 kv).1 in
  let r := linkRoom rs0 r0 in
  room_id r = kv.1 /\ gridX r = kv.2.1 /\ gridY r = kv.2.2
  /\ isBossRoom r = bool_decide (kv.1 = bossId)
  /\ isItemRoom r = bool_decide (kv.1 = itemRoomId)
  /\ cleared r = cleared r0 /\ enemies r = enemies r0 /\ items r = items r0.
Proof.
  cbv zeta.
  destruct (buildRoom_fields rnd bossId itemRoomId k0 kv)
    as (Hid & Hx & Hy & _ & Hb & Hi & _).
  by repeat split.
Qed.

Lemma wellGrown_key_index (v : Visited) (i j : nat) (a b : string * (Z * Z)) :
  wellGrown v -> v !! i = Some a -> v !! j = Some b -> a.1 = b.1 -> i = j.
Proof.
  intros (_ & _ & Hnd & _) Hi Hj Hk.
  apply (proj1 (NoDup_alt _) Hnd i j a.1); apply list_lookup_fmap_Some.
  - by exists a.
  - by exists b.
Qed.

Lemma wellGrown_key (v : Visited) (i : nat) (kv : string * (Z * Z)) :
  wellGrown v -> v !! i = Some kv -> kv.1 = coordKey kv.2.1 kv.2.2.
Proof.
  intros (_ & Hkeys & _) Hi. rewrite Forall_forall in Hkeys.
  apply Hkeys. by eapply list_elem_of_lookup_2.
Qed.

(** X21.  A generated dungeon has exactly [targetCount] rooms (one, if
    the target is below one), every room's id is the printed form of its
    grid cell, and no two rooms occupy the same cell. *)
Theorem generateDungeon_rooms_on_distinct_cells
    (fuel : nat) (rnd : DungeonRandom) (targetCount : Z) (rs : list Room) :
  generateDungeon fuel rnd targetCount = Some rs ->
  Z.of_nat (length rs) = Z.max 1 targetCount
  /\ Forall (fun r => room_id r = coordKey (gridX r) (gridY r)) rs
  /\ (forall i j a b, rs !! i = Some a -> rs !! j = Some b ->
        gridX a = gridX b -> gridY a = gridY b -> i = j).
Proof.
  intros Hgen.
  destruct (generateDungeon_rooms fuel rnd targetCount rs Hgen)
    as (v & itemRoomId & rs0 & Hwg & Hlen & _ & Hrs & _).
  split; [by rewrite <- (Forall2_length _ _ _ Hrs)|]. split.
  - apply Forall_forall. intros r Hr. apply list_elem_of_lookup in Hr as [i Hi].
    destruct (Forall2_lookup_r _ _ _ _ _ Hrs Hi) as (kv & Hkv & k0 & ->).
    destruct (built_fields rnd (pickBoss v) itemRoomId rs0 k0 kv)
      as (-> & -> & -> & _).
    by eapply wellGrown_key.
  - intros i j a b Hi Hj Hx Hy.
    destruct (Forall2_lookup_r _ _ _ _ _ Hrs Hi) as (kva & Hkva & ka & ->).
    destruct (Forall2_lookup_r _ _ _ _ _ Hrs Hj) as (kvb & Hkvb & kb & ->).
    destruct (built_fields rnd (pickBoss v) itemRoomId rs0 ka kva)
      as (_ & Hxa & Hya & _).
    destruct (built_fields rnd (pickBoss v) itemRoomId rs0 kb kvb)
      as (_ & Hxb & Hyb & _).
    rewrite Hxa, Hxb in Hx. rewrite Hya, Hyb in Hy.
    apply (wellGrown_key_index v i j kva kvb Hwg Hkva Hkvb).
    rewrite (wellGrown_key v i kva Hwg Hkva), (wellGrown_key v j kvb Hwg Hkvb).
    by rewrite Hx, Hy.
Qed.

Lemma generateDungeon_rooms_on_distinct_cells_witness :
  Z.of_nat (length sampleDungeon) = Z.max 1 3
  /\ Forall (fun r => room_id r = coordKey (gridX r) (gridY r)) sampleDungeon
  /\ (forall i j a b, sampleDungeon !! i = Some a -> sampleDungeon !! j = Some b ->
        gridX a = gridX b -> gridY a = gridY b -> i = j).
Proof.
  apply (generateDungeon_rooms_on_distinct_cells 2 zeroRandom 3 sampleDungeon).
  apply generateDungeon_sample.
Defined.

(** X22.  The first room of a generated dungeon is the start room: it
    sits at grid cell (0, 0) with id "0,0", is flagged cleared, holds no
    enemy and no item, and is neither the boss room nor the item room. *)
Theorem generateDungeon_start_room
    (fuel : nat) (rnd : DungeonRandom) (targetCount : Z) (rs : list Room) :
  generateDungeon fuel rnd targetCount = Some rs ->
  exists r0, rs !! 0%nat = Some r0
    /\ room_id r0 = "0,0" /\ gridX r0 = 0%Z /\ gridY r0 = 0%Z
    /\ cleared r0 = true /\ enemies r0 = [] /\ items r0 = []
    /\ isBossRoom r0 = false /\ isItemRoom r0 = false.
Proof.
  intros Hgen.
  destruct (generateDungeon_rooms fuel rnd targetCount rs Hgen)
    as (v & itemRoomId & rs0 & Hwg & Hlen & _ & Hrs & Hitem & _).
  pose proof Hwg as (H0 & _).
  destruct (Forall2_lookup_l _ _ _ _ _ Hrs H0) as (r0 & Hr0 & k0 & ->).
  eexists. split; [exact Hr0|].
  pose proof (pickBoss_not_start v) as Hboss.
  destruct (built_fields rnd (pickBoss v) itemRoomId rs0 k0 ("0,0", (0, 0)%Z))
    as (-> & -> & -> & -> & -> & -> & -> & ->).
  destruct (buildRoom_fields rnd (pickBoss v) itemRoomId k0 ("0,0", (0, 0)%Z))
    as (_ & _ & _ & _ & _ & _ & ->).
  rewrite buildRoom_start, buildRoom_no_item by (cbn; congruence).
  cbn [fst snd].
  rewrite (bool_decide_eq_false_2 ("0,0" = pickBoss v)) by congruence.
  rewrite (bool_decide_eq_false_2 ("0,0" = itemRoomId)) by congruence.
  done.
Qed.

Lemma generateDungeon_start_room_witness :
  exists r0, sampleDungeon !! 0%nat = Some r0
    /\ room_id r0 = "0,0" /\ gridX r0 = 0%Z /\ gridY r0 = 0%Z
    /\ cleared r0 = true /\ enemies r0 = [] /\ items r0 = []
    /\ isBossRoom r0 = false /\ isItemRoom r0 = false.
Proof.
  apply (generateDungeon_start_room 2 zeroRandom 3 sampleDungeon).
  apply generateDungeon_sample.
Defined.

Lemma dirs_opposite (d : Z * Z) :
  d ∈ dirs -> exists dd, dirDelta dd = ((- d.1)%Z, (- d.2)%Z).
Proof.
  unfold dirs. intros Hd. repeat (apply elem_of_cons in Hd as [->|Hd]).
  - by exists DOWN.
  - by exists UP.
  - by exists RIGHT.
  - by exists LEFT.
  - by apply elem_of_nil in Hd.
Qed.

(** X23.  A generated dungeon is connected: every room but the first
    has a door that leads to a room generated before it, on the adjacent
    grid cell in that direction; so every room can be reached from the
    start room through doors. *)
Theorem generateDungeon_connected
    (fuel : nat) (rnd : DungeonRandom) (targetCount : Z) (rs : list Room)
    (i : nat) (r : Room) :
  generateDungeon fuel rnd targetCount = Some rs ->
  rs !! i = Some r -> (0 < i)%nat ->
  exists (j : nat) (p : Room) (d : Direction),
    (j < i)%nat /\ rs !! j = Some p /\ hasDoor r d = true
    /\ gridX p = neighbourX r d /\ gridY p = neighbourY r d.
Proof.
  intros Hgen Hi Hpos.
  destruct (generateDungeon_rooms fuel rnd targetCount rs Hgen)
    as (v & itemRoomId & rs0 & Hwg & Hlen & Hrs0 & Hrs & _).
  destruct (Forall2_lookup_r _ _ _ _ _ Hrs Hi) as (kv & Hkv & k0 & ->).
  pose proof Hwg as (_ & _ & _ & Hadj).
  destruct (Hadj i kv Hkv Hpos) as (j & pkv & Hj & Hpkv & d & Hd & Hcell).
  destruct (Forall2_lookup_l _ _ _ _ _ Hrs Hpkv) as (p & Hp & kp & ->).
  destruct (Forall2_lookup_l _ _ _ _ _ Hrs0 Hpkv) as (p0 & Hp0 & kp0 & ->).
  destruct (dirs_opposite d Hd) as [dd Hdd].
  exists j, (linkRoom rs0 (buildRoom rnd (pickBoss v) itemRoomId kp pkv).1), dd.
  split; [done|]. split; [exact Hp|].
  destruct (buildRoom_fields rnd (pickBoss v) itemRoomId k0 kv)
    as (_ & Hx & Hy & Hdoors & _).
  destruct (buildRoom_fields rnd (pickBoss v) itemRoomId kp0 pkv)
    as (_ & Hpx0 & Hpy0 & _).
  destruct (built_fields rnd (pickBoss v) itemRoomId rs0 kp pkv)
    as (_ & Hpx & Hpy & _).
  assert (Hnx : neighbourX (buildRoom rnd (pickBoss v) itemRoomId k0 kv).1 dd = pkv.2.1).
  { unfold neighbourX. rewrite Hdd, Hx, Hcell. cbn. lia. }
  assert (Hny : neighbourY (buildRoom rnd (pickBoss v) itemRoomId k0 kv).1 dd = pkv.2.2).
  { unfold neighbourY. rewrite Hdd, Hy, Hcell. cbn. lia. }
  split; [|split].
  - rewrite linkRoom_hasDoor by exact Hdoors.
    apply findRoom_truthy. eexists. split; [by eapply list_elem_of_lookup_2|].
    by rewrite Hnx, Hny, Hpx0, Hpy0.
  - rewrite Hpx. exact (eq_sym Hnx).
  - rewrite Hpy. exact (eq_sym Hny).
Qed.

Lemma generateDungeon_connected_witness :
  exists (r : Room) (j : nat) (p : Room) (d : Direction),
    sampleDungeon !! 2%nat = Some r
    /\ (j < 2)%nat /\ sampleDungeon !! j = Some p /\ hasDoor r d = true
    /\ gridX p = neighbourX r d /\ gridY p = neighbourY r d.
Proof.
  pose proof (fun r H =>
    generateDungeon_connected 2 zeroRandom 3 sampleDungeon 2 r
      generateDungeon_sample H (Nat.lt_0_succ 1)) as Hthm.
  specialize (Hthm _ eq_refl). destruct Hthm as (j & p & d & H).
  eexists _, j, p, d. split; [reflexivity|exact H].
Defined.

(** X24.  How a generated dungeon is populated, for random numbers in
    [0, 1): a room is flagged cleared exactly when it holds no enemy, so
    the doors of every other room stay shut until its enemies are
    beaten; every enemy starts active with positive health, at least 100
    away from every edge of the canvas; a room holds an item only if it is
    the item room. *)
Theorem generateDungeon_population
    (fuel : nat) (rnd : DungeonRandom) (targetCount : Z) (rs : list Room) (r : Room) :
  (forall k, 0 <= dr_random rnd k < 1) ->
  generateDungeon fuel rnd targetCount = Some rs ->
  r ∈ rs ->
  (cleared r = true <-> enemies r = [])
  /\ Forall (fun e : Entity =>
       isActive e = true /\ 0 < health e
       /\ 100 <= x (position e) <= CANVAS_WIDTH - 100
       /\ 100 <= y (position e) <= CANVAS_HEIGHT - 100) (enemies r)
  /\ (isItemRoom r = false -> items r = []).
Proof.
  intros Hrnd Hgen Hr.
  destruct (generateDungeon_rooms fuel rnd targetCount rs Hgen)
    as (v & itemRoomId & rs0 & Hwg & Hlen & _ & Hrs & _).
  apply list_elem_of_lookup in Hr as [i Hi].
  destruct (Forall2_lookup_r _ _ _ _ _ Hrs Hi) as (kv & Hkv & k0 & ->).
  destruct (built_fields rnd (pickBoss v) itemRoomId rs0 k0 kv)
    as (_ & _ & _ & _ & -> & -> & -> & ->).
  destruct (buildRoom_population rnd (pickBoss v) itemRoomId k0 kv Hrnd
              (pickBoss_not_start v)) as [Hc Hall].
  split; [exact Hc|]. split; [exact Hall|].
  intros Hni. apply bool_decide_eq_false_1 in Hni. by apply buildRoom_no_item.
Qed.

Lemma generateDungeon_population_witness :
  exists r, sampleDungeon !! 1%nat = Some r
  /\ (cleared r = true <-> enemies r = [])
  /\ Forall (fun e : Entity =>
       isActive e = true /\ 0 < health e
       /\ 100 <= x (position e) <= CANVAS_WIDTH - 100
       /\ 100 <= y (position e) <= CANVAS_HEIGHT - 100) (enemies r)
  /\ (isItemRoom r = false -> items r = []).
Proof.
  eexists. split; [reflexivity|].
  apply (generateDungeon_population 2 zeroRandom 3 sampleDungeon).
  - apply zeroRandom_unit.
  - apply generateDungeon_sample.
  - apply (list_elem_of_lookup_2 _ 1). reflexivity.
Defined.

Lemma wellGrown_not_start (v : Visited) (i : nat) (kv : string * (Z * Z)) :
  wellGrown v -> v !! i = Some kv -> (0 < i)%nat -> kv.1 <> "0,0".
Proof.
  intros Hwg Hi Hpos Hk. pose proof Hwg as (H0 & _).
  pose proof (wellGrown_key_index v i 0 kv _ Hwg Hi H0 Hk). lia.
Qed.

Lemma wellGrown_start_cell (v : Visited) (kv : string * (Z * Z)) :
  wellGrown v -> kv ∈ v -> kv.1 = "0,0" -> cellDist kv = 0%Z.
Proof.
  intros Hwg Hin Hk. pose proof Hwg as (H0 & _).
  apply list_elem_of_lookup in Hin as [i Hi].
  pose proof (wellGrown_key_index v i 0 kv _ Hwg Hi H0 Hk) as Hi0.
  rewrite Hi0 in Hi. unfold Visited in *.
  assert (Heq : Some kv = Some ("0,0", (0, 0)%Z)) by congruence.
  by injection Heq as ->.
Qed.

(** X25.  A dungeon of at least two rooms has exactly one boss room.  It
    is not the start room and not the item room, no room lies farther from
    the start in Manhattan distance, and it holds the boss (150 health) and
    nothing else. *)
Theorem generateDungeon_boss_room
    (fuel : nat) (rnd : DungeonRandom) (targetCount : Z) (rs : list Room) :
  (2 <= targetCount)%Z ->
  generateDungeon fuel rnd targetCount = Some rs ->
  exists (i : nat) (b : Room),
    rs !! i = Some b /\ (0 < i)%nat
    /\ isBossRoom b = true /\ isItemRoom b = false /\ cleared b = false
    /\ enemies b = [makeBoss (room_id b)] /\ items b = []
    /\ (forall j r, rs !! j = Some r -> isBossRoom r = true -> j = i)
    /\ (forall r, r ∈ rs -> (manhattan r <= manhattan b)%Z).
Proof.
  intros Ht Hgen.
  destruct (generateDungeon_rooms fuel rnd targetCount rs Hgen)
    as (v & itemRoomId & rs0 & Hwg & Hlen & _ & Hrs & Hitem0 & Hitem & _).
  destruct (lookup_lt_is_Some_2 v 1) as [kv1 Hkv1]; [lia|].
  destruct (pickBoss_farthest v kv1) as (kvb & Hin & Hkey & Hmax);
    [by eapply list_elem_of_lookup_2
    |apply (wellGrown_not_start v 1 kv1 Hwg Hkv1); lia|].
  apply list_elem_of_lookup in Hin as [i Hi].
  destruct (Forall2_lookup_l _ _ _ _ _ Hrs Hi) as (b & Hb & k0 & ->).
  assert (Hnotitem : kvb.1 <> itemRoomId).
  { destruct Hitem as [-> | [_ Hne]]; [|congruence].
    rewrite (wellGrown_key v i kvb Hwg Hi). apply coordKey_nonempty. }
  assert (Hnotstart : kvb.1 <> "0,0").
  { rewrite Hkey. apply pickBoss_not_start. }
  eexists i, _. split; [exact Hb|]. split.
  { destruct i; [|lia]. destruct Hwg as (H0 & _). unfold Visited in *.
    assert (Heq : Some kvb = Some ("0,0", (0, 0)%Z)) by congruence.
    injection Heq as ->. done. }
  destruct (built_fields rnd (pickBoss v) itemRoomId rs0 k0 kvb)
    as (-> & _ & _ & -> & -> & -> & -> & ->).
  destruct (buildRoom_fields rnd (pickBoss v) itemRoomId k0 kvb)
    as (_ & _ & _ & _ & _ & _ & ->).
  rewrite (bool_decide_eq_true_2 _ Hkey), (bool_decide_eq_false_2 _ Hnotitem),
    (bool_decide_eq_false_2 _ Hnotstart).
  rewrite buildRoom_boss, buildRoom_no_item by done.
  repeat (split; [done|]). split.
  - intros j r Hj Hboss.
    destruct (Forall2_lookup_r _ _ _ _ _ Hrs Hj) as (kv & Hkv & k1 & ->).
    destruct (built_fields rnd (pickBoss v) itemRoomId rs0 k1 kv)
      as (_ & _ & _ & Hbb & _).
    rewrite Hbb in Hboss. apply bool_decide_eq_true_1 in Hboss.
    apply (wellGrown_key_index v j i kv kvb Hwg Hkv Hi). congruence.
  - intros r Hr. apply list_elem_of_lookup in Hr as [j Hj].
    destruct (Forall2_lookup_r _ _ _ _ _ Hrs Hj) as (kv & Hkv & k1 & ->).
    unfold manhattan.
    destruct (built_fields rnd (pickBoss v) itemRoomId rs0 k1 kv)
      as (_ & -> & -> & _).
    destruct (built_fields rnd (pickBoss v) itemRoomId rs0 k0 kvb)
      as (_ & -> & -> & _).
    destruct (decide (kv.1 = "0,0")) as [Hs|Hs].
    + pose proof (wellGrown_start_cell v kv Hwg (list_elem_of_lookup_2 _ _ _ Hkv) Hs) as Hz.
      unfold cellDist in Hz. lia.
    + apply (Hmax kv); [by eapply list_elem_of_lookup_2|done].
Qed.

Lemma generateDungeon_boss_room_witness :
  exists (i : nat) (b : Room),
    sampleDungeon !! i = Some b /\ (0 < i)%nat
    /\ isBossRoom b = true /\ isItemRoom b = false /\ cleared b = false
    /\ enemies b = [makeBoss (room_id b)] /\ items b = []
    /\ (forall j r, sampleDungeon !! j = Some r -> isBossRoom r = true -> j = i)
    /\ (forall r, r ∈ sampleDungeon -> (manhattan r <= manhattan b)%Z).
Proof.
  apply (generateDungeon_boss_room 2 zeroRandom 3 sampleDungeon); [lia|].
  apply generateDungeon_sample.
Defined.

(** X26.  With random numbers in [0, 1), a dungeon of at least three
    rooms has exactly one item room.  It is neither the start room nor the
    boss room, starts cleared and without enemies, and holds exactly one
    active item, lying at the centre of the canvas. *)
Theorem generateDungeon_item_room
    (fuel : nat) (rnd : DungeonRandom) (targetCount : Z) (rs : list Room) :
  (forall k, 0 <= dr_random rnd k < 1) ->
  (3 <= targetCount)%Z ->
  generateDungeon fuel rnd targetCount = Some rs ->
  exists (i : nat) (r : Room),
    rs !! i = Some r /\ (0 < i)%nat
    /\ isItemRoom r = true /\ isBossRoom r = false /\ cleared r = true
    /\ enemies r = []
    /\ (exists it : Item,
          items r = [it] /\ isActive it = true
          /\ position it = mkVector2 (CANVAS_WIDTH / 2) (CANVAS_HEIGHT / 2))
    /\ (forall j r', rs !! j = Some r' -> isItemRoom r' = true -> j = i).
Proof.
  intros Hrnd Ht Hgen.
  destruct (generateDungeon_rooms fuel rnd targetCount rs Hgen)
    as (v & itemRoomId & rs0 & Hwg & Hlen & _ & Hrs & Hitem0 & Hitem & Hpick).
  destruct (lookup_lt_is_Some_2 v 1) as [kv1 Hkv1]; [lia|].
  destruct (lookup_lt_is_Some_2 v 2) as [kv2 Hkv2]; [lia|].
  assert (Hin : itemRoomId ∈ v.*1).
  { apply (Hpick Hrnd).
    destruct (decide (kv1.1 = pickBoss v)) as [Hb|Hb].
    - exists kv2.1. split; [apply list_elem_of_fmap; exists kv2; split;
        [done|by eapply list_elem_of_lookup_2]|].
      split; [apply (wellGrown_not_start v 2 kv2 Hwg Hkv2); lia|].
      intros Hb2.
      pose proof (wellGrown_key_index v 1 2 kv1 kv2 Hwg Hkv1 Hkv2 ltac:(congruence)). lia.
    - exists kv1.1. split; [apply list_elem_of_fmap; exists kv1; split;
        [done|by eapply list_elem_of_lookup_2]|].
      split; [apply (wellGrown_not_start v 1 kv1 Hwg Hkv1); lia|done]. }
  apply list_elem_of_fmap in Hin as (kvi & Hkey & Hin).
  apply list_elem_of_lookup in Hin as [i Hi].
  assert (Hnotboss : kvi.1 <> pickBoss v).
  { destruct Hitem as [Hempty | [_ Hne]]; [|congruence].
    exfalso. rewrite Hempty in Hkey.
    apply (coordKey_nonempty kvi.2.1 kvi.2.2).
    by rewrite <- (wellGrown_key v i kvi Hwg Hi). }
  destruct (Forall2_lookup_l _ _ _ _ _ Hrs Hi) as (r & Hr & k0 & ->).
  eexists i, _. split; [exact Hr|]. split.
  { destruct i; [|lia]. destruct Hwg as (H0 & _). unfold Visited in *.
    assert (Heq : Some kvi = Some ("0,0", (0, 0)%Z)) by congruence.
    injection Heq as ->. done. }
  destruct (built_fields rnd (pickBoss v) itemRoomId rs0 k0 kvi)
    as (_ & _ & _ & -> & -> & -> & -> & ->).
  destruct (buildRoom_fields rnd (pickBoss v) itemRoomId k0 kvi)
    as (_ & _ & _ & _ & _ & _ & ->).
  rewrite (bool_decide_eq_true_2 (kvi.1 = itemRoomId)) by done.
  rewrite (bool_decide_eq_false_2 _ Hnotboss), orb_true_r.
  destruct (buildRoom_item rnd (pickBoss v) itemRoomId k0 kvi (eq_sym Hkey))
    as [-> Hit].
  repeat (split; [done|]).
  intros j r' Hj Hitem'.
  destruct (Forall2_lookup_r _ _ _ _ _ Hrs Hj) as (kv & Hkv & k1 & ->).
  destruct (built_fields rnd (pickBoss v) itemRoomId rs0 k1 kv)
    as (_ & _ & _ & _ & Hii & _).
  rewrite Hii in Hitem'. apply bool_decide_eq_true_1 in Hitem'.
  apply (wellGrown_key_index v j i kv kvi Hwg Hkv Hi). congruence.
Qed.

Lemma generateDungeon_item_room_witness :
  exists (i : nat) (r : Room),
    sampleDungeon !! i = Some r /\ (0 < i)%nat
    /\ isItemRoom r = true /\ isBossRoom r = false /\ cleared r = true
    /\ enemies r = []
    /\ (exists it : Item,
          items r = [it] /\ isActive it = true
          /\ position it = mkVector2 (CANVAS_WIDTH / 2) (CANVAS_HEIGHT / 2))
    /\ (forall j r', sampleDungeon !! j = Some r' -> isItemRoom r' = true -> j = i).
Proof.
  apply (generateDungeon_item_room 2 zeroRandom 3 sampleDungeon);
    [apply zeroRandom_unit|lia|apply generateDungeon_sample].
Defined.

(** ** Starting a game *)

Lemma grow_step fuel rnd t k (v : Visited) (c : list (Z * Z)) parent nx ny :
  (Z.of_nat (length v) < t)%Z ->
  zlookup c (randomIndex (dr_random rnd k) (length c)) = Some parent ->
  firstFree parent (shuffledDirs (dr_shuffle rnd k)) v = Some (nx, ny) ->
  grow (S fuel) rnd t k v c
  = grow fuel rnd t (S k) (v ++ [(coordKey nx ny, (nx, ny))]) (c ++ [(nx, ny)]).
Proof.
  intros Hlt Hparent Hfree. cbn [grow].
  rewrite bool_decide_eq_true_2 by exact Hlt.
  rewrite bool_decide_eq_false_2.
  2:{ intros Hlen. destruct c; [|done]. unfold zlookup in Hparent.
      by destruct (bool_decide _). }
  by rewrite Hparent, Hfree.
Qed.

Lemma randomIndex_last (n : nat) :
  (1 <= n <= 100)%nat -> randomIndex 0.99 n = (Z.of_nat n - 1)%Z.
Proof.
  intros [Hlo Hhi]. unfold randomIndex. apply Math_floor_unique.
  rewrite minus_IZR, INR_IZR_INZ.
  assert (1 <= IZR (Z.of_nat n)) by (apply IZR_le; lia).
  assert (IZR (Z.of_nat n) <= 100) by (apply IZR_le; lia).
  lra.
Qed.

Lemma startGame_climb : exists s, startGame 14 climbRandom = Some s.
Proof.
  assert (Hgrow : exists v k,
            grow 14 climbRandom 15 0 [("0,0", (0, 0)%Z)] [(0, 0)%Z] = Some (v, k)).
  { eexists _, _.
    do 14 (etrans;
      [eapply grow_step;
        [vm_compute; done
        |cbn [dr_random climbRandom]; rewrite randomIndex_last by (cbn; lia); reflexivity
        |vm_compute; reflexivity]
      |]).
    reflexivity. }
  destruct Hgrow as (v & k & Hgrow).
  unfold startGame, generateDungeon. rewrite Hgrow.
  destruct (bool_decide _); by eexists.
Qed.

(** X27.  [startGame] sets up a playable session whenever the generator
    returns: the state is PLAYING, the dungeon has 15 rooms, the current
    room is the start room at grid cell (0, 0), which counts as cleared
    and holds no enemy, the player is the fresh player (6 of 6 health) at
    the canvas centre, and nothing is in flight. *)
Theorem startGame_session (fuel : nat) (rnd : DungeonRandom) (s : Session) :
  startGame fuel rnd = Some s ->
  gameState s = PLAYING
  /\ length (rooms s) = 15%nat
  /\ (exists r0, rooms s !! currentRoomIndex s = Some r0
        /\ gridX r0 = 0%Z /\ gridY r0 = 0%Z
        /\ isRoomCleared r0 = true /\ enemies r0 = [])
  /\ player s = createPlayer
  /\ position (player s) = mkVector2 (CANVAS_WIDTH / 2) (CANVAS_HEIGHT / 2)
  /\ health (player s) = 6 /\ maxHealth (player s) = 6
  /\ projectiles s = [] /\ lastShotTime s = 0%Z.
Proof.
  unfold startGame. destruct (generateDungeon fuel rnd 15) as [rs|] eqn:Hgen; [|done].
  intros [= <-]. cbn [gameState rooms currentRoomIndex player projectiles lastShotTime].
  destruct (generateDungeon_rooms fuel rnd 15 rs Hgen)
    as (v & itemRoomId & rs0 & Hwg & Hlen & _ & Hrs & Hitem & _).
  split; [done|]. split; [rewrite <- (Forall2_length _ _ _ Hrs); lia|].
  split; [|done].
  pose proof Hwg as (H0 & _).
  destruct (Forall2_lookup_l _ _ _ _ _ Hrs H0) as (r0 & Hr0 & k0 & ->).
  eexists. split; [exact Hr0|].
  unfold isRoomCleared.
  destruct (built_fields rnd (pickBoss v) itemRoomId rs0 k0 ("0,0", (0, 0)%Z))
    as (_ & -> & -> & _ & _ & -> & -> & _).
  destruct (buildRoom_fields rnd (pickBoss v) itemRoomId k0 ("0,0", (0, 0)%Z))
    as (_ & _ & _ & _ & _ & _ & ->).
  rewrite buildRoom_start by (done || apply pickBoss_not_start).
  done.
Qed.

Lemma startGame_session_witness :
  exists s, startGame 14 climbRandom = Some s
  /\ gameState s = PLAYING
  /\ length (rooms s) = 15%nat
  /\ (exists r0, rooms s !! currentRoomIndex s = Some r0
        /\ gridX r0 = 0%Z /\ gridY r0 = 0%Z
        /\ isRoomCleared r0 = true /\ enemies r0 = [])
  /\ player s = createPlayer
  /\ position (player s) = mkVector2 (CANVAS_WIDTH / 2) (CANVAS_HEIGHT / 2)
  /\ health (player s) = 6 /\ maxHealth (player s) = 6
  /\ projectiles s = [] /\ lastShotTime s = 0%Z.
Proof.
  destruct startGame_climb as [s Hs]. exists s. split; [exact Hs|].
  apply (startGame_session 14 climbRandom s Hs).
Defined.

(** ** Keys *)

Lemma keyDown_withKeys (f : Frame) (keys : gset string) (k : string) :
  keyDown (withKeys f keys) k = bool_decide (k ∈ keys).
Proof. done. Qed.

(** X28.  Pressing D adds exactly one step to the right to the combined
    move input, however often the key-down event repeats while the key is
    held, and releasing it restores the input there was before. *)
Theorem key_press_moves_once (f : Frame) :
  "KeyD" ∉ keysPressed f ->
  let pressed := handleKeyDown "KeyD" (keysPressed f) in
  combinedInput (withKeys f pressed)
  = ((combinedInput f).1 + 1, (combinedInput f).2)
  /\ handleKeyDown "KeyD" pressed = pressed
  /\ combinedInput (withKeys f (handleKeyUp "KeyD" pressed)) = combinedInput f.
Proof.
  intros Hfree. cbv zeta. unfold handleKeyDown, handleKeyUp.
  assert (Hother : forall k, k <> "KeyD" ->
            bool_decide (k ∈ keysPressed f ∪ {["KeyD"]}) = bool_decide (k ∈ keysPressed f)).
  { intros k Hk. apply bool_decide_ext.
    rewrite elem_of_union, elem_of_singleton. tauto. }
  split; [|split].
  - unfold combinedInput. rewrite !keyDown_withKeys. unfold keyDown.
    cbn [moveInput withKeys].
    rewrite (Hother "KeyW"), (Hother "KeyS"), (Hother "KeyA") by done.
    rewrite (bool_decide_eq_true_2 ("KeyD" ∈ keysPressed f ∪ {["KeyD"]}))
      by (apply elem_of_union_r; by apply elem_of_singleton).
    rewrite (bool_decide_eq_false_2 ("KeyD" ∈ keysPressed f)) by done.
    done.
  - by rewrite <- (assoc_L (∪)), (idemp_L (∪)).
  - replace ((keysPressed f ∪ {["KeyD"]}) ∖ {["KeyD"]}) with (keysPressed f).
    + by destruct f.
    + apply set_eq. intros k.
      rewrite elem_of_difference, elem_of_union, elem_of_singleton.
      split; [|intros [[?|?] ?]; done].
      intros Hk. split; [by left|]. by intros ->.
Qed.

Lemma key_press_moves_once_witness :
  let pressed := handleKeyDown "KeyD" (keysPressed (stickFrame 0 0)) in
  combinedInput (withKeys (stickFrame 0 0) pressed)
  = ((combinedInput (stickFrame 0 0)).1 + 1, (combinedInput (stickFrame 0 0)).2)
  /\ handleKeyDown "KeyD" pressed = pressed
  /\ combinedInput (withKeys (stickFrame 0 0) (handleKeyUp "KeyD" pressed))
     = combinedInput (stickFrame 0 0).
Proof. apply (key_press_moves_once (stickFrame 0 0)). apply not_elem_of_empty. Defined.

(** ** Deaths and drops *)

(** X29.  What one enemy can drop in a frame: at most one item, always
    active, and only if the enemy was active and died in this very frame.
    In the boss room a death always drops the reward at the centre of the
    canvas; elsewhere a drop needs a random draw above 0.75, and in the
    item room nothing is ever dropped. *)
Theorem stepEnemy_drops f playerState currentRoom nextX nextY
    (st st1 : LoopState) (e w r : Entity) :
  stepEnemy f playerState currentRoom nextX nextY st e = (st1, w, r) ->
  exists l : list Item,
    spawned st1 = spawned st ++ l /\ (length l <= 1)%nat
    /\ Forall (fun it : Item => isActive it = true) l
    /\ (l <> [] -> isActive e = true /\ isActive w = false /\ health w <= 0)
    /\ (isBossRoom currentRoom = true -> isActive e = true -> isActive w = false ->
        exists it : Item, l = [it]
          /\ position it = mkVector2 (CANVAS_WIDTH / 2) (CANVAS_HEIGHT / 2))
    /\ (isBossRoom currentRoom = false -> isItemRoom currentRoom = true -> l = [])
    /\ (isBossRoom currentRoom = false -> l <> [] -> exists k, random f k > 0.75).
Proof.
  unfold stepEnemy. destruct (isActive e) eqn:Hact; cbn [negb].
  2:{ intros [= <- <- <-]. exists []. cbn [spawned]. rewrite app_nil_r.
      repeat split; try done; try (cbn; lia); by repeat constructor. }
  destruct (clampEnemy _ _) as [eX eY].
  destruct (hitLoop _ _ _ _ _) as [[hs projs] row].
  intros [= <- <- <-]. cbn [spawned isActive health with_isActive with_health].
  eexists. split; [reflexivity|].
  destruct (bool_decide_reflect (hs_health hs <= 0)) as [Hdead|Halive];
    destruct (isBossRoom currentRoom) eqn:Hboss;
    destruct (isItemRoom currentRoom) eqn:Hitem; cbn [andb negb app length];
    try destruct (bool_decide_reflect
                (random f (b_draws (enemyBehaviour f nextX nextY e
                   (default 0 (attackCooldown e) - dt f) (draws st))) > 0.75))
      as [Hroll|Hroll]; cbn [app length];
    repeat split; try done; try (cbn; lia); try (by repeat constructor);
    try (intros; by eexists).
Qed.

(** The frame of [weakling] standing on the player with a tear on top:
    it stands still, the tear takes its last health, and what it drops
    depends on the room and on the next random draw. *)
Lemma stepEnemy_weakling (f : Frame) (room : Room) :
  let st := mkLoopState [tear 400 300] false 0 [] false [] in
  let rolled := negb (isBossRoom room) && negb (isItemRoom room) in
  let drop := rolled && bool_decide (random f 0 > 0.75) in
  let k1 := if rolled then 1%nat else 0%nat in
  let k2 := if drop then S k1 else k1 in
  exists w r,
    stepEnemy f createPlayer room 400 300 st weakling
    = (mkLoopState [proj_deactivate (tear 400 300)] true
         (if isBossRoom room then S k2 else k2)
         ((if drop then [spawnItem f k1 (400 - 0 * 6) (300 - 0 * 6)] else [])
          ++ (if isBossRoom room
              then [spawnItem f k2 (CANVAS_WIDTH / 2) (CANVAS_HEIGHT / 2)] else []))
         (isBossRoom room) [[true]], w, r)
    /\ isActive w = false /\ health w = 3 - 3.5.
Proof.
  cbv zeta. unfold stepEnemy.
  cbn [isActive weakling with_health gruntNamed negb attackCooldown].
  change (default 0 (Some 0)) with 0.
  assert (Hb : enemyBehaviour f 400 300 weakling (0 - dt f) 0
               = mkBehaviour 0 0 (0 - dt f) [] 0).
  { unfold enemyBehaviour. cbn [variant weakling with_health gruntNamed position x y speed].
    rewrite !bool_decide_eq_false_2 by done.
    rewrite (sqrt_of_square _ 0) by lra.
    rewrite bool_decide_eq_false_2 by lra. reflexivity. }
  change (mkEntity "enemy-1,0-0" ENEMY (mkVector2 400 300) (mkVector2 0 0) ENEMY_SIZE
            "red" 3 10 1 ENEMY_SPEED true [] (Some 0) (Some BASIC) (Some 0))
    with weakling.
  cbn [draws nextProjectiles playerHit spawned victory hitLog].
  rewrite Hb. cbn [b_vx b_vy b_shots b_draws b_cooldown].
  cbn [position weakling with_health gruntNamed x y].
  rewrite !Rplus_0_r, app_nil_r.
  rewrite clampEnemy_inside by (unfold CANVAS_WIDTH, CANVAS_HEIGHT; lra).
  assert (Hhit : hitLoop weakling 0 0 (mkHitState 3 400 300) [tear 400 300]
                 = (mkHitState (3 - 3.5) (400 - 0 * 6) (300 - 0 * 6),
                    [proj_deactivate (tear 400 300)], [true])).
  { cbn [hitLoop]. unfold strike. cbn [hs_eX hs_eY hs_health].
    rewrite (checkCollision_same_position (tear 400 300))
      by (done || cbn; unfold PROJECTILE_SIZE, ENEMY_SIZE; lra).
    reflexivity. }
  change (health weakling) with 3.
  rewrite Hhit. cbn [hs_health hs_eX hs_eY].
  rewrite (bool_decide_eq_true_2 (3 - 3.5 <= 0)) by lra.
  rewrite (checkCollision_same_position (with_position createPlayer _))
    by (done || cbn; unfold PLAYER_SIZE, ENEMY_SIZE; lra).
  cbn [andb orb].
  eexists _, _. split; [reflexivity|]. by split.
Qed.

Lemma stepEnemy_drops_witness :
  (exists (st1 : LoopState) (w r : Entity),
     stepEnemy luckyFrame createPlayer fightRoom 400 300
       (mkLoopState [tear 400 300] false 0 [] false []) weakling = (st1, w, r)
     /\ length (spawned st1) = 1%nat
     /\ (exists l : list Item,
         spawned st1 = [] ++ l /\ (length l <= 1)%nat
         /\ Forall (fun it : Item => isActive it = true) l
         /\ (l <> [] -> isActive weakling = true /\ isActive w = false
                        /\ health w <= 0)
         /\ (isBossRoom fightRoom = true -> isActive weakling = true ->
             isActive w = false ->
             exists it : Item, l = [it]
               /\ position it = mkVector2 (CANVAS_WIDTH / 2) (CANVAS_HEIGHT / 2))
         /\ (isBossRoom fightRoom = false -> isItemRoom fightRoom = true -> l = [])
         /\ (isBossRoom fightRoom = false -> l <> [] ->
             exists k, random luckyFrame k > 0.75)))
  /\ (exists (st1 : LoopState) (w r : Entity),
     stepEnemy (stickFrame 0 0) createPlayer bossArena 400 300
       (mkLoopState [tear 400 300] false 0 [] false []) weakling = (st1, w, r)
     /\ length (spawned st1) = 1%nat
     /\ (exists l : list Item,
         spawned st1 = [] ++ l /\ (length l <= 1)%nat
         /\ Forall (fun it : Item => isActive it = true) l
         /\ (l <> [] -> isActive weakling = true /\ isActive w = false
                        /\ health w <= 0)
         /\ (isBossRoom bossArena = true -> isActive weakling = true ->
             isActive w = false ->
             exists it : Item, l = [it]
               /\ position it = mkVector2 (CANVAS_WIDTH / 2) (CANVAS_HEIGHT / 2))
         /\ (isBossRoom bossArena = false -> isItemRoom bossArena = true -> l = [])
         /\ (isBossRoom bossArena = false -> l <> [] ->
             exists k, random (stickFrame 0 0) k > 0.75)))
  /\ (exists (st1 : LoopState) (w r : Entity),
     stepEnemy luckyFrame createPlayer treasury 400 300
       (mkLoopState [tear 400 300] false 0 [] false []) weakling = (st1, w, r)
     /\ spawned st1 = []
     /\ (exists l : list Item,
         spawned st1 = [] ++ l /\ (length l <= 1)%nat
         /\ Forall (fun it : Item => isActive it = true) l
         /\ (l <> [] -> isActive weakling = true /\ isActive w = false
                        /\ health w <= 0)
         /\ (isBossRoom treasury = true -> isActive weakling = true ->
             isActive w = false ->
             exists it : Item, l = [it]
               /\ position it = mkVector2 (CANVAS_WIDTH / 2) (CANVAS_HEIGHT / 2))
         /\ (isBossRoom treasury = false -> isItemRoom treasury = true -> l = [])
         /\ (isBossRoom treasury = false -> l <> [] ->
             exists k, random luckyFrame k > 0.75))).
Proof.
  split; [|split].
  - destruct (stepEnemy_weakling luckyFrame fightRoom) as (w & r & Hstep & _).
    eexists _, w, r. split; [exact Hstep|].
    split.
    { cbn [spawned isBossRoom isItemRoom fightRoom negb andb random luckyFrame].
      rewrite bool_decide_eq_true_2 by lra. reflexivity. }
    exact (stepEnemy_drops luckyFrame createPlayer fightRoom 400 300 _ _ weakling w r Hstep).
  - destruct (stepEnemy_weakling (stickFrame 0 0) bossArena) as (w & r & Hstep & _).
    eexists _, w, r. split; [exact Hstep|].
    split; [reflexivity|].
    exact (stepEnemy_drops (stickFrame 0 0) createPlayer bossArena 400 300 _ _ weakling w r
             Hstep).
  - destruct (stepEnemy_weakling luckyFrame treasury) as (w & r & Hstep & _).
    eexists _, w, r. split; [exact Hstep|].
    split; [reflexivity|].
    exact (stepEnemy_drops luckyFrame createPlayer treasury 400 300 _ _ weakling w r Hstep).
Defined.

Lemma stepEnemy_alive f playerState currentRoom nextX nextY
    (st st1 : LoopState) (e w r : Entity) :
  stepEnemy f playerState currentRoom nextX nextY st e = (st1, w, r) ->
  (isActive e = true -> isActive r = true -> 0 < health r)
  /\ (isActive e = false -> isActive r = false).
Proof.
  unfold stepEnemy. destruct (isActive e) eqn:Hact; cbn [negb].
  - destruct (clampEnemy _ _) as [eX eY].
    destruct (hitLoop _ _ _ _ _) as [[hs projs] row].
    intros [= <- <- <-]. split; [|done]. intros _. cbn.
    destruct (bool_decide_reflect (hs_health hs <= 0)); [done|]. intros _. lra.
  - intros [= <- <- <-]. by split.
Qed.

Lemma enemiesLoop_alive f playerState currentRoom nextX nextY (es : list Entity) :
  forall (st st' : LoopState) (written returned : list Entity),
  enemiesLoop f playerState currentRoom nextX nextY st es = (st', written, returned) ->
  Forall2 (fun e r : Entity =>
             (isActive e = true -> isActive r = true -> 0 < health r)
             /\ (isActive e = false -> isActive r = false)) es returned.
Proof.
  induction es as [|e es IH]; intros st st' written returned; cbn [enemiesLoop].
  - intros [= <- <- <-]. constructor.
  - destruct (stepEnemy _ _ _ _ _ _ e) as [[st1 w] r] eqn:Hstep.
    destruct (enemiesLoop _ _ _ _ _ st1 es) as [[st2 ws] rs] eqn:Hloop.
    intros [= <- <- <-]. constructor; [by eapply stepEnemy_alive|by eapply IH].
Qed.

(** X30.  After a frame of a fight (the room did not count as cleared),
    every enemy of the room that is still active has positive health, so
    an enemy is deactivated in the very frame its health reaches 0; and
    the room is stored flagged cleared exactly when none of its enemies is
    active any more. *)
Theorem update_fight_outcome (f : Frame) (s : Session) (room : Room) :
  gameState s = PLAYING ->
  rooms s !! currentRoomIndex s = Some room ->
  isRoomCleared room = false ->
  -60 <= size (player s) <= 500 ->
  exists room',
    rooms (update f s) !! currentRoomIndex s = Some room'
    /\ Forall (fun e : Entity => isActive e = true -> 0 < health e) (enemies room')
    /\ (cleared room' = true
        <-> Forall (fun e : Entity => isActive e = false) (enemies room')).
Proof.
  intros Hplay Hroom Hc Hsize. unfold update.
  rewrite (bool_decide_eq_true_2 _ Hplay). cbn [negb]. rewrite Hroom.
  destruct (moveVector f) as [dx dy].
  pose proof (clampPlayer_uncleared (player s) room
                (x (position (player s)) + dx * speed (player s))
                (y (position (player s)) + dy * speed (player s)) Hc (proj2 Hsize)) as Hb.
  destruct (clampPlayer _ _ _ _) as [nextX nextY]. cbn [fst snd] in Hb.
  destruct (shoot _ _ _ _ _) as [shots lastShot].
  destruct (enemiesLoop _ _ _ _ _ _ _) as [[st written] roomEnemies] eqn:Hloop.
  unfold commit.
  rewrite roomSwitch_inside
    by (unfold wallThickness, CANVAS_WIDTH, CANVAS_HEIGHT in *; lra).
  cbn [rooms]. eexists. split.
  { apply list_lookup_insert_eq. by eapply lookup_lt_Some. }
  cbn [enemies cleared with_cleared with_items with_enemies].
  pose proof (enemiesLoop_alive _ _ _ _ _ _ _ _ _ _ Hloop) as Halive.
  assert (Hflag : cleared room = false).
  { unfold isRoomCleared in Hc. by apply orb_false_iff in Hc as [? _]. }
  assert (Hstill : existsb (fun e : Entity => isActive e) (enemies room) = true).
  { unfold isRoomCleared in Hc. apply orb_false_iff in Hc as [_ Hc].
    clear -Hc. induction (enemies room) as [|e es IH]; [done|].
    cbn in *. destruct (isActive e); [done|]. by apply IH. }
  split.
  - clear -Halive. induction Halive as [|e r es rs [Ha Hi] _ IH]; constructor; [|exact IH].
    intros Hr. destruct (isActive e) eqn:He; [by apply Ha|].
    rewrite Hi in Hr; done.
  - rewrite Hflag.
    assert (Hall : forallb (fun e : Entity => negb (isActive e)) roomEnemies = true
                   <-> Forall (fun e : Entity => isActive e = false) roomEnemies).
    { clear. induction roomEnemies as [|e es IH]; cbn.
      - split; [constructor|done].
      - rewrite andb_true_iff, IH, Forall_cons, negb_true_iff. done. }
    destruct (forallb _ roomEnemies); [by rewrite <- Hall|].
    split; [done|]. intros HF. by apply Hall in HF.
Qed.

Lemma update_fight_outcome_witness :
  exists room',
    rooms (update (stickFrame 0 0) wallFight) !! currentRoomIndex wallFight = Some room'
    /\ Forall (fun e : Entity => isActive e = true -> 0 < health e) (enemies room')
    /\ (cleared room' = true
        <-> Forall (fun e : Entity => isActive e = false) (enemies room')).
Proof.
  apply (update_fight_outcome (stickFrame 0 0) wallFight fightRoom); try reflexivity.
  cbn; unfold PLAYER_SIZE; lra.
Defined.
